(** * The local (sysfs) backend of libiio: a model of [local.c]

    The development follows the C file function by function.  Integers are
    mathematical integers with the conversions of the C types written out,
    C strings are [string]s, structures are records, and the operating
    system is a scripted environment threaded through a small state monad:
    every system call appends what it did to a trace and takes its outcome
    from the script. *)

From Stdlib Require Import ZArith List String Ascii Bool Lia DecimalString.
Import ListNotations.

Open Scope Z_scope.

(** ** C integer types and the constants of the system headers *)

Module C.

Definition INT_MAX : Z := 2147483647.
Definition UINT_MAX : Z := 4294967295.

(** Conversion to [unsigned int]: reduction modulo 2^32. *)
Definition to_uint (z : Z) : Z := z mod 2 ^ 32.

(** Conversion to [int]: two's complement wrap-around. *)
Definition to_int (z : Z) : Z := (z + 2 ^ 31) mod 2 ^ 32 - 2 ^ 31.

(** Conversion to [size_t] (64 bits). *)
Definition to_size_t (z : Z) : Z := z mod 2 ^ 64.

(** [errno] values (Linux). *)
Definition ENOENT : Z := 2.
Definition EINTR : Z := 4.
Definition EIO : Z := 5.
Definition EBADF : Z := 9.
Definition EAGAIN : Z := 11.
Definition ENOMEM : Z := 12.
Definition EACCES : Z := 13.
Definition EBUSY : Z := 16.
Definition EINVAL : Z := 22.
Definition EFBIG : Z := 27.
Definition ENOSYS : Z := 38.
Definition ETIMEDOUT : Z := 110.

(** [poll] event bits. *)
Definition POLLIN : Z := 1.
Definition POLLNVAL : Z := 32.

Definition ENXIO : Z := 6.
Definition ENODEV : Z := 19.
End C.

(** ** C strings

    A [char *] into a string is the string together with an offset, or the
    suffix that starts there. *)

Module CStr.

Open Scope string_scope.

Definition NUL : ascii := Ascii.zero.

Definition strlen (s : string) : nat := String.length s.

(** [s[i]]: the terminator at [i = strlen s] (and past it, where C reads
    out of bounds). *)
Fixpoint char_at (s : string) (i : nat) : ascii :=
  match s, i with
  | EmptyString, _ => NUL
  | String c _, O => c
  | String _ r, S j => char_at r j
  end.

(** [s + n] *)
Fixpoint advance (s : string) (n : nat) {struct n} : string :=
  match n, s with
  | O, _ => s
  | S m, EmptyString => EmptyString
  | S m, String _ r => advance r m
  end.

(** The first [n] characters of [s]. *)
Fixpoint take (s : string) (n : nat) {struct n} : string :=
  match n, s with
  | O, _ => EmptyString
  | S m, EmptyString => EmptyString
  | S m, String c r => String c (take r m)
  end.

(** [strchr(s, c)], as the offset of the first [c], for [c] other than NUL. *)
Fixpoint strchr (s : string) (c : ascii) : option nat :=
  match s with
  | EmptyString => None
  | String x r =>
      if Ascii.eqb x c then Some O
      else match strchr r c with
           | Some i => Some (S i)
           | None => None
           end
  end.

(** [strncmp(a, b, n) == 0] *)
Fixpoint strncmp_eq (a b : string) (n : nat) {struct n} : bool :=
  match n with
  | O => true
  | S m =>
      match a, b with
      | EmptyString, EmptyString => true
      | String x a', String y b' =>
          if Ascii.eqb x y then strncmp_eq a' b' m else false
      | _, _ => false
      end
  end.

(** The C string an array of characters holds: what stands before the
    first NUL. *)
Fixpoint c_str (bytes : string) : string :=
  match bytes with
  | EmptyString => EmptyString
  | String c r => if Ascii.eqb c NUL then EmptyString else String c (c_str r)
  end.

(** [strcmp(a, b) == 0] *)
Definition strcmp_eq (a b : string) : bool := String.eqb a b.

(** [strcut(str, nb)]: the string loses its first [nb] characters. *)
Definition strcut (str : string) (nb : nat) : string := advance str nb.

(** Modelled from the spec: [iio_strlcpy] is not among the sources; the
    folded prefix becomes the display name without its trailing underscore,
    that is, [iio_strlcpy(dst, src, size)] stores the first [size - 1]
    characters of [src] and a terminator, as [strlcpy] does. *)
Definition iio_strlcpy (src : string) (size : nat) : string :=
  take src (size - 1).

(** [iio_snprintf(buf, size, ...)] stores at most [size - 1] characters of
    the formatted text. *)
Definition snprintf (size : nat) (text : string) : string :=
  take text (size - 1).

(** The conversions [%u] and [%zu] of a non-negative number. *)
Definition decimal (z : Z) : string :=
  NilZero.string_of_uint (N.to_uint (Z.to_N z)).

Definition is_digit (c : ascii) : bool :=
  let n := nat_of_ascii c in ((48 <=? n) && (n <=? 57))%nat.

(** [strrchr(s, c)], as the offset of the last [c], for [c] other than
    NUL. *)
Fixpoint strrchr (s : string) (c : ascii) : option nat :=
  match s with
  | EmptyString => None
  | String x r =>
      match strrchr r c with
      | Some i => Some (S i)
      | None => if Ascii.eqb x c then Some O else None
      end
  end.

(** [strnlen(s, n)] *)
Definition strnlen (s : string) (n : nat) : nat := Nat.min (String.length s) n.

(** [strstr(haystack, needle) != NULL] *)
Fixpoint contains (haystack needle : string) : bool :=
  strncmp_eq needle haystack (String.length needle)
  || match haystack with
     | EmptyString => false
     | String _ r => contains r needle
     end.
End CStr.

(** ** [sscanf], for the conversions [local.c] uses *)

Module Scanf.

Open Scope string_scope.

Inductive directive :=
| DChar              (* %c *)
| DUInt              (* %u *)
| DLit (c : ascii).  (* an ordinary character, matched as it is *)

Fixpoint parse_format (fmt : string) : list directive :=
  match fmt with
  | EmptyString => []
  | String "%" (String "c" r) => DChar :: parse_format r
  | String "%" (String "u" r) => DUInt :: parse_format r
  | String c r => DLit c :: parse_format r
  end.

Inductive value :=
| VChar (c : ascii)
| VUInt (n : Z).

Definition is_space (c : ascii) : bool :=
  let n := nat_of_ascii c in ((n =? 32) || ((9 <=? n) && (n <=? 13)))%nat.

Fixpoint skip_spaces (s : string) : string :=
  match s with
  | String c r => if is_space c then skip_spaces r else s
  | EmptyString => s
  end.

(** The longest run of decimal digits at the head of [s], read as a number
    on top of [acc]; [seen] says whether a digit was read. *)
Fixpoint digits (s : string) (acc : Z) (seen : bool) : option Z * string :=
  match s with
  | String c r =>
      if CStr.is_digit c
      then digits r (acc * 10 + Z.of_nat (nat_of_ascii c - 48)) true
      else (if seen then Some acc else None, s)
  | EmptyString => (if seen then Some acc else None, s)
  end.

(** [%u]: white space is skipped, then an optionally signed decimal number
    is read as [strtoul] does (saturating at [ULONG_MAX]) and stored into an
    [unsigned int]. *)
Definition scan_uint (s : string) : option (Z * string) :=
  let s := skip_spaces s in
  let '(neg, s) :=
    match s with
    | String "-" r => (true, r)
    | String "+" r => (false, r)
    | _ => (false, s)
    end in
  match digits s 0 false with
  | (Some n, rest) =>
      let v := (if 2 ^ 64 <=? n then 2 ^ 64 - 1 else if neg then - n else n)%Z in
      Some (C.to_uint v, rest)
  | (None, _) => None
  end.

(** The values [sscanf] assigns, in order; it stops at the first directive
    that does not match. *)
Fixpoint sscanf (s : string) (ds : list directive) : list value :=
  match ds with
  | [] => []
  | DChar :: ds' =>
      match s with
      | String c r => VChar c :: sscanf r ds'
      | EmptyString => []
      end
  | DLit c :: ds' =>
      match s with
      | String x r => if Ascii.eqb x c then sscanf r ds' else []
      | EmptyString => []
      end
  | DUInt :: ds' =>
      match scan_uint s with
      | Some (n, r) => VUInt n :: sscanf r ds'
      | None => []
      end
  end.

(** What the [i]-th pointer argument holds after the call. *)
Definition char_arg (vs : list value) (i : nat) (old : ascii) : ascii :=
  match nth_error vs i with
  | Some (VChar c) => c
  | _ => old
  end.

Definition uint_arg (vs : list value) (i : nat) (old : Z) : Z :=
  match nth_error vs i with
  | Some (VUInt n) => n
  | _ => old
  end.

End Scanf.

(** ** The environment *)

Record timespec := { tv_sec : Z; tv_nsec : Z }.

(** What one call of [poll] on the pair (data descriptor, cancellation
    descriptor) gives back: its return value, [errno] when that is -1, and the
    [revents] of the two entries after the call. *)
Record poll_outcome := {
  poll_ret : Z;
  poll_errno : Z;
  revents_fd : Z;
  revents_cancel : Z
}.

(** What one call of [read] or [write] gives back. *)
Record xfer_outcome := { xfer_ret : Z; xfer_errno : Z }.

(** What one [fopen] ... [fclose] sequence on an attribute file meets:
    [fopen] fails with an [errno], or the stream opens on a file holding
    [data] (what [fread] delivers), [fwrite] returns [nwritten], and
    [ferror_errno] is [Some e] when the error indicator is set after
    [fflush], with [errno = e]. *)
Inductive stdio_outcome :=
| FopenFailed (errno : Z)
| Opened (data : string) (nwritten : Z) (ferror_errno : option Z).

Inductive heap_object := BackendPrivate | BufferPdata.

(** The calls the trace records, oldest first. *)
Inductive action :=
| APoll (fd events cancel_fd timeout : Z)
| ARead (fd len : Z)
| AWrite (fd len : Z)
| AClose (fd : Z)
| AFopen (path mode : string)
| AFread (len : Z)
| AFwrite (src : string) (len : Z)
| AFclose
| AFree (obj : heap_object).

Record World := {
  clock : nat -> timespec;       (* successive CLOCK_MONOTONIC readings *)
  ticks : nat;                   (* how many readings were taken *)
  polls : list poll_outcome;     (* outcomes of the next calls of poll *)
  xfers : list xfer_outcome;     (* outcomes of the next read/write calls *)
  files : list stdio_outcome;    (* outcomes of the next stdio sequences *)
  heap_budget : nat;             (* allocations that still succeed *)
  trace : list action
}.

(** How a computation ends in a world: with a value and a new world, blocked
    because the script holds no outcome for a call it makes, or outside
    defined behaviour (arithmetic on a null pointer). *)
Inductive outcome (A : Type) :=
| Done (a : A) (w : World)
| Blocked
| Undefined.

Arguments Done {A} a w.
Arguments Blocked {A}.
Arguments Undefined {A}.

Definition M (A : Type) : Type := World -> outcome A.

Definition ret {A} (a : A) : M A := fun w => Done a w.

Definition bind {A B} (c : M A) (k : A -> M B) : M B :=
  fun w => match c w with
           | Done a w' => k a w'
           | Blocked => Blocked
           | Undefined => Undefined
           end.

Definition undefined {A} : M A := fun _ => Undefined.
Definition blocked {A} : M A := fun _ => Blocked.

Declare Scope monad_scope.
Delimit Scope monad_scope with monad.
Notation "x <- c ;; k" := (bind c (fun x => k))
  (at level 61, c at next level, right associativity) : monad_scope.
Notation "' pat <- c ;; k" := (bind c (fun x => match x with pat => k end))
  (at level 61, pat pattern, c at next level, right associativity) : monad_scope.
Notation "c ;;; k" := (bind c (fun _ => k))
  (at level 61, right associativity) : monad_scope.
Open Scope monad_scope.

Definition log (a : action) : M unit :=
  fun w => Done tt {| clock := clock w; ticks := ticks w; polls := polls w;
                      xfers := xfers w; files := files w;
                      heap_budget := heap_budget w;
                      trace := trace w ++ [a] |}.

(** The world after one more reading of the clock. *)
Definition tick (w : World) : World :=
  {| clock := clock w; ticks := S (ticks w); polls := polls w;
     xfers := xfers w; files := files w;
     heap_budget := heap_budget w; trace := trace w |}.

Definition clock_gettime : M timespec :=
  fun w => Done (clock w (ticks w)) (tick w).

Definition next_poll : M poll_outcome :=
  fun w => match polls w with
           | [] => Blocked
           | p :: ps =>
               Done p {| clock := clock w; ticks := ticks w; polls := ps;
                         xfers := xfers w; files := files w;
                         heap_budget := heap_budget w; trace := trace w |}
           end.

Definition next_xfer : M xfer_outcome :=
  fun w => match xfers w with
           | [] => Blocked
           | x :: xs =>
               Done x {| clock := clock w; ticks := ticks w; polls := polls w;
                         xfers := xs; files := files w;
                         heap_budget := heap_budget w; trace := trace w |}
           end.

Definition next_file : M stdio_outcome :=
  fun w => match files w with
           | [] => Blocked
           | f :: fs =>
               Done f {| clock := clock w; ticks := ticks w; polls := polls w;
                         xfers := xfers w; files := fs;
                         heap_budget := heap_budget w; trace := trace w |}
           end.

(** [malloc], [realloc], [zalloc], [iio_strdup]: [true] when the allocation
    succeeds.  The budget says how many still do. *)
Definition alloc : M bool :=
  fun w => match heap_budget w with
           | O => Done false w
           | S n =>
               Done true {| clock := clock w; ticks := ticks w; polls := polls w;
                            xfers := xfers w; files := files w;
                            heap_budget := n; trace := trace w |}
           end.

Definition poll (fd events cancel_fd timeout : Z) : M poll_outcome :=
  log (APoll fd events cancel_fd timeout) ;;; next_poll.

Definition close (fd : Z) : M unit := log (AClose fd).
Definition free (obj : heap_object) : M unit := log (AFree obj).

(** ** The structures of the library

    They are declared in headers ([iio-private.h], [local.h]) that are not
    among the sources; each record has the fields [local.c] reads or
    writes, under their names where a name is free. *)

(** [struct iio_channel_attr]: the short name of an attribute and the file
    that backs it. *)
Record iio_channel_attr := { attr_name : string; attr_filename : string }.

(** [struct iio_data_format], without the floating-point [scale]. *)
Record iio_data_format := {
  format_length : Z;
  format_bits : Z;
  format_shift : Z;
  is_signed : bool;
  is_fully_defined : bool;
  is_be : bool;
  with_scale : bool;
  format_repeat : Z
}.

(** [struct iio_channel_pdata]; [nb_protected_attrs] is the length of the
    list. *)
Record iio_channel_pdata := {
  enable_fn : option string;
  protected_attrs : list iio_channel_attr
}.

(** [struct iio_channel]; [nb_attrs] is the length of [attrs].  The
    back-reference [chn->dev] is not a field: a function that follows it
    takes the device as an argument. *)
Record iio_channel := {
  chn_id : string;
  chn_name : option string;
  is_output : bool;
  is_scan_element : bool;
  index : Z;
  format : iio_data_format;
  attrs : list iio_channel_attr;
  pdata : iio_channel_pdata
}.

(** [struct iio_device], with the fields [local.c] reads or writes;
    [timeout_ms] stands for [dev->ctx->params.timeout_ms]. *)
Record iio_device := {
  dev_id : string;
  dev_name : option string;
  dev_label : option string;
  dev_attrs : list string;
  channels : list iio_channel;
  timeout_ms : Z
}.

(** [struct iio_buffer_pdata] *)
Record iio_buffer_pdata := {
  buf_dev : iio_device;
  buf_fd : Z;
  buf_cancel_fd : Z;
  buf_idx : Z;
  dmabuf_supported : bool;
  mmap_supported : bool;
  multi_buffer : bool
}.

(** [enum iio_attr_type]: the three kinds the backend serves, and any other
    enumerator. *)
Inductive iio_attr_type :=
| IIO_ATTR_TYPE_DEVICE
| IIO_ATTR_TYPE_DEBUG
| IIO_ATTR_TYPE_BUFFER
| IIO_ATTR_TYPE_OTHER (n : Z).

(** What [local.c] takes from the rest of the library and from the build:
    the configuration macro [WITH_HWMON], the hwmon tests on a device (given
    by its id) and on an attribute name, the table of channel modifiers
    ([find_channel_modifier s] is [Some len] when [s] starts with a modifier
    name of [len] characters, [None] for [IIO_NO_MOD]), and the
    initialisation a new channel goes through.  [strtoll s base] is the C
    function: the value, how many characters were consumed ([end - s]), and
    whether [errno] is [ERANGE] afterwards. *)
Class Externals := {
  WITH_HWMON : bool;
  iio_device_is_hwmon : string -> bool;
  iio_channel_is_hwmon : string -> bool;
  find_channel_modifier : string -> option nat;
  iio_channel_init_finalize : iio_channel -> iio_channel;
  strtoll : string -> Z -> Z * nat * bool
}.

(** ** Timeout and poll utility *)

(** [get_rel_timeout_ms], on LP64: [time_t] and [long] are 64-bit and their
    arithmetic is exact here, [int] and [unsigned int] are 32-bit and every
    store into them wraps.  The division of [long]s truncates toward zero
    ([Z.quot]). *)
Definition get_rel_timeout_ms (start : timespec) (timeout_rel : Z) : M Z :=
  if timeout_rel =? 0 then ret (-1)
  else
    now <- clock_gettime ;;
    let diff_ms := C.to_int ((tv_sec now - tv_sec start) * 1000) in
    let diff_ms :=
      C.to_int (diff_ms + Z.quot (tv_nsec now - tv_nsec start) 1000000) in
    if diff_ms >=? C.to_int timeout_rel then ret 0
    else
      let timeout_rel :=
        if diff_ms >? 0 then C.to_uint (timeout_rel - diff_ms)
        else timeout_rel in
      if timeout_rel >? C.INT_MAX then ret C.INT_MAX
      else ret (C.to_int timeout_rel).

(** The [do ... while (ret == -1 && errno == EINTR)] loop of
    [buffer_check_ready]: the timeout is computed anew before every call of
    [poll].  Every turn takes one outcome from the script, so [fuel] above
    the length of the script never runs out. *)
Fixpoint poll_loop (fuel : nat) (pdata : iio_buffer_pdata) (fd events : Z)
    (start : option timespec) : M poll_outcome :=
  match fuel with
  | O => blocked
  | S fuel' =>
      timeout_rel <-
        match start with
        | Some s => get_rel_timeout_ms s (timeout_ms (buf_dev pdata))
        | None => ret 0
        end ;;
      p <- poll fd events (buf_cancel_fd pdata) timeout_rel ;;
      if (poll_ret p =? -1) && (poll_errno p =? C.EINTR)
      then poll_loop fuel' pdata fd events start
      else ret p
  end.

Definition buffer_check_ready (pdata : iio_buffer_pdata) (fd events : Z)
    (start : option timespec) : M Z :=
  fun w =>
    (p <- poll_loop (S (List.length (polls w))) pdata fd events start ;;
     if negb (Z.land (revents_cancel p) C.POLLIN =? 0) then ret (- C.EBADF)
     else if poll_ret p <? 0 then ret (- poll_errno p)
     else if poll_ret p =? 0 then
       ret (match start with Some _ => - C.ETIMEDOUT | None => - C.EBUSY end)
     else if negb (Z.land (revents_fd p) C.POLLNVAL =? 0) then ret (- C.EBADF)
     else if Z.land (revents_fd p) events =? 0 then ret (- C.EIO)
     else ret 0) w.

(** ** Attribute files *)

(** The path [local_read_dev_attr] and [local_write_dev_attr] build in
    [buf[1024]]; [None] in the [default] case of the [switch]. *)
Definition attr_path `{Externals} (dev : iio_device) (buf_id : Z)
    (attr : string) (type : iio_attr_type) : option string :=
  match type with
  | IIO_ATTR_TYPE_DEVICE =>
      if WITH_HWMON && iio_device_is_hwmon (dev_id dev)
      then Some (CStr.snprintf 1024
                   ("/sys/class/hwmon/" ++ dev_id dev ++ "/" ++ attr)%string)
      else Some (CStr.snprintf 1024
                   ("/sys/bus/iio/devices/" ++ dev_id dev ++ "/" ++ attr)%string)
  | IIO_ATTR_TYPE_DEBUG =>
      Some (CStr.snprintf 1024
              ("/sys/kernel/debug/iio/" ++ dev_id dev ++ "/" ++ attr)%string)
  | IIO_ATTR_TYPE_BUFFER =>
      if buf_id >? 0
      then Some (CStr.snprintf 1024
                   ("/sys/bus/iio/devices/" ++ dev_id dev ++ "/buffer"
                    ++ CStr.decimal buf_id ++ "/" ++ attr)%string)
      else Some (CStr.snprintf 1024
                   ("/sys/bus/iio/devices/" ++ dev_id dev ++ "/buffer/"
                    ++ attr)%string)
  | IIO_ATTR_TYPE_OTHER _ => None
  end.

(** [local_read_dev_attr]: the return value and, when [dst] was written,
    the C string it holds. *)
Definition local_read_dev_attr `{Externals} (dev : iio_device) (buf_id : Z)
    (attr : string) (len : Z) (type : iio_attr_type) : M (Z * option string) :=
  if buf_id >? 0 then ret (- C.ENOSYS, None)
  else
    match attr_path dev buf_id attr type with
    | None => ret (- C.EINVAL, None)
    | Some buf =>
        log (AFopen buf "re") ;;;
        f <- next_file ;;
        match f with
        | FopenFailed errno => ret (- errno, None)
        | Opened data _ ferror_errno =>
            log (AFread len) ;;;
            let size := Z.of_nat (CStr.strlen data) in
            let r := Z.min len size in
            (* the end-of-file indicator is set when fewer than [len]
               bytes were there to read; a read that ends on an error of
               the stream leaves it clear *)
            let feof := match ferror_errno with
                        | Some _ => false
                        | None => size <? len
                        end in
            let r := if feof then r else - C.EFBIG in
            let dst :=
              if r >? 0 then CStr.c_str (CStr.take data (Z.to_nat (r - 1)))
              else EmptyString in
            let r := match ferror_errno with
                     | Some errno => - errno
                     | None => r
                     end in
            log AFclose ;;;
            ret (if r =? 0 then - C.EIO else r, Some dst)
        end
    end.

Definition local_write_dev_attr `{Externals} (dev : iio_device) (buf_id : Z)
    (attr src : string) (len : Z) (type : iio_attr_type) : M Z :=
  if buf_id >? 0 then ret (- C.ENOSYS)
  else
    match attr_path dev buf_id attr type with
    | None => ret (- C.EINVAL)
    | Some buf =>
        log (AFopen buf "we") ;;;
        f <- next_file ;;
        match f with
        | FopenFailed errno => ret (- errno)
        | Opened _ nwritten ferror_errno =>
            log (AFwrite src len) ;;;
            let r := match ferror_errno with
                     | Some errno => - errno
                     | None => nwritten
                     end in
            log AFclose ;;;
            ret (if r =? 0 then - C.EIO else r)
        end
    end.

(** [channel_write_state]; [dev] is [chn->dev]. *)
Definition channel_write_state `{Externals} (dev : iio_device)
    (chn : iio_channel) (idx : Z) (en : bool) : M Z :=
  let type :=
    if negb (idx =? 0) then IIO_ATTR_TYPE_BUFFER else IIO_ATTR_TYPE_DEVICE in
  match enable_fn (pdata chn) with
  | None => ret (- C.EINVAL)
  | Some fn =>
      r <- local_write_dev_attr dev idx fn (if en then "1" else "0") 2 type ;;
      if r <? 0 then ret (C.to_int r) else ret 0
  end.

(** ** Buffer life cycle *)

Definition local_set_buffer_size `{Externals} (pdata : iio_buffer_pdata)
    (nb_samples : Z) : M Z :=
  let buf := CStr.snprintf 32 (CStr.decimal nb_samples) in
  r <- local_write_dev_attr (buf_dev pdata) (buf_idx pdata) "length" buf
         (Z.of_nat (CStr.strlen buf) + 1) IIO_ATTR_TYPE_BUFFER ;;
  if r <? 0 then ret (C.to_int r) else ret 0.

Definition local_set_watermark `{Externals} (pdata : iio_buffer_pdata)
    (nb_samples : Z) : M Z :=
  let buf := CStr.snprintf 32 (CStr.decimal nb_samples) in
  r <- local_write_dev_attr (buf_dev pdata) (buf_idx pdata) "watermark" buf
         (Z.of_nat (CStr.strlen buf) + 1) IIO_ATTR_TYPE_BUFFER ;;
  if (r <? 0) && negb (r =? - C.ENOENT) && negb (r =? - C.EACCES)
  then ret (C.to_int r) else ret 0.

Definition local_do_enable_buffer `{Externals} (pdata : iio_buffer_pdata)
    (enable : bool) : M Z :=
  r <- local_write_dev_attr (buf_dev pdata) (buf_idx pdata) "enable"
         (if enable then "1" else "0") 2 IIO_ATTR_TYPE_BUFFER ;;
  let r := C.to_int r in
  if r <? 0 then ret r else ret 0.

(** [local_enable_buffer].  The two capability flags are [bool]s, [|] and
    [!] give the [int]s 0 or 1. *)
Definition local_enable_buffer `{Externals} (pdata : iio_buffer_pdata)
    (nb_samples : Z) (enable : bool) : M Z :=
  if negb (Z.lor (Z.b2z (dmabuf_supported pdata)) (Z.b2z (mmap_supported pdata))
           =? Z.b2z (nb_samples =? 0))
  then ret (- C.EINVAL)
  else
    r <- (if negb (nb_samples =? 0) then
            r <- local_set_buffer_size pdata nb_samples ;;
            if negb (r =? 0) then ret r
            else local_set_watermark pdata nb_samples
          else ret 0) ;;
    if negb (r =? 0) then ret r
    else local_do_enable_buffer pdata true.

(** [local_free_buffer] *)
Definition local_free_buffer `{Externals} (pdata : iio_buffer_pdata) : M unit :=
  free BackendPrivate ;;;
  close (buf_fd pdata) ;;;
  close (buf_cancel_fd pdata) ;;;
  _ <- local_do_enable_buffer pdata false ;;
  free BufferPdata.

(** ** Byte-stream fallback *)

(** [do { ret = read(fd, ptr, len); } while (ret == -1 && errno == EINTR);]
    and the same loop around [write]. *)
Fixpoint xfer_nointr (fuel : nat) (call : action) : M xfer_outcome :=
  match fuel with
  | O => blocked
  | S fuel' =>
      log call ;;;
      x <- next_xfer ;;
      if (xfer_ret x =? -1) && (xfer_errno x =? C.EINTR)
      then xfer_nointr fuel' call
      else ret x
  end.

Definition read_nointr (fd len : Z) : M xfer_outcome :=
  fun w => xfer_nointr (S (List.length (xfers w))) (ARead fd len) w.


(** The [while (len > 0)] loop of [local_readbuf] ([events = POLLIN],
    [xfer = read_nointr]) and of [local_writebuf] ([events = POLLOUT],
    [xfer = write_nointr]), from a cursor [ptr] (counted from [dst] or
    [src]), a remaining length [len] and the current [ret]; it gives the
    [ret] and the cursor the loop is left with.  Every turn calls [poll],
    so [fuel] above the length of that script never runs out. *)
Fixpoint transfer_loop (fuel : nat) (events : Z)
    (xfer : Z -> Z -> M xfer_outcome) (buffer : iio_buffer_pdata) (fd : Z)
    (start : timespec) (ptr len r : Z) : M (Z * Z) :=
  match fuel with
  | O => blocked
  | S fuel' =>
      if len >? 0 then
        r <- buffer_check_ready buffer fd events (Some start) ;;
        if r <? 0 then ret (r, ptr)
        else
          x <- xfer fd len ;;
          let r := xfer_ret x in
          if r =? -1 then
            if xfer_errno x =? C.EAGAIN
            then transfer_loop fuel' events xfer buffer fd start ptr len r
            else ret (- xfer_errno x, ptr)
          else if r =? 0 then ret (- C.EIO, ptr)
          else transfer_loop fuel' events xfer buffer fd start
                 (ptr + r) (C.to_size_t (len - r)) r
      else ret (r, ptr)
  end.

Definition local_readbuf (buffer : iio_buffer_pdata) (len : Z) : M Z :=
  let fd := buf_fd buffer in
  if fd =? -1 then ret (- C.EBADF)
  else if len =? 0 then ret 0
  else
    start <- clock_gettime ;;
    fun w =>
      ('(r, ptr) <- transfer_loop (S (List.length (polls w))) C.POLLIN
                      read_nointr buffer fd start 0 len 0 ;;
       let readsize := ptr in
       if ((r >? 0) || (r =? - C.EAGAIN)) && (readsize >? 0)
       then ret readsize
       else ret r) w.


(** ** Attribute classification *)

Definition is_channel `{Externals} (dev : iio_device) (attr : string)
    (strict : bool) : bool :=
  if WITH_HWMON && iio_device_is_hwmon (dev_id dev)
  then iio_channel_is_hwmon attr
  else if CStr.strncmp_eq attr "in_timestamp_" 13 then true
  else
    (* [ptr], as an offset into [attr] *)
    let ptr :=
      if CStr.strncmp_eq attr "in_" 3 then
        option_map (Nat.add 3) (CStr.strchr (CStr.advance attr 3) "_")
      else if CStr.strncmp_eq attr "out_" 4 then
        option_map (Nat.add 4) (CStr.strchr (CStr.advance attr 4) "_")
      else None in
    match ptr with
    | None => false
    | Some p =>
        if negb strict then true
        else if CStr.is_digit (CStr.char_at attr (p - 1)) then true
        else
          match find_channel_modifier (CStr.advance attr (p + 1)) with
          | Some _ => true
          | None => false
          end
    end.

(** [iio_strdup]: [None] is the null pointer. *)
Definition iio_strdup (s : string) : M (option string) :=
  ok <- alloc ;;
  ret (if ok then Some s else None).

Definition get_channel_id `{Externals} (dev : iio_device) (attr : string)
    : M (option string) :=
  let ptr := CStr.strchr attr "_" in
  if negb WITH_HWMON || negb (iio_device_is_hwmon (dev_id dev)) then
    match ptr with
    | None => undefined
    | Some p =>
        let attr := CStr.advance attr (p + 1) in
        match CStr.strchr attr "_" with
        | None => undefined
        | Some q =>
            let q :=
              match find_channel_modifier (CStr.advance attr (q + 1)) with
              | Some len => (q + (len + 1))%nat
              | None => q
              end in
            (* [memcpy] of [ptr - attr] bytes from [attr] *)
            if (CStr.strlen attr <? q)%nat then undefined
            else
              ok <- alloc ;;
              ret (if ok then Some (CStr.take attr q) else None)
        end
    end
  else
    match ptr with
    | None => iio_strdup attr
    | Some p =>
        ok <- alloc ;;
        ret (if ok then Some (CStr.take attr p) else None)
    end.

(** [get_short_attr_name]; [dev] is [chn->dev].  After a modifier that
    ends the name, [ptr += len + 1] leaves [ptr] beyond the terminator, and
    what [strncmp] and [iio_strdup] read from there is outside defined
    behaviour. *)
Definition get_short_attr_name `{Externals} (dev : iio_device)
    (chn : iio_channel) (attr : string) : M (option string) :=
  let ptr := CStr.strchr attr "_" in
  if WITH_HWMON && iio_device_is_hwmon (dev_id dev) then
    iio_strdup (match ptr with
                | Some p => CStr.advance attr (p + 1)
                | None => attr
                end)
  else
    match ptr with
    | None => undefined
    | Some p =>
        let rest := CStr.advance attr (p + 1) in
        match CStr.strchr rest "_" with
        | None => undefined
        | Some q =>
            let ptr := CStr.advance rest (q + 1) in
            (* [ptr += len + 1] *)
            match (match find_channel_modifier ptr with
                   | Some len =>
                       if (CStr.strlen ptr <? len + 1)%nat then None
                       else Some (CStr.advance ptr (len + 1))
                   | None => Some ptr
                   end) with
            | None => undefined
            | Some ptr =>
                let ptr :=
                  match chn_name chn with
                  | Some name =>
                      let len := CStr.strlen name in
                      if CStr.strncmp_eq name ptr len
                         && Ascii.eqb (CStr.char_at ptr len) "_"
                      then CStr.advance ptr (len + 1)
                      else ptr
                  | None => ptr
                  end in
                iio_strdup ptr
            end
        end
    end.

Definition set_attrs (chn : iio_channel) (l : list iio_channel_attr)
    : iio_channel :=
  {| chn_id := chn_id chn; chn_name := chn_name chn;
     is_output := is_output chn; is_scan_element := is_scan_element chn;
     index := index chn; format := format chn; attrs := l;
     pdata := pdata chn |}.

Definition set_pdata (chn : iio_channel) (pd : iio_channel_pdata)
    : iio_channel :=
  {| chn_id := chn_id chn; chn_name := chn_name chn;
     is_output := is_output chn; is_scan_element := is_scan_element chn;
     index := index chn; format := format chn; attrs := attrs chn;
     pdata := pd |}.

Definition set_is_scan_element (chn : iio_channel) (b : bool) : iio_channel :=
  {| chn_id := chn_id chn; chn_name := chn_name chn;
     is_output := is_output chn; is_scan_element := b;
     index := index chn; format := format chn; attrs := attrs chn;
     pdata := pdata chn |}.

Definition set_index (chn : iio_channel) (i : Z) : iio_channel :=
  {| chn_id := chn_id chn; chn_name := chn_name chn;
     is_output := is_output chn; is_scan_element := is_scan_element chn;
     index := i; format := format chn; attrs := attrs chn;
     pdata := pdata chn |}.

Definition set_format (chn : iio_channel) (f : iio_data_format) : iio_channel :=
  {| chn_id := chn_id chn; chn_name := chn_name chn;
     is_output := is_output chn; is_scan_element := is_scan_element chn;
     index := index chn; format := f; attrs := attrs chn;
     pdata := pdata chn |}.

Definition set_channels (dev : iio_device) (l : list iio_channel)
    : iio_device :=
  {| dev_id := dev_id dev; dev_name := dev_name dev;
     dev_label := dev_label dev; dev_attrs := dev_attrs dev;
     channels := l; timeout_ms := timeout_ms dev |}.

Definition set_dev_attrs (dev : iio_device) (l : list string) : iio_device :=
  {| dev_id := dev_id dev; dev_name := dev_name dev;
     dev_label := dev_label dev; dev_attrs := l;
     channels := channels dev; timeout_ms := timeout_ms dev |}.

Definition add_protected_attr (chn : iio_channel) (name fn : string)
    : M (Z * iio_channel) :=
  ok <- alloc ;;
  if negb ok then ret (- C.ENOMEM, chn)
  else
    let pd := pdata chn in
    ret (0, set_pdata chn
              {| enable_fn := enable_fn pd;
                 protected_attrs :=
                   protected_attrs pd
                   ++ [{| attr_name := name; attr_filename := fn |}] |}).

(** [add_attr_to_channel]; [dev] is [chn->dev]. *)
Definition add_attr_to_channel `{Externals} (dev : iio_device)
    (chn : iio_channel) (attr path : string) (is_scan_element : bool)
    : M (Z * iio_channel) :=
  name <- get_short_attr_name dev chn attr ;;
  match name with
  | None => ret (- C.ENOMEM, chn)
  | Some name =>
      fn <- iio_strdup path ;;
      match fn with
      | None => ret (- C.ENOMEM, chn)
      | Some fn =>
          if is_scan_element then
            '(r, chn') <- add_protected_attr chn name fn ;;
            if r <? 0 then ret (- C.ENOMEM, chn) else ret (0, chn')
          else
            ok <- alloc ;;
            if negb ok then ret (- C.ENOMEM, chn)
            else
              ret (0, set_attrs chn
                        (attrs chn
                         ++ [{| attr_name := name; attr_filename := fn |}]))
      end
  end.

Definition add_channel_to_device (dev : iio_device) (chn : iio_channel)
    : M (Z * iio_device) :=
  ok <- alloc ;;
  if negb ok then ret (- C.ENOMEM, dev)
  else ret (0, set_channels dev (channels dev ++ [chn])).

(** What [zalloc] leaves in the format of a new channel. *)
Definition zero_format : iio_data_format :=
  {| format_length := 0; format_bits := 0; format_shift := 0;
     is_signed := false; is_fully_defined := false; is_be := false;
     with_scale := false; format_repeat := 0 |}.

(** [create_channel]: an error code ([iio_ptr(err)]) or the channel. *)
Definition create_channel `{Externals} (dev : iio_device) (id attr path : string)
    (is_scan_element : bool) : M (Z + iio_channel) :=
  ok <- alloc ;;
  if negb ok then ret (inl (- C.ENOMEM))
  else
    ok <- alloc ;;
    if negb ok then ret (inl (- C.ENOMEM))
    else
      let direction :=
        if negb WITH_HWMON || negb (iio_device_is_hwmon (dev_id dev)) then
          if CStr.strncmp_eq attr "out_" 4 then inr true
          else if negb (CStr.strncmp_eq attr "in_" 3) then inl (- C.EINVAL)
          else inr false
        else inr false in
      match direction with
      | inl err => ret (inl err)
      | inr output =>
          let chn :=
            {| chn_id := id; chn_name := None; is_output := output;
               is_scan_element := is_scan_element; index := - C.ENOENT;
               format := zero_format; attrs := [];
               pdata := {| enable_fn := None; protected_attrs := [] |} |} in
          '(err, chn) <- add_attr_to_channel dev chn attr path is_scan_element ;;
          if negb (err =? 0) then ret (inl err) else ret (inr chn)
      end.

(** The search loop of [add_channel]: the first channel of the device with
    this id and direction takes the attribute; [None] when there is none. *)
Fixpoint add_to_known_channel `{Externals} (dev : iio_device)
    (l : list iio_channel) (channel_id name path : string)
    (dir_is_scan_elements : bool) : option (M (Z * list iio_channel)) :=
  match l with
  | [] => None
  | chn :: l' =>
      if CStr.strcmp_eq (chn_id chn) channel_id
         && Bool.eqb (is_output chn) (Ascii.eqb (CStr.char_at name 0) "o")
      then
        Some ('(r, chn) <- add_attr_to_channel dev chn name path
                             dir_is_scan_elements ;;
              let chn :=
                set_is_scan_element chn
                  (is_scan_element chn
                   || (dir_is_scan_elements && (r =? 0))) in
              ret (r, chn :: l'))
      else
        match add_to_known_channel dev l' channel_id name path
                dir_is_scan_elements with
        | Some c => Some ('(r, l'') <- c ;; ret (r, chn :: l''))
        | None => None
        end
  end.

Definition add_channel `{Externals} (dev : iio_device) (name path : string)
    (dir_is_scan_elements : bool) : M (Z * iio_device) :=
  channel_id <- get_channel_id dev name ;;
  match channel_id with
  | None => ret (- C.ENOMEM, dev)
  | Some channel_id =>
      match add_to_known_channel dev (channels dev) channel_id name path
              dir_is_scan_elements with
      | Some c => '(r, l) <- c ;; ret (r, set_channels dev l)
      | None =>
          chn <- create_channel dev channel_id name path dir_is_scan_elements ;;
          match chn with
          | inl err => ret (err, dev)
          | inr chn =>
              add_channel_to_device dev (iio_channel_init_finalize chn)
          end
      end
  end.

(** [is_global_attr]:
    0 = the attribute should not be moved to the channel,
    1 = it should be moved and is a shared attribute,
    2 = it should be moved and is a private attribute. *)
Definition is_global_attr `{Externals} (chn : iio_channel) (attr : string) : Z :=
  let stripped :=
    if negb (is_output chn) && CStr.strncmp_eq attr "in_" 3
    then Some (CStr.advance attr 3)
    else if is_output chn && CStr.strncmp_eq attr "out_" 4
    then Some (CStr.advance attr 4)
    else None in
  match stripped with
  | None => 0
  | Some attr =>
      match CStr.strchr attr "_" with
      | None => 0
      | Some ptr =>
          let len := ptr in
          let id := chn_id chn in
          (* a matching global differential attribute, like
             "voltage-voltage" *)
          let differential :=
            match CStr.strchr attr "-" with
            | Some dashptr =>
                if (0 <? dashptr)%nat && (dashptr <? ptr)%nat then
                  let len1 := dashptr in
                  let len2 := (ptr - dashptr - 1)%nat in
                  match CStr.strchr id "-" with
                  | Some iddashptr =>
                      (len2 <? CStr.strlen (CStr.advance id (iddashptr + 1)))%nat
                      && (len1 <? iddashptr)%nat
                      && CStr.is_digit (CStr.char_at id len1)
                      && CStr.strncmp_eq id attr len1
                      && CStr.is_digit
                           (CStr.char_at (CStr.advance id iddashptr) (len2 + 1))
                      && CStr.strncmp_eq (CStr.advance id (iddashptr + 1))
                           (CStr.advance attr (dashptr + 1)) len2
                  | None => false
                  end
                else false
            | None => false
            end in
          if differential then 1
          else if negb (CStr.strncmp_eq id attr len) then 0
          else if CStr.is_digit (CStr.char_at id len) then
            match chn_name chn with
            | Some name =>
                let name_len := CStr.strlen name in
                if CStr.strncmp_eq name (CStr.advance attr (len + 1)) name_len
                   && Ascii.eqb (CStr.char_at attr (len + 1 + name_len)) "_"
                then 2 else 1
            | None => 1
            end
          else if negb (Ascii.eqb (CStr.char_at id len) "_") then 0
          else
            match find_channel_modifier (CStr.advance id (len + 1)) with
            | Some _ => 1
            | None => 0
            end
      end
  end.

(** The loop of [detect_global_attr] over the channels of the device, from
    the current value of [*match]; it gives the return value, [*match] and
    the channels as the loop leaves them. *)
Fixpoint detect_global_attr_in `{Externals} (dev : iio_device)
    (l : list iio_channel) (attr : string) (level : Z) (matched : bool)
    : M (Z * bool * list iio_channel) :=
  match l with
  | [] => ret (0, matched, [])
  | chn :: l' =>
      if is_global_attr chn attr =? level then
        '(r, chn) <- add_attr_to_channel dev chn attr attr false ;;
        if negb (r =? 0) then ret (r, true, chn :: l')
        else
          '(r, m, l'') <- detect_global_attr_in dev l' attr level true ;;
          ret (r, m, chn :: l'')
      else
        '(r, m, l'') <- detect_global_attr_in dev l' attr level matched ;;
        ret (r, m, chn :: l'')
  end.

Definition detect_global_attr `{Externals} (dev : iio_device) (attr : string)
    (level : Z) : M (Z * bool * iio_device) :=
  '(r, m, l) <- detect_global_attr_in dev (channels dev) attr level false ;;
  ret (r, m, set_channels dev l).

(** The first loop of [detect_and_move_global_attrs] over [dev->attrs.names]:
    an attribute some channel took is freed and its entry set to [NULL]
    ([None]). *)
Fixpoint move_global_attrs `{Externals} (dev : iio_device)
    (names : list string) : M (Z * iio_device * list (option string)) :=
  match names with
  | [] => ret (0, dev, [])
  | attr :: names' =>
      '(r, matched, dev) <- detect_global_attr dev attr 2 ;;
      if negb (r =? 0) then ret (r, dev, map Some names)
      else
        '(r, matched, dev) <-
          (if negb matched then detect_global_attr dev attr 1
           else ret (0, matched, dev)) ;;
        if negb (r =? 0) then ret (r, dev, map Some names)
        else
          '(r, dev, rest) <- move_global_attrs dev names' ;;
          ret (r, dev, (if matched then None else Some attr) :: rest)
  end.

(** The second loop: the channels without an index. *)
Fixpoint move_bare_channels `{Externals} (dev : iio_device)
    (names : list (option string)) : M (Z * iio_device * list (option string)) :=
  match names with
  | [] => ret (0, dev, [])
  | None :: names' =>
      '(r, dev, rest) <- move_bare_channels dev names' ;;
      ret (r, dev, None :: rest)
  | Some attr :: names' =>
      if is_channel dev attr false then
        '(r, dev) <- add_channel dev attr attr false ;;
        if negb (r =? 0) then ret (r, dev, names)
        else
          '(r, dev, rest) <- move_bare_channels dev names' ;;
          ret (r, dev, None :: rest)
      else
        '(r, dev, rest) <- move_bare_channels dev names' ;;
        ret (r, dev, Some attr :: rest)
  end.

(** The third loop: the entries that are left move to the front. *)
Fixpoint compact (names : list (option string)) : list string :=
  match names with
  | [] => []
  | Some attr :: names' => attr :: compact names'
  | None :: names' => compact names'
  end.

(** [detect_and_move_global_attrs].  When it fails the array of names is
    left with its null entries and the caller discards the device; the
    device given back then holds the names that are not null. *)
Definition detect_and_move_global_attrs `{Externals} (dev : iio_device)
    : M (Z * iio_device) :=
  '(r, dev, names) <- move_global_attrs dev (dev_attrs dev) ;;
  if negb (r =? 0) then ret (r, set_dev_attrs dev (compact names))
  else
    '(r, dev, names) <- move_bare_channels dev names ;;
    if negb (r =? 0) then ret (r, set_dev_attrs dev (compact names))
    else ret (0, set_dev_attrs dev (compact names)).

(** ** Common-prefix name folding *)

Definition cut_name (nb : nat) (a : iio_channel_attr) : iio_channel_attr :=
  {| attr_name := CStr.strcut (attr_name a) nb;
     attr_filename := attr_filename a |}.

(** The two [for] loops that compute [can_fix] for a prefix of [len]
    characters: the attributes from the second on, and the protected ones
    from the first on, or from the second when [attr0] is the first of
    them. *)
Definition can_fix (chn : iio_channel) (attr0 : string) (len : nat) : bool :=
  forallb (fun a => CStr.strncmp_eq attr0 (attr_name a) len)
          (skipn 1 (attrs chn))
  && forallb (fun a => CStr.strncmp_eq attr0 (attr_name a) len)
             (skipn (if (List.length (attrs chn) =? 0)%nat then 1 else 0)
                    (protected_attrs (pdata chn))).

(** The [while (true)] loop of [set_channel_name] from [ptr] (an offset into
    [attr0]) and the current [prefix_len]; every turn moves [ptr] past an
    underscore of [attr0], so [fuel] above the length of [attr0] never runs
    out. *)
Fixpoint prefix_loop (fuel : nat) (chn : iio_channel) (attr0 : string)
    (ptr prefix_len : nat) : nat :=
  match fuel with
  | O => prefix_len
  | S fuel' =>
      match CStr.strchr (CStr.advance attr0 ptr) "_" with
      | None => prefix_len
      | Some i =>
          let ptr := (ptr + i)%nat in
          let len := (ptr + 1)%nat in
          if can_fix chn attr0 len
          then prefix_loop fuel' chn attr0 (ptr + 1) len
          else prefix_len
      end
  end.

Definition set_channel_name (chn : iio_channel) : M (Z * iio_channel) :=
  let pd := pdata chn in
  if (List.length (attrs chn) + List.length (protected_attrs pd) <? 2)%nat
  then ret (0, chn)
  else
    let attr0 :=
      match attrs chn with
      | a :: _ => attr_name a
      | [] => match protected_attrs pd with
              | a :: _ => attr_name a
              | [] => EmptyString
              end
      end in
    let prefix_len := prefix_loop (S (CStr.strlen attr0)) chn attr0 0 0 in
    if negb (prefix_len =? 0)%nat then
      ok <- alloc ;;
      if negb ok then ret (- C.ENOMEM, chn)
      else
        let name := CStr.iio_strlcpy attr0 prefix_len in
        (* shrink the attribute names *)
        ret (0,
             {| chn_id := chn_id chn; chn_name := Some name;
                is_output := is_output chn;
                is_scan_element := is_scan_element chn;
                index := index chn; format := format chn;
                attrs := map (cut_name prefix_len) (attrs chn);
                pdata :=
                  {| enable_fn := enable_fn pd;
                     protected_attrs :=
                       map (cut_name prefix_len) (protected_attrs pd) |} |})
    else ret (0, chn).

(** ** Scan-element metadata *)

Definition set_format_fields (f : iio_data_format)
    (bits length repeat shift : Z) (sign endian : ascii) : iio_data_format :=
  {| format_length := length; format_bits := bits; format_shift := shift;
     is_signed := Ascii.eqb sign "s" || Ascii.eqb sign "S";
     is_fully_defined :=
       Ascii.eqb sign "S" || Ascii.eqb sign "U" || (bits =? length);
     is_be := Ascii.eqb endian "b";
     with_scale := with_scale f; format_repeat := repeat |}.

(** [handle_protected_scan_element_attr]; [dev] is [chn->dev], and
    [endian0] and [sign0] are what the locals [endian] and [sign] hold
    before [sscanf] stores into them (they are not initialised). *)
Definition handle_protected_scan_element_attr `{Externals} (dev : iio_device)
    (chn : iio_channel) (name path : string) (endian0 sign0 : ascii)
    : M (Z * iio_channel) :=
  if CStr.strcmp_eq name "index" then
    '(r, buf) <- local_read_dev_attr dev 0 path 1024 IIO_ATTR_TYPE_DEVICE ;;
    match buf with
    | Some buf =>
        if C.to_int r >? 0 then
          let '(value, consumed, erange) := strtoll buf 0 in
          if (consumed =? 0)%nat || (value <? 0) || erange
          then ret (- C.EINVAL, chn)
          else ret (0, set_index chn value)
        else ret (0, chn)
    | None => ret (0, chn)
    end
  else if CStr.strcmp_eq name "type" then
    '(r, buf) <- local_read_dev_attr dev 0 path 1024 IIO_ATTR_TYPE_DEVICE ;;
    match buf with
    | Some buf =>
        if C.to_int r >? 0 then
          let f := format chn in
          match CStr.strchr buf "X" with
          | Some _ =>
              let vs :=
                Scanf.sscanf buf (Scanf.parse_format "%ce:%c%u/%uX%u>>%u") in
              let endian := Scanf.char_arg vs 0 endian0 in
              let sign := Scanf.char_arg vs 1 sign0 in
              let bits := Scanf.uint_arg vs 2 (format_bits f) in
              let length := Scanf.uint_arg vs 3 (format_length f) in
              let repeat := Scanf.uint_arg vs 4 (format_repeat f) in
              let shift := Scanf.uint_arg vs 5 (format_shift f) in
              ret (0, set_format chn
                        (set_format_fields f bits length repeat shift
                           sign endian))
          | None =>
              let repeat := 1 in
              let vs :=
                Scanf.sscanf buf (Scanf.parse_format "%ce:%c%u/%u>>%u") in
              let endian := Scanf.char_arg vs 0 endian0 in
              let sign := Scanf.char_arg vs 1 sign0 in
              let bits := Scanf.uint_arg vs 2 (format_bits f) in
              let length := Scanf.uint_arg vs 3 (format_length f) in
              let shift := Scanf.uint_arg vs 4 (format_shift f) in
              ret (0, set_format chn
                        (set_format_fields f bits length repeat shift
                           sign endian))
          end
        else ret (0, chn)
    | None => ret (0, chn)
    end
  else if CStr.strcmp_eq name "en" then
    match enable_fn (pdata chn) with
    | Some _ => ret (- C.EINVAL, chn)
    | None =>
        fn <- iio_strdup path ;;
        match fn with
        | None => ret (- C.ENOMEM, chn)
        | Some fn =>
            ret (0, set_pdata chn
                      {| enable_fn := Some fn;
                         protected_attrs := protected_attrs (pdata chn) |})
        end
    end
  else ret (- C.EINVAL, chn).

(** ** Vocabulary of the statements *)

(** The value a computation ends with, and the world it leaves. *)
Definition value_of {A} (o : outcome A) : option A :=
  match o with
  | Done a _ => Some a
  | _ => None
  end.

Definition world_of {A} (o : outcome A) : option World :=
  match o with
  | Done _ w => Some w
  | _ => None
  end.

(** A world in which nothing is scripted: the clock reads [c], no outcome
    is left and [budget] allocations succeed. *)
Definition quiet_world (c : nat -> timespec) (budget : nat) : World :=
  {| clock := c; ticks := 0; polls := []; xfers := []; files := [];
     heap_budget := budget; trace := [] |}.

(** The elapsed milliseconds as [get_rel_timeout_ms] computes them. *)
Definition elapsed_ms (start now : timespec) : Z :=
  (tv_sec now - tv_sec start) * 1000
  + Z.quot (tv_nsec now - tv_nsec start) 1000000.

(** An instant in nanoseconds. *)
Definition nanos (t : timespec) : Z := tv_sec t * 1000000000 + tv_nsec t.

Definition valid_timespec (t : timespec) : Prop :=
  0 <= tv_nsec t < 1000000000.

(** [now] is not before [start], and less than about 24 days after it, so
    that the [int] which holds the difference does not wrap. *)
Definition within_reach (start now : timespec) : Prop :=
  valid_timespec start /\ valid_timespec now /\
  nanos start <= nanos now /\ tv_sec now - tv_sec start <= 2147482.

(** The next reading of the clock of a world. *)
Definition reading (w : World) : timespec := clock w (ticks w).

(** The monotonicity the specification words for the remaining timeout:
    evaluated at [w1] and again, [K] milliseconds later or more, at [w2],
    the second result is smaller by [K] at least, and no result is
    negative. *)
Definition remaining_timeout_drops (start : timespec) (timeout_rel K : Z)
    (w1 w2 : World) : Prop :=
  within_reach start (reading w1) ->
  within_reach start (reading w2) ->
  nanos (reading w1) + K * 1000000 <= nanos (reading w2) ->
  exists r1 r2,
    value_of (get_rel_timeout_ms start timeout_rel w1) = Some r1 /\
    value_of (get_rel_timeout_ms start timeout_rel w2) = Some r2 /\
    r2 <= r1 - K /\ 0 <= r1 /\ 0 <= r2.

(** A world whose clock stands at [t]. *)
Definition world_at (sec nsec : Z) : World :=
  quiet_world (fun _ => {| tv_sec := sec; tv_nsec := nsec |}) 0.

(** A call of [poll] that a signal interrupted, which the wait repeats. *)
Definition interrupted (p : poll_outcome) : bool :=
  (poll_ret p =? -1) && (poll_errno p =? C.EINTR).

(** The cancellation descriptor is readable. *)
Definition cancellation_signalled (p : poll_outcome) : Prop :=
  Z.land (revents_cancel p) C.POLLIN <> 0.

(** The wait expired: [poll] returned 0, and then no descriptor has an
    event. *)
Definition wait_expired (p : poll_outcome) : Prop :=
  poll_ret p = 0 /\ revents_fd p = 0 /\ revents_cancel p = 0.

(** A world whose script holds outcomes of [poll] only. *)
Definition polling_world (ps : list poll_outcome) : World :=
  {| clock := fun _ => {| tv_sec := 0; tv_nsec := 0 |}; ticks := 0;
     polls := ps; xfers := []; files := []; heap_budget := 0; trace := [] |}.

(** A device with an id and a timeout, and nothing else. *)
Definition bare_device (id : string) (timeout : Z) : iio_device :=
  {| dev_id := id; dev_name := None; dev_label := None; dev_attrs := [];
     channels := []; timeout_ms := timeout |}.

(** A build without hwmon support and with an empty table of modifiers,
    for the examples. *)
Definition plain_build : Externals :=
  {| WITH_HWMON := false;
     iio_device_is_hwmon := fun _ => false;
     iio_channel_is_hwmon := fun _ => false;
     find_channel_modifier := fun _ => None;
     iio_channel_init_finalize := fun chn => chn;
     strtoll := fun _ _ => (0, O, false) |}.

(** A world whose script holds outcomes of attribute files only. *)
Definition sysfs_world (fs : list stdio_outcome) : World :=
  {| clock := fun _ => {| tv_sec := 0; tv_nsec := 0 |}; ticks := 0;
     polls := []; xfers := []; files := fs; heap_budget := 0; trace := [] |}.

(** A buffer on [iio:device0] with descriptors 3 and 4. *)
Definition sample_buffer (idx : Z) (dmabuf mmap : bool) : iio_buffer_pdata :=
  {| buf_dev := bare_device "iio:device0" 1000; buf_fd := 3;
     buf_cancel_fd := 4; buf_idx := idx;
     dmabuf_supported := dmabuf; mmap_supported := mmap;
     multi_buffer := false |}.

(** A channel with an id and nothing else; [fn] is its enable file. *)
Definition bare_channel (id : string) (output : bool) (fn : option string)
    : iio_channel :=
  {| chn_id := id; chn_name := None; is_output := output;
     is_scan_element := false; index := - C.ENOENT; format := zero_format;
     attrs := []; pdata := {| enable_fn := fn; protected_attrs := [] |} |}.

(** The buffer has one of the two block capabilities. *)
Definition sized_backend (pdata : iio_buffer_pdata) : bool :=
  dmabuf_supported pdata || mmap_supported pdata.

(** The specification on the guard of [local_enable_buffer]: the call
    fails with [-EINVAL] exactly when
    [(dmabuf_supported | mmap_supported) == (nb_samples != 0)] does not
    hold. *)
Definition enable_fails_unless_sized_iff_samples : Prop :=
  forall (X : Externals) (pdata : iio_buffer_pdata) (nb_samples : Z)
         (enable : bool) (w : World) (r : Z),
    0 <= nb_samples ->
    value_of (local_enable_buffer pdata nb_samples enable w) = Some r ->
    (r = - C.EINVAL <-> sized_backend pdata <> negb (nb_samples =? 0)).

(** An attribute write goes through: the file opens, [fwrite] returns a
    count above 0 (that an [int] holds) and no error is flagged. *)
Definition write_goes_through (f : stdio_outcome) : bool :=
  match f with
  | Opened _ nwritten None => (0 <? nwritten) && (nwritten <? 2 ^ 31)
  | _ => false
  end.

(** The place of the first action of a kind in a trace. *)
Fixpoint position (kind : action -> bool) (l : list action) : option nat :=
  match l with
  | [] => None
  | a :: l' =>
      if kind a then Some O
      else match position kind l' with
           | Some i => Some (S i)
           | None => None
           end
  end.

Definition is_close (a : action) : bool :=
  match a with AClose _ => true | _ => false end.

Definition is_fopen (a : action) : bool :=
  match a with AFopen _ _ => true | _ => false end.

(** The specification on teardown: the enable attribute is opened for the
    write of 0 before a descriptor is closed. *)
Definition disabled_before_closed (l : list action) : Prop :=
  match position is_fopen l, position is_close l with
  | Some i, Some j => (i < j)%nat
  | _, _ => False
  end.

(** The file [buffer/enable] of a device. *)
Definition enable_path (dev : iio_device) : string :=
  CStr.snprintf 1024
    ("/sys/bus/iio/devices/" ++ dev_id dev ++ "/buffer/" ++ "enable")%string.

(** The result of the readiness wait, from the call of [poll] that ended
    it. *)
Definition wait_result (events : Z) (start : option timespec)
    (p : poll_outcome) : Z :=
  if negb (Z.land (revents_cancel p) C.POLLIN =? 0) then - C.EBADF
  else if poll_ret p <? 0 then - poll_errno p
  else if poll_ret p =? 0 then
    match start with Some _ => - C.ETIMEDOUT | None => - C.EBUSY end
  else if negb (Z.land (revents_fd p) C.POLLNVAL =? 0) then - C.EBADF
  else if Z.land (revents_fd p) events =? 0 then - C.EIO
  else 0.

(** A call of [poll] that reports the data descriptor ready for [events],
    and a call of [read] or [write] that moves [n] bytes. *)
Definition ready_outcome (events : Z) : poll_outcome :=
  {| poll_ret := 1; poll_errno := 0; revents_fd := events;
     revents_cancel := 0 |}.

Definition moved (n : Z) : xfer_outcome := {| xfer_ret := n; xfer_errno := 0 |}.






(** A world whose script holds outcomes of [poll] and of [read]/[write]. *)
Definition streaming_world (ps : list poll_outcome) (xs : list xfer_outcome)
    : World :=
  {| clock := fun _ => {| tv_sec := 0; tv_nsec := 0 |}; ticks := 0;
     polls := ps; xfers := xs; files := []; heap_budget := 0; trace := [] |}.


(** The two directions of the byte-stream fallback. *)
Inductive direction := Capture | Playback.



(** A wait that expired, and one that failed because the kernel was short
    of resources. *)
Definition expired_outcome : poll_outcome :=
  {| poll_ret := 0; poll_errno := 0; revents_fd := 0; revents_cancel := 0 |}.

Definition again_outcome : poll_outcome :=
  {| poll_ret := -1; poll_errno := C.EAGAIN; revents_fd := 0;
     revents_cancel := 0 |}.

(** The letters of the grammar for the sign, and the upper-case ones. *)
Definition sign_letters : list ascii := ["s"; "S"; "u"; "U"]%char.

Definition is_upper (c : ascii) : bool :=
  let n := nat_of_ascii c in ((65 <=? n) && (n <=? 90))%nat.

(** What [local_read_dev_attr] leaves in [buf] of a file that holds [data]:
    the last byte is cut off. *)
Definition attribute_text (data : string) : string :=
  CStr.c_str (CStr.take data (CStr.strlen data - 1)).

(** The line feed that ends the text of an attribute file. *)
Definition line (text : string) : string := (text ++ String "010" "")%string.

(** A device with channels and device-level attributes. *)
Definition device_with (id : string) (chns : list iio_channel)
    (names : list string) : iio_device :=
  {| dev_id := id; dev_name := None; dev_label := None; dev_attrs := names;
     channels := chns; timeout_ms := 1000 |}.

(** The attribute file [attr] is in the attribute list of the channel [id]
    of the device. *)
Definition channel_has_attr (dev : iio_device) (id attr : string) : Prop :=
  exists chn a,
    In chn (channels dev) /\ chn_id chn = id /\
    In a (attrs chn) /\ attr_filename a = attr.

(** The device-level attribute [attr] was moved to the channels [ids]: each
    of them has it, and the device-level list has it no more. *)
Definition moved_to_channels (dev : iio_device) (attr : string)
    (ids : list string) : Prop :=
  ~ In attr (dev_attrs dev) /\
  forall id, In id ids -> channel_has_attr dev id attr.

(** The device of the example: the input channels voltage0 and voltage1
    and the device-level attribute [attr]. *)
Definition two_voltages (attr : string) : iio_device :=
  device_with "iio:device0"
    [bare_channel "voltage0" false None; bare_channel "voltage1" false None]
    [attr].

(** A device with one differential input channel. *)
Definition differential_pair (attr : string) : iio_device :=
  device_with "iio:device0"
    [bare_channel "voltage0-voltage1" false None] [attr].

(** The names of all the attributes of a channel, the protected ones
    included. *)
Definition all_names (chn : iio_channel) : list string :=
  map attr_name (attrs chn) ++ map attr_name (protected_attrs (pdata chn)).

Definition ends_with_underscore (p : string) : Prop :=
  exists q, p = (q ++ "_")%string.

Definition is_prefix (p n : string) : Prop := exists r, n = (p ++ r)%string.

Definition common_prefix (p : string) (names : list string) : Prop :=
  forall n, In n names -> is_prefix p n.

(** [p] is the longest prefix ending in an underscore that all the names
    have; the empty string when they have none. *)
Definition longest_common_underscore_prefix (p : string)
    (names : list string) : Prop :=
  (p = EmptyString \/ ends_with_underscore p)
  /\ common_prefix p names
  /\ forall q,
       ends_with_underscore q -> common_prefix q names ->
       (String.length q <= String.length p)%nat.

(** The attribute with [p] before its name. *)
Definition with_prefix (p : string) (a : iio_channel_attr) : iio_channel_attr :=
  {| attr_name := (p ++ attr_name a)%string;
     attr_filename := attr_filename a |}.

(** A channel with the given attributes. *)
Definition channel_with (id : string) (l : list iio_channel_attr)
    : iio_channel :=
  set_attrs (bare_channel id false None) l.

(** The name [set_channel_name] starts from: the first attribute, or the
    first protected one when the channel has no other. *)
Definition first_name (chn : iio_channel) : string :=
  match attrs chn with
  | a :: _ => attr_name a
  | [] => match protected_attrs (pdata chn) with
          | a :: _ => attr_name a
          | [] => EmptyString
          end
  end.

(** [k] is the length of a prefix of [attr0] that ends in an underscore and
    that the loop of [set_channel_name] accepts. *)
Definition accepted_length (chn : iio_channel) (attr0 : string) (k : nat)
    : Prop :=
  (1 <= k <= CStr.strlen attr0)%nat
  /\ CStr.char_at attr0 (k - 1) = "_"%char
  /\ can_fix chn attr0 k = true.

(** * Further functions of [local.c] *)

(** ** Channel attributes, channel state, triggers *)

(** The loop of [get_filename] over the attributes of the channel. *)
Fixpoint get_filename_in (l : list iio_channel_attr) (attr : string) : string :=
  match l with
  | [] => attr
  | a :: l' =>
      if CStr.strcmp_eq attr (attr_name a) then attr_filename a
      else get_filename_in l' attr
  end.

Definition get_filename (chn : iio_channel) (attr : string) : string :=
  get_filename_in (attrs chn) attr.

(** [local_read_chn_attr] and [local_write_chn_attr]; [dev] is
    [chn->dev]. *)
Definition local_read_chn_attr `{Externals} (dev : iio_device)
    (chn : iio_channel) (attr : string) (len : Z) : M (Z * option string) :=
  let attr := get_filename chn attr in
  local_read_dev_attr dev 0 attr len IIO_ATTR_TYPE_DEVICE.

Definition local_write_chn_attr `{Externals} (dev : iio_device)
    (chn : iio_channel) (attr src : string) (len : Z) : M Z :=
  let attr := get_filename chn attr in
  local_write_dev_attr dev 0 attr src len IIO_ATTR_TYPE_DEVICE.

(** [channel_read_state]; [dev] is [chn->dev].  The name of the enable
    file is used only once the index has passed the test of
    [local_read_dev_attr]; a null name there is outside defined behaviour,
    and so is the test of [buf[0]] when nothing was stored in [buf]. *)
Definition channel_read_state `{Externals} (dev : iio_device)
    (chn : iio_channel) (idx : Z) : M Z :=
  let type :=
    if negb (idx =? 0) then IIO_ATTR_TYPE_BUFFER else IIO_ATTR_TYPE_DEVICE in
  '(r, buf) <-
    match enable_fn (pdata chn) with
    | Some fn => local_read_dev_attr dev idx fn 8 type
    | None => if idx >? 0 then ret (- C.ENOSYS, None) else undefined
    end ;;
  let err := C.to_int r in
  if err <? 0 then ret err
  else
    match buf with
    | Some buf => ret (Z.b2z (Ascii.eqb (CStr.char_at buf 0) "1"))
    | None => undefined
    end.

(** The loop of [local_get_trigger] over the devices of the context: the
    first device that has a name, and this one. *)
Fixpoint find_device_named (devices : list iio_device) (name : string)
    : option iio_device :=
  match devices with
  | [] => None
  | cur :: rest =>
      match dev_name cur with
      | Some n =>
          if CStr.strcmp_eq n name then Some cur
          else find_device_named rest name
      | None => find_device_named rest name
      end
  end.

(** [local_get_trigger]; [devices] are the devices of [dev->ctx], in the
    order [iio_context_get_device] numbers them, and [trigger0] is what
    [*trigger] holds on entry.  It gives the return value and what
    [*trigger] holds on return ([None] is [NULL]). *)
Definition local_get_trigger `{Externals} (devices : list iio_device)
    (dev : iio_device) (trigger0 : option iio_device)
    : M (Z * option iio_device) :=
  '(nb, buf) <- local_read_dev_attr dev 0 "trigger/current_trigger" 1024
                  IIO_ATTR_TYPE_DEVICE ;;
  if nb <? 0 then ret (C.to_int nb, None)
  else
    match buf with
    | None => undefined
    | Some buf =>
        if Ascii.eqb (CStr.char_at buf 0) CStr.NUL then ret (0, None)
        else
          match find_device_named devices buf with
          | Some cur => ret (0, Some cur)
          | None => ret (- C.ENXIO, trigger0)
          end
    end.

(** [local_set_trigger]; a trigger without a name is outside defined
    behaviour ([strlen] of a null pointer). *)
Definition local_set_trigger `{Externals} (dev : iio_device)
    (trigger : option iio_device) : M Z :=
  match (match trigger with
         | Some t => dev_name t
         | None => Some EmptyString
         end) with
  | None => undefined
  | Some value =>
      nb <- local_write_dev_attr dev 0 "trigger/current_trigger" value
              (Z.of_nat (CStr.strlen value) + 1) IIO_ATTR_TYPE_DEVICE ;;
      if nb <? 0 then ret (C.to_int nb) else ret 0
  end.

(** ** Device attributes *)

Definition set_dev_name (dev : iio_device) (n : option string) : iio_device :=
  {| dev_id := dev_id dev; dev_name := n;
     dev_label := dev_label dev; dev_attrs := dev_attrs dev;
     channels := channels dev; timeout_ms := timeout_ms dev |}.

Definition set_dev_label (dev : iio_device) (l : option string) : iio_device :=
  {| dev_id := dev_id dev; dev_name := dev_name dev;
     dev_label := l; dev_attrs := dev_attrs dev;
     channels := channels dev; timeout_ms := timeout_ms dev |}.

Definition read_device_name `{Externals} (dev : iio_device)
    : M (Z * iio_device) :=
  '(r, buf) <- local_read_dev_attr dev 0 "name" 1024 IIO_ATTR_TYPE_DEVICE ;;
  if r <? 0 then ret (C.to_int r, dev)
  else if r =? 0 then ret (- C.EIO, dev)
  else
    match buf with
    | None => undefined
    | Some buf =>
        name <- iio_strdup buf ;;
        match name with
        | None => ret (- C.ENOMEM, set_dev_name dev None)
        | Some _ => ret (0, set_dev_name dev name)
        end
    end.

Definition read_device_label `{Externals} (dev : iio_device)
    : M (Z * iio_device) :=
  '(r, buf) <- local_read_dev_attr dev 0 "label" 1024 IIO_ATTR_TYPE_DEVICE ;;
  if r <? 0 then ret (C.to_int r, dev)
  else if r =? 0 then ret (- C.EIO, dev)
  else
    match buf with
    | None => undefined
    | Some buf =>
        label <- iio_strdup buf ;;
        match label with
        | None => ret (- C.ENOMEM, set_dev_label dev None)
        | Some _ => ret (0, set_dev_label dev label)
        end
    end.

Definition device_attrs_denylist : list string := ["dev"; "uevent"]%string.

Definition buffer_attrs_reserved : list string :=
  ["length"; "enable"; "watermark"]%string.

(** What [local.c] takes from [attr.h]: [add_iio_dev_attr dev attrs attr
    type] adds the name [attr] to the list [attrs] of attribute names of the
    device ([type] words the debug message) and gives the return value and
    the list. *)
Class AttrExternals := {
  add_iio_dev_attr :
    iio_device -> list string -> string -> string -> M (Z * list string)
}.

Definition add_attr_to_device `{Externals} `{AttrExternals}
    (dev : iio_device) (attr : string) : M (Z * iio_device) :=
  if existsb (fun denied => CStr.strcmp_eq denied attr) device_attrs_denylist
  then ret (0, dev)
  else if CStr.strcmp_eq attr "name" then read_device_name dev
  else if CStr.strcmp_eq attr "label" then read_device_label dev
  else
    '(r, l) <- add_iio_dev_attr dev (dev_attrs dev) attr "" ;;
    ret (r, set_dev_attrs dev l).

(** [add_buffer_attr] and [add_debug_attr], on the list [dev->buffer_attrs]
    and [dev->debug_attrs]; [strrchr(path, '/') + 1] on a path without a
    slash is arithmetic on a null pointer. *)
Definition add_buffer_attr `{AttrExternals} (dev : iio_device)
    (buffer_attrs : list string) (path : string) : M (Z * list string) :=
  match CStr.strrchr path "/" with
  | None => undefined
  | Some i =>
      let name := CStr.advance path (i + 1) in
      if existsb (fun reserved => CStr.strcmp_eq reserved name)
           buffer_attrs_reserved
      then ret (0, buffer_attrs)
      else add_iio_dev_attr dev buffer_attrs name " buffer"
  end.

Definition add_debug_attr `{AttrExternals} (dev : iio_device)
    (debug_attrs : list string) (path : string) : M (Z * list string) :=
  match CStr.strrchr path "/" with
  | None => undefined
  | Some i =>
      add_iio_dev_attr dev debug_attrs (CStr.advance path (i + 1)) " debug"
  end.

Definition add_attr_or_channel_helper `{Externals} `{AttrExternals}
    (dev : iio_device) (path : string) (dir_is_scan_elements : bool)
    : M (Z * iio_device) :=
  match CStr.strrchr path "/" with
  | None => undefined
  | Some i =>
      let name := CStr.advance path (i + 1) in
      if dir_is_scan_elements then
        let buf := CStr.snprintf 1024 ("scan_elements/" ++ name)%string in
        add_channel dev name buf dir_is_scan_elements
      else if negb (is_channel dev name true) then add_attr_to_device dev name
      else add_channel dev name name dir_is_scan_elements
  end.

Definition add_attr_or_channel `{Externals} `{AttrExternals}
    (dev : iio_device) (path : string) : M (Z * iio_device) :=
  add_attr_or_channel_helper dev path false.

Definition add_scan_element `{Externals} `{AttrExternals}
    (dev : iio_device) (path : string) : M (Z * iio_device) :=
  add_attr_or_channel_helper dev path true.

(** ** Scan elements of a channel *)

(** The loop of [handle_scan_elements] over the protected attributes;
    [stack i] is what the locals [endian] and [sign] of the [i]-th call hold
    on entry. *)
Fixpoint handle_scan_elements_from `{Externals} (dev : iio_device)
    (chn : iio_channel) (l : list iio_channel_attr) (i : nat)
    (stack : nat -> ascii * ascii) : M (Z * iio_channel) :=
  match l with
  | [] => ret (0, chn)
  | a :: l' =>
      '(r, chn) <- handle_protected_scan_element_attr dev chn (attr_name a)
                     (attr_filename a) (fst (stack i)) (snd (stack i)) ;;
      if r <? 0 then ret (r, chn)
      else handle_scan_elements_from dev chn l' (S i) stack
  end.

Definition handle_scan_elements `{Externals} (dev : iio_device)
    (chn : iio_channel) (stack : nat -> ascii * ascii) : M (Z * iio_channel) :=
  handle_scan_elements_from dev chn (protected_attrs (pdata chn)) O stack.

Definition free_protected_attrs (chn : iio_channel) : iio_channel :=
  set_pdata chn
    {| enable_fn := enable_fn (pdata chn); protected_attrs := [] |}.

(** ** Walking a directory *)

(** What [stat] on an entry gives: a failure with its [errno], or whether
    the mode is that of a directory ([S_ISDIR]) and of a regular file
    ([S_ISREG]). *)
Inductive stat_outcome :=
| StatFailed (errno : Z)
| StatMode (is_dir is_reg : bool).

(** What a call of [readdir] gives while entries are left: a failure (a
    null pointer, with [errno]), or an entry and what [stat] makes of it.
    After the last entry [readdir] gives a null pointer and leaves [errno]
    at 0. *)
Inductive readdir_outcome :=
| ReaddirFailed (errno : Z)
| DirEntry (d_name : string) (st : stat_outcome).

Inductive opendir_outcome :=
| OpendirFailed (errno : Z)
| DirOpened (entries : list readdir_outcome).

Definition PATH_MAX : nat := 4096.

(** The [while (true)] loop of [foreach_in_dir] over the entries that are
    left, from the current [ret]; [d] is what the callback works on. *)
Fixpoint foreach_entry {D : Type} (d : D) (path : string) (is_dir : bool)
    (callback : D -> string -> M (Z * D)) (entries : list readdir_outcome)
    (r : Z) : M (Z * D) :=
  match entries with
  | [] => ret (r, d)
  | ReaddirFailed errno :: _ =>
      if errno =? 0 then ret (r, d) else ret (- errno, d)
  | DirEntry d_name st :: rest =>
      let buf := CStr.snprintf PATH_MAX (path ++ "/" ++ d_name)%string in
      match st with
      | StatFailed errno => ret (- errno, d)
      | StatMode dir reg =>
          if (is_dir && dir && negb (Ascii.eqb (CStr.char_at d_name 0) "."))
             || (negb is_dir && reg)
          then
            '(r, d) <- callback d buf ;;
            if r <? 0 then ret (r, d)
            else foreach_entry d path is_dir callback rest r
          else foreach_entry d path is_dir callback rest r
      end
  end.

(** [foreach_in_dir]; [dir] is what [opendir(path)] and the calls that
    follow meet. *)
Definition foreach_in_dir {D : Type} (dir : opendir_outcome) (d : D)
    (path : string) (is_dir : bool) (callback : D -> string -> M (Z * D))
    : M (Z * D) :=
  match dir with
  | OpendirFailed errno => ret (- errno, d)
  | DirOpened entries => foreach_entry d path is_dir callback entries 0
  end.

(** ** The scan of the local context *)

Definition BUF_SIZE : nat := 128.

(** [cat_file]: [fread] stores at most [BUF_SIZE - 1] bytes, the last byte
    read is overwritten with the terminator, and [strndup] copies what
    stands before the first terminator. *)
Definition cat_file (path : string) : M (option string) :=
  log (AFopen path "re") ;;;
  f <- next_file ;;
  match f with
  | FopenFailed _ => ret None
  | Opened data _ _ =>
      log (AFread (Z.of_nat (BUF_SIZE - 1))) ;;;
      let r := Nat.min (BUF_SIZE - 1) (CStr.strlen data) in
      log AFclose ;;;
      if (0 <? r)%nat then
        ok <- alloc ;;
        ret (if ok then Some (CStr.c_str (CStr.take data (r - 1))) else None)
      else ret None
  end.

(** [build_names]; [names] is the C string in the array [d] points to. *)
Definition build_names `{Externals} (names : string) (path : string)
    : M (Z * string) :=
  if negb (CStr.contains path "iio:device")
     && negb (WITH_HWMON && CStr.contains path "class/hwmon")
  then ret (0, names)
  else
    let buf := CStr.snprintf BUF_SIZE (path ++ "/name")%string in
    dst <- cat_file buf ;;
    match dst with
    | Some dst =>
        let len := CStr.strnlen names BUF_SIZE in
        let size := C.to_size_t (Z.of_nat BUF_SIZE - Z.of_nat len - 1) in
        ret (0, (CStr.take names len
                 ++ CStr.snprintf (Z.to_nat size) (dst ++ ","))%string)
    | None => ret (0, names)
    end.

Definition check_device (d : bool) (path : string) : M (Z * bool) :=
  ret (0, true).

(** [struct utsname], as [uname] fills it. *)
Record utsname := {
  sysname : string;
  nodename : string;
  release : string;
  version : string;
  machine : string
}.

(** [local_get_description]; [uts] is what [uname] stores. *)
Definition local_get_description (uts : utsname) : M (option string) :=
  let len :=
    C.to_uint (Z.of_nat (CStr.strlen (sysname uts) + CStr.strlen (nodename uts)
                         + CStr.strlen (release uts)
                         + CStr.strlen (version uts)
                         + CStr.strlen (machine uts))) in
  ok <- alloc ;;
  if negb ok then ret None
  else
    ret (Some (CStr.snprintf (Z.to_nat (C.to_uint (len + 5)))
                 (sysname uts ++ " " ++ nodename uts ++ " " ++ release uts
                  ++ " " ++ version uts ++ " " ++ machine uts)%string)).

(** An entry the walk passes over: of the wrong kind, or a directory whose
    name starts with a dot. *)
Definition passed_over (is_dir : bool) (e : readdir_outcome) : bool :=
  match e with
  | DirEntry d_name (StatMode dir reg) =>
      negb ((is_dir && dir && negb (Ascii.eqb (CStr.char_at d_name 0) "."))
            || (negb is_dir && reg))
  | _ => false
  end.


(** ** Creating a buffer *)

(** What a system call gives back: its return value, and [errno] when that
    is -1. *)
Record call_outcome := { call_ret : Z; call_errno : Z }.

(** [ioctl_nointr], on the outcomes of the successive calls of [ioctl];
    [None] when the script holds no call that was not interrupted. *)
Fixpoint ioctl_nointr (outcomes : list call_outcome) : option Z :=
  match outcomes with
  | [] => None
  | o :: rest =>
      if (call_ret o =? -1) && (call_errno o =? C.EINTR)
      then ioctl_nointr rest
      else Some (if call_ret o =? -1 then - call_errno o else call_ret o)
  end.

(** What [local_create_buffer] meets outside the attribute files:
    [iio_err] of what [local_alloc_mmap_buffer_impl] returns, the outcomes
    of [eventfd], of [open] on the device node and of the calls of [ioctl],
    and the descriptor a successful [ioctl] stores in [new_fd]. *)
Record buffer_setup := {
  mmap_impl_err : Z;
  eventfd_outcome : call_outcome;
  open_outcome : call_outcome;
  ioctl_outcomes : list call_outcome;
  ioctl_fd : Z
}.

(** What [local_create_buffer] takes from the build and from the rest of
    the library: the configuration macro, the type of a channel mask, the
    test of a channel in a mask and the setting of a channel in a mask. *)
Class BufferExternals := {
  WITH_LOCAL_MMAP_API : bool;
  iio_channels_mask : Type;
  iio_channel_is_enabled : iio_channel -> iio_channels_mask -> bool;
  iio_channel_enable : iio_channel -> iio_channels_mask -> iio_channels_mask
}.

(** The first two loops of [local_create_buffer] over the channels: the
    state [en] is written to every channel that has an index and that
    [selected] holds of; the loop ends at the first failure. *)
Fixpoint write_states `{Externals} (dev : iio_device) (l : list iio_channel)
    (idx : Z) (en : bool) (selected : iio_channel -> bool) (err : Z) : M Z :=
  match l with
  | [] => ret err
  | chn :: l' =>
      if (index chn >=? 0) && selected chn then
        err <- channel_write_state dev chn idx en ;;
        if err <? 0 then ret err
        else write_states dev l' idx en selected err
      else write_states dev l' idx en selected err
  end.

(** The third loop: the state of every channel that has an index is read
    back, and the channels that are enabled are set in the mask. *)
Fixpoint read_states `{Externals} `{BufferExternals} (dev : iio_device)
    (l : list iio_channel) (idx : Z) (mask : iio_channels_mask) (err : Z)
    : M (Z * iio_channels_mask) :=
  match l with
  | [] => ret (err, mask)
  | chn :: l' =>
      if index chn >=? 0 then
        err <- channel_read_state dev chn idx ;;
        if err <? 0 then ret (err, mask)
        else
          read_states dev l' idx
            (if err >? 0 then iio_channel_enable chn mask else mask) err
      else read_states dev l' idx mask err
  end.

(** The labels [err_close] to [err_free_pdata] of [local_create_buffer]. *)
Definition err_close {A} (fd cancel_fd err : Z) : M (Z + A) :=
  close fd ;;;
  close cancel_fd ;;;
  free BackendPrivate ;;;
  free BufferPdata ;;;
  ret (inl err).

(** [local_create_buffer]: an error code ([iio_ptr(err)]) or the buffer,
    and the mask as the call leaves it. *)
Definition local_create_buffer `{Externals} `{BufferExternals}
    (dev : iio_device) (idx : Z) (mask : iio_channels_mask)
    (setup : buffer_setup) : M ((Z + iio_buffer_pdata) * iio_channels_mask) :=
  ok <- alloc ;;
  if negb ok then ret (inl (- C.ENOMEM), mask)
  else if WITH_LOCAL_MMAP_API && negb (mmap_impl_err setup =? 0) then
    free BufferPdata ;;;
    ret (inl (mmap_impl_err setup), mask)
  else
    let cancel_fd := call_ret (eventfd_outcome setup) in
    if cancel_fd =? -1 then
      free BackendPrivate ;;;
      free BufferPdata ;;;
      ret (inl (- call_errno (eventfd_outcome setup)), mask)
    else
      let fd := call_ret (open_outcome setup) in
      if fd =? -1 then
        close cancel_fd ;;;
        free BackendPrivate ;;;
        free BufferPdata ;;;
        ret (inl (- call_errno (open_outcome setup)), mask)
      else
        match ioctl_nointr (ioctl_outcomes setup) with
        | None => blocked
        | Some err =>
            fd <- (if err =? 0 then close fd ;;; ret (ioctl_fd setup)
                   else ret fd) ;;
            if negb (err =? 0) && (idx >? 0) then
              r <- err_close fd cancel_fd err ;; ret (r, mask)
            else
              let pdata :=
                {| buf_dev := dev; buf_fd := fd; buf_cancel_fd := cancel_fd;
                   buf_idx := idx; dmabuf_supported := false;
                   mmap_supported := false; multi_buffer := (err =? 0) |} in
              (* Disable buffer *)
              err <- local_do_enable_buffer pdata false ;;
              if err <? 0 then r <- err_close fd cancel_fd err ;; ret (r, mask)
              else
                (* Disable all channels *)
                err <- write_states dev (channels dev) idx false
                         (fun _ => true) err ;;
                if err <? 0 then
                  r <- err_close fd cancel_fd err ;; ret (r, mask)
                else
                  (* Enable channels *)
                  err <- write_states dev (channels dev) idx true
                           (fun chn => iio_channel_is_enabled chn mask) err ;;
                  if err <? 0 then
                    r <- err_close fd cancel_fd err ;; ret (r, mask)
                  else
                    (* Finally, update the channels mask by reading the
                       hardware again *)
                    '(err, mask) <- read_states dev (channels dev) idx mask
                                      err ;;
                    if err <? 0 then
                      r <- err_close fd cancel_fd err ;; ret (r, mask)
                    else ret (inr pdata, mask)
        end.

(** [local_cancel_buffer]: the event counter of the cancellation descriptor
    is written (8 bytes); a failure is reported and nothing else. *)
Definition local_cancel_buffer (pdata : iio_buffer_pdata) : M unit :=
  log (AWrite (buf_cancel_fd pdata) 8) ;;;
  _ <- next_xfer ;;
  ret tt.

(** ** Vocabulary of the further statements *)

(** The timeout a call of [poll] gets: 0 without a start time (the call
    does not wait), -1 with a start time and no timeout configured (it waits
    until an event comes), and what is left of the configured timeout
    otherwise. *)
Definition timeout_handed_to_poll (start : option timespec) (timeout t : Z)
    : Prop :=
  match start with
  | None => t = 0
  | Some _ =>
      if timeout =? 0 then t = -1
      else 0 <= t <= Z.min timeout C.INT_MAX
  end.

(** How often the clock is read for [calls] calls of [poll]. *)
Definition clock_readings (start : option timespec) (timeout : Z)
    (calls : nat) : nat :=
  match start with
  | None => O
  | Some _ => if timeout =? 0 then O else calls
  end.

(** [fopen] fails with [errno] set: every scripted failure has an [errno]
    above 0 (that an [int] holds). *)
Definition fopen_sets_errno (w : World) : Prop :=
  forall e, In (FopenFailed e) (files w) -> 0 < e <= C.INT_MAX.

(** What tells the channels of a device apart: the id and the direction. *)
Definition channel_key (chn : iio_channel) : string * bool :=
  (chn_id chn, is_output chn).

(** [l1] is [l2] with some entries left out: the entries that stay keep
    their order. *)
Inductive subsequence {A : Type} : list A -> list A -> Prop :=
| subsequence_nil : subsequence [] []
| subsequence_skip x l1 l2 : subsequence l1 l2 -> subsequence l1 (x :: l2)
| subsequence_keep x l1 l2 : subsequence l1 l2 -> subsequence (x :: l1) (x :: l2).

(** The prefix of the direction of a channel, and the other one. *)
Definition direction_prefix (output : bool) : string :=
  if output then "out_"%string else "in_"%string.

(** The names of the scan-element attributes [local.c] knows. *)
Definition scan_element_names : list string := ["index"; "type"; "en"]%string.

(** An implementation of [add_iio_dev_attr], for the examples: the name is
    duplicated and stored at the end of the list, which grows by one
    entry. *)
Definition appending_attrs : AttrExternals :=
  {| add_iio_dev_attr := fun _ attrs attr _ =>
       name <- iio_strdup attr ;;
       match name with
       | None => ret (- C.ENOMEM, attrs)
       | Some name =>
           ok <- alloc ;;
           if ok then ret (0, attrs ++ [name]) else ret (- C.ENOMEM, attrs)
       end |}.

(** A device that is named, as a trigger is. *)
Definition named_device (id name : string) : iio_device :=
  {| dev_id := id; dev_name := Some name; dev_label := None; dev_attrs := [];
     channels := []; timeout_ms := 1000 |}.

(** A channel with protected attributes only. *)
Definition scan_channel (id : string) (l : list iio_channel_attr)
    : iio_channel :=
  {| chn_id := id; chn_name := None; is_output := false;
     is_scan_element := true; index := - C.ENOENT; format := zero_format;
     attrs := []; pdata := {| enable_fn := None; protected_attrs := l |} |}.

(** A callback that records the paths it is handed, and fails on one. *)
Definition record_paths (failing : string) (seen : list string)
    (path : string) : M (Z * list string) :=
  if String.eqb path failing then ret (- C.EIO, seen ++ [path])
  else ret (0, seen ++ [path]).

(** A computation that only adds to the trace. *)
Definition trace_grows {A} (c : M A) : Prop :=
  forall w a w', c w = Done a w' -> exists l, trace w' = trace w ++ l.

(** The call of [ioctl] gave a descriptor for the index of the buffer. *)
Definition ioctl_gave_fd (setup : buffer_setup) : bool :=
  match ioctl_nointr (ioctl_outcomes setup) with
  | Some err => err =? 0
  | None => false
  end.

(** The data descriptor of the buffer: the one [ioctl] gave, or else the
    device node. *)
Definition data_fd (setup : buffer_setup) : Z :=
  if ioctl_gave_fd setup then ioctl_fd setup
  else call_ret (open_outcome setup).

(** A build without the mmap interface, with masks that are lists of the
    ids of the channels that are enabled, for the examples. *)
Definition list_masks : BufferExternals :=
  {| WITH_LOCAL_MMAP_API := false;
     iio_channels_mask := list string;
     iio_channel_is_enabled := fun chn mask =>
       existsb (String.eqb (chn_id chn)) mask;
     iio_channel_enable := fun chn mask => chn_id chn :: mask |}.

(** A setup in which every call succeeds: the cancellation descriptor is
    4, the device node 3, and [ioctl] gives the descriptor 5. *)
Definition multi_buffer_setup : buffer_setup :=
  {| mmap_impl_err := 0;
     eventfd_outcome := {| call_ret := 4; call_errno := 0 |};
     open_outcome := {| call_ret := 3; call_errno := 0 |};
     ioctl_outcomes := [{| call_ret := 0; call_errno := 0 |}];
     ioctl_fd := 5 |}.




(** The name ends in a modifier: after its second underscore stands a
    modifier of the table and nothing else. *)
Definition ends_in_modifier `{Externals} (attr : string) : bool :=
  match CStr.strchr attr "_" with
  | Some p =>
      let rest := CStr.advance attr (p + 1) in
      match CStr.strchr rest "_" with
      | Some q =>
          let ptr := CStr.advance rest (q + 1) in
          match find_channel_modifier ptr with
          | Some len => (CStr.strlen ptr <=? len)%nat
          | None => false
          end
      | None => false
      end
  | None => false
  end.

(** A build without hwmon support whose table of modifiers holds x, y and
    z; a modifier matches when the terminator or an underscore follows it,
    as in [find_channel_modifier] of the library. *)
Definition axis_build : Externals :=
  {| WITH_HWMON := false;
     iio_device_is_hwmon := fun _ => false;
     iio_channel_is_hwmon := fun _ => false;
     find_channel_modifier := fun s =>
       if (Ascii.eqb (CStr.char_at s 0) "x" || Ascii.eqb (CStr.char_at s 0) "y"
           || Ascii.eqb (CStr.char_at s 0) "z")
          && (Ascii.eqb (CStr.char_at s 1) CStr.NUL
              || Ascii.eqb (CStr.char_at s 1) "_")
       then Some 1%nat else None;
     iio_channel_init_finalize := fun chn => chn;
     strtoll := fun _ _ => (0, O, false) |}.

(** The file of the attribute [attr] of the buffer of a device (index
    0). *)
Definition buffer_attr_path (dev : iio_device) (attr : string) : string :=
  CStr.snprintf 1024
    ("/sys/bus/iio/devices/" ++ dev_id dev ++ "/buffer/" ++ attr)%string.

(** The calls of one write of the C string [src] to an attribute file. *)
Definition attr_write (path src : string) : list action :=
  [AFopen path "we"; AFwrite src (Z.of_nat (CStr.strlen src) + 1); AFclose].

(** The writes of [local_enable_buffer]: the length and the watermark for
    a sample count other than 0, then the enable attribute. *)
Definition enable_writes (dev : iio_device) (nb_samples : Z) : list action :=
  (if nb_samples =? 0 then []
   else
     attr_write (buffer_attr_path dev "length")
       (CStr.snprintf 32 (CStr.decimal nb_samples))
     ++ attr_write (buffer_attr_path dev "watermark")
          (CStr.snprintf 32 (CStr.decimal nb_samples)))
  ++ attr_write (buffer_attr_path dev "enable") "1".



(** A call of [read] or [write] that would block. *)
Definition would_block : xfer_outcome :=
  {| xfer_ret := -1; xfer_errno := C.EAGAIN |}.

(** Two channels that differ in the format at most, apart from the flag
    [with_scale] of the format, which the handler of the scan elements does
    not write either. *)
Definition same_but_format (chn chn' : iio_channel) : Prop :=
  chn_id chn' = chn_id chn
  /\ chn_name chn' = chn_name chn
  /\ is_output chn' = is_output chn
  /\ is_scan_element chn' = is_scan_element chn
  /\ index chn' = index chn
  /\ attrs chn' = attrs chn
  /\ pdata chn' = pdata chn
  /\ with_scale (format chn') = with_scale (format chn).

(** A world whose script holds outcomes of attribute files, with room for
    one allocation. *)
Definition named_world (fs : list stdio_outcome) : World :=
  {| clock := fun _ => {| tv_sec := 0; tv_nsec := 0 |}; ticks := 0;
     polls := []; xfers := []; files := fs; heap_budget := 1; trace := [] |}.

(** A call that closes a descriptor or frees an allocation. *)
Definition is_release (a : action) : bool :=
  match a with
  | AClose _ | AFree _ => true
  | _ => false
  end.

(** [local_create_buffer] gets as far as the call of [ioctl]: the
    allocations, [eventfd] and [open] succeed. *)
Definition reaches_ioctl `{BufferExternals} (w : World) (setup : buffer_setup)
    : Prop :=
  (1 <= heap_budget w)%nat
  /\ WITH_LOCAL_MMAP_API && negb (mmap_impl_err setup =? 0) = false
  /\ call_ret (eventfd_outcome setup) <> -1
  /\ call_ret (open_outcome setup) <> -1.

(** Failures are reported the usual way: [iio_err] gives 0 or a negative
    code, a system call that returns -1 has set [errno], and [ioctl] with
    this request returns 0 or -1. *)
Definition fails_with_errno (o : call_outcome) : Prop :=
  call_ret o = -1 -> 0 < call_errno o.

Definition usual_failures (setup : buffer_setup) : Prop :=
  mmap_impl_err setup <= 0
  /\ fails_with_errno (eventfd_outcome setup)
  /\ fails_with_errno (open_outcome setup)
  /\ Forall (fun o => (call_ret o = 0 \/ call_ret o = -1)
                      /\ fails_with_errno o)
       (ioctl_outcomes setup).

(** ** Facts on the integer conversions *)

Lemma to_int_id z : - 2 ^ 31 <= z < 2 ^ 31 -> C.to_int z = z.
Proof.
  intros H. unfold C.to_int.
  rewrite Z.mod_small by lia. lia.
Qed.

Lemma to_uint_id z : 0 <= z < 2 ^ 32 -> C.to_uint z = z.
Proof. intros H. unfold C.to_uint. now rewrite Z.mod_small. Qed.

Lemma to_int_high z : 2 ^ 31 <= z < 2 ^ 32 -> C.to_int z = z - 2 ^ 32.
Proof.
  intros H. unfold C.to_int.
  replace (z + 2 ^ 31) with ((z - 2 ^ 31) + 1 * 2 ^ 32) by lia.
  rewrite Z.mod_add by lia.
  rewrite Z.mod_small by lia. lia.
Qed.

(** ** The remaining timeout *)

(** The remainder of a truncating division has the sign of the dividend. *)
Lemma rem_ms_bounds a :
  (0 <= a -> 0 <= Z.rem a 1000000 < 1000000) /\
  (a <= 0 -> - 1000000 < Z.rem a 1000000 <= 0).
Proof.
  split; intros H.
  - apply Z.rem_bound_pos; lia.
  - pose proof (Z.rem_bound_pos (- a) 1000000 ltac:(lia) ltac:(lia)) as B.
    rewrite Z.rem_opp_l in B by lia. lia.
Qed.

Lemma quot_ms_bounds a :
  - 1000000000 < a < 1000000000 ->
  - 999 <= Z.quot a 1000000 <= 999 /\
  (0 <= a -> 0 <= Z.quot a 1000000).
Proof.
  intros H.
  pose proof (Z.quot_rem' a 1000000) as E.
  destruct (rem_ms_bounds a) as [Bp Bn].
  split.
  - destruct (Z_le_gt_dec 0 a) as [Hp | Hn].
    + specialize (Bp Hp). lia.
    + specialize (Bn ltac:(lia)). lia.
  - intros Hp. apply Z.quot_pos; lia.
Qed.

Lemma elapsed_ms_range start now :
  within_reach start now -> 0 <= elapsed_ms start now <= 2147482999.
Proof.
  unfold within_reach, valid_timespec, nanos, elapsed_ms.
  intros (Hs & Hn & Hle & Hfar).
  destruct (quot_ms_bounds (tv_nsec now - tv_nsec start)) as [Hq Hq0]; [lia|].
  assert (0 <= tv_sec now - tv_sec start) by lia.
  destruct (Z.eq_dec (tv_sec now) (tv_sec start)) as [E | NE].
  - rewrite E in *. specialize (Hq0 ltac:(lia)). lia.
  - lia.
Qed.

(** The milliseconds really elapsed, rounded down, and the reading of the
    function differ by one at most. *)
Lemma elapsed_ms_floor start now :
  valid_timespec start -> valid_timespec now ->
  (nanos now - nanos start) / 1000000 <= elapsed_ms start now
  <= (nanos now - nanos start) / 1000000 + 1.
Proof.
  intros Hs Hn. set (f := (nanos now - nanos start) / 1000000).
  unfold valid_timespec, nanos, elapsed_ms in *.
  set (d := tv_nsec now - tv_nsec start).
  assert (Hf : f = (tv_sec now - tv_sec start) * 1000 + d / 1000000).
  { unfold f, d.
    replace (tv_sec now * 1000000000 + tv_nsec now
             - (tv_sec start * 1000000000 + tv_nsec start))
      with ((tv_nsec now - tv_nsec start)
            + ((tv_sec now - tv_sec start) * 1000) * 1000000) by lia.
    rewrite Z.div_add by lia. lia. }
  rewrite Hf.
  pose proof (Z.quot_rem' d 1000000) as E.
  pose proof (Z.div_mod d 1000000 ltac:(lia)) as E'.
  pose proof (Z.mod_pos_bound d 1000000 ltac:(lia)) as B'.
  destruct (rem_ms_bounds d) as [Bp Bn].
  destruct (Z_le_gt_dec 0 d) as [Hp | Hneg].
  - specialize (Bp Hp). lia.
  - specialize (Bn ltac:(lia)). lia.
Qed.

(** For a timeout that an [int] holds and a clock that has not gone back,
    the function returns the timeout less the elapsed milliseconds, and 0
    once they reach it. *)
Lemma get_rel_timeout_ms_in_reach start timeout_rel w :
  0 < timeout_rel <= C.INT_MAX ->
  within_reach start (reading w) ->
  get_rel_timeout_ms start timeout_rel w
  = Done (Z.max 0 (timeout_rel - elapsed_ms start (reading w))) (tick w).
Proof.
  intros HT HR. pose proof (elapsed_ms_range _ _ HR) as HE.
  unfold get_rel_timeout_ms.
  destruct (Z.eqb_spec timeout_rel 0) as [->|_]; [lia|].
  unfold bind, clock_gettime. fold (reading w).
  unfold elapsed_ms in *. unfold C.INT_MAX in *.
  destruct HR as (Hs & Hn & Hle & Hfar).
  unfold valid_timespec, nanos in *.
  destruct (quot_ms_bounds (tv_nsec (reading w) - tv_nsec start)) as [Hq _];
    [lia|].
  assert (Hsec : 0 <= tv_sec (reading w) - tv_sec start) by lia.
  rewrite (to_int_id ((tv_sec (reading w) - tv_sec start) * 1000)) by lia.
  rewrite (to_int_id (_ + _)) by lia.
  rewrite (to_int_id timeout_rel) by lia.
  set (d := (tv_sec (reading w) - tv_sec start) * 1000
            + Z.quot (tv_nsec (reading w) - tv_nsec start) 1000000) in *.
  destruct (Z.geb_spec d timeout_rel) as [Hge | Hlt].
  - unfold ret. f_equal. lia.
  - destruct (Z.gtb_spec d 0) as [Hpos | Hzero].
    + rewrite to_uint_id by lia.
      destruct (Z.gtb_spec (timeout_rel - d) 2147483647); [lia|].
      unfold ret. rewrite to_int_id by lia. f_equal. lia.
    + destruct (Z.gtb_spec timeout_rel 2147483647); [lia|].
      unfold ret. rewrite to_int_id by lia. f_equal. lia.
Qed.

(** A timeout above [INT_MAX] is negative once cast to [int]: whatever time
    has elapsed is then "not less", and the function returns 0. *)
Lemma get_rel_timeout_ms_large start timeout_rel w :
  C.INT_MAX < timeout_rel <= C.UINT_MAX ->
  within_reach start (reading w) ->
  get_rel_timeout_ms start timeout_rel w = Done 0 (tick w).
Proof.
  intros HT HR. pose proof (elapsed_ms_range _ _ HR) as HE.
  unfold get_rel_timeout_ms.
  destruct (Z.eqb_spec timeout_rel 0) as [->|_]; [unfold C.INT_MAX in *; lia|].
  unfold bind, clock_gettime. fold (reading w).
  unfold elapsed_ms in *. unfold C.INT_MAX, C.UINT_MAX in *.
  destruct HR as (Hs & Hn & Hle & Hfar).
  unfold valid_timespec, nanos in *.
  destruct (quot_ms_bounds (tv_nsec (reading w) - tv_nsec start)) as [Hq _];
    [lia|].
  assert (Hsec : 0 <= tv_sec (reading w) - tv_sec start) by lia.
  rewrite (to_int_id ((tv_sec (reading w) - tv_sec start) * 1000)) by lia.
  rewrite (to_int_id (_ + _)) by lia.
  rewrite (to_int_high timeout_rel) by lia.
  destruct (Z.geb_spec
              ((tv_sec (reading w) - tv_sec start) * 1000
               + Z.quot (tv_nsec (reading w) - tv_nsec start) 1000000)
              (timeout_rel - 2 ^ 32)) as [Hge | Hlt]; [reflexivity | lia].
Qed.

(** C2 (the code departs from it).  The claim: for a total timeout other
    than 0 the function returns the timeout less the elapsed milliseconds,
    clamped to 0 below and to [INT_MAX] above.  With a total timeout of
    2^31 ms and no time elapsed (the start time is the reading of the clock
    itself) that is [INT_MAX]; the function returns 0, "expired": the test
    [diff_ms >= (int) timeout_rel] reads the timeout as a negative [int], and
    the clamp [if (timeout_rel > INT_MAX) return INT_MAX] below it is never
    reached.  [get_rel_timeout_ms_in_reach] is the claim for the timeouts up
    to [INT_MAX]. *)
Theorem C2_timeout_above_INT_MAX_expires_at_once (w : World) :
  value_of (get_rel_timeout_ms (reading w) 2147483648 w) = Some 0.
Proof.
  unfold get_rel_timeout_ms.
  change (2147483648 =? 0) with false. cbv iota.
  unfold bind, clock_gettime. fold (reading w).
  rewrite !Z.sub_diag. reflexivity.
Qed.

(** The reading of the elapsed time does not go back when the clock does
    not. *)
Lemma elapsed_ms_mono start t1 t2 :
  valid_timespec start -> valid_timespec t1 -> valid_timespec t2 ->
  nanos t1 <= nanos t2 ->
  elapsed_ms start t1 <= elapsed_ms start t2.
Proof.
  unfold valid_timespec, nanos, elapsed_ms. intros Hs H1 H2 Hle.
  set (a1 := tv_nsec t1 - tv_nsec start).
  set (a2 := tv_nsec t2 - tv_nsec start).
  pose proof (Z.quot_rem' a1 1000000) as E1.
  pose proof (Z.quot_rem' a2 1000000) as E2.
  destruct (rem_ms_bounds a1) as [P1 N1].
  destruct (rem_ms_bounds a2) as [P2 N2].
  assert (Q1 : 0 <= a1 -> 0 <= Z.quot a1 1000000)
    by (intros; apply Z.quot_pos; lia).
  assert (Q2 : 0 <= a2 -> 0 <= Z.quot a2 1000000)
    by (intros; apply Z.quot_pos; lia).
  destruct (Z_le_gt_dec 0 a1) as [S1 | S1];
    destruct (Z_le_gt_dec 0 a2) as [S2 | S2];
    try specialize (P1 S1); try specialize (P2 S2);
    try specialize (N1 ltac:(lia)); try specialize (N2 ltac:(lia));
    try specialize (Q1 S1); try specialize (Q2 S2);
    unfold a1, a2 in *; lia.
Qed.

(** C9 (amended).  For a fixed start time and a fixed total timeout from 1
    to [INT_MAX], evaluated at an instant not before the start and again [K]
    milliseconds later or more: no result is negative, the second is not
    above the first, and it is below the first by [K - 1] at least unless it
    is 0 (the function counts whole milliseconds of the seconds and of the
    nanoseconds apart, which loses up to one); by [K] at least, unless it is
    0, when the elapsed milliseconds as the function reads them grew by
    [K].  With a total timeout of 0 every evaluation gives -1, whatever the
    clock reads. *)
Theorem C9_remaining_timeout_decreases
    (start : timespec) (timeout_rel K : Z) (w1 w2 : World) :
  0 < timeout_rel <= C.INT_MAX ->
  0 <= K ->
  within_reach start (reading w1) ->
  within_reach start (reading w2) ->
  nanos (reading w1) + K * 1000000 <= nanos (reading w2) ->
  (exists r1 r2,
     value_of (get_rel_timeout_ms start timeout_rel w1) = Some r1 /\
     value_of (get_rel_timeout_ms start timeout_rel w2) = Some r2 /\
     0 <= r2 <= r1 /\
     r2 <= Z.max 0 (r1 - K + 1) /\
     (elapsed_ms start (reading w1) + K <= elapsed_ms start (reading w2) ->
      r2 <= Z.max 0 (r1 - K)))
  /\ (forall w, get_rel_timeout_ms start 0 w = Done (-1) w).
Proof.
  intros HT HK R1 R2 Hlater.
  split; [|intros w; reflexivity].
  rewrite !get_rel_timeout_ms_in_reach by auto.
  do 2 eexists. split; [reflexivity|]. split; [reflexivity|].
  assert (Hmono : elapsed_ms start (reading w1)
                  <= elapsed_ms start (reading w2)).
  { destruct R1 as (? & ? & ? & ?), R2 as (? & ? & ? & ?).
    apply elapsed_ms_mono; auto; lia. }
  assert (Hslack : elapsed_ms start (reading w1) + K - 1
                   <= elapsed_ms start (reading w2)).
  { destruct R1 as (Vs & V1 & ? & ?), R2 as (_ & V2 & ? & ?).
    pose proof (elapsed_ms_floor start _ Vs V1) as F1.
    pose proof (elapsed_ms_floor start _ Vs V2) as F2.
    assert ((nanos (reading w1) - nanos start) / 1000000 + K
            <= (nanos (reading w2) - nanos start) / 1000000).
    { rewrite <- Z.div_add by lia. apply Z.div_le_mono; lia. }
    lia. }
  lia.
Qed.

Lemma C9_remaining_timeout_decreases_witness :
  (exists r1 r2,
     value_of (get_rel_timeout_ms {| tv_sec := 0; tv_nsec := 500000 |} 5000
                 (world_at 1 0)) = Some r1 /\
     value_of (get_rel_timeout_ms {| tv_sec := 0; tv_nsec := 500000 |} 5000
                 (world_at 1 3000000)) = Some r2 /\
     0 <= r2 <= r1 /\
     r2 <= Z.max 0 (r1 - 3 + 1) /\
     (elapsed_ms {| tv_sec := 0; tv_nsec := 500000 |} (reading (world_at 1 0))
      + 3
      <= elapsed_ms {| tv_sec := 0; tv_nsec := 500000 |}
           (reading (world_at 1 3000000)) ->
      r2 <= Z.max 0 (r1 - 3)))
  /\ (forall w,
        get_rel_timeout_ms {| tv_sec := 0; tv_nsec := 500000 |} 0 w
        = Done (-1) w).
Proof.
  apply (C9_remaining_timeout_decreases
           {| tv_sec := 0; tv_nsec := 500000 |} 5000 3
           (world_at 1 0) (world_at 1 3000000)).
  - unfold C.INT_MAX. lia.
  - lia.
  - unfold within_reach, valid_timespec, nanos. simpl. lia.
  - unfold within_reach, valid_timespec, nanos. simpl. lia.
  - unfold nanos. simpl. lia.
Defined.

(** C9 as stated fails three ways: an expired timeout stays at 0 instead of
    dropping further (5 ms left, 10 ms later: 0, not -5 or less); one
    millisecond later the result can be the same (start at 0.5 ms, 4000 left
    at 1000 ms and at 1001 ms); and with a total timeout of 0 the result is
    -1. *)
Lemma C9_drop_is_clamped_rounded_or_absent :
  ~ remaining_timeout_drops {| tv_sec := 0; tv_nsec := 0 |} 5 10
      (world_at 0 0) (world_at 0 10000000)
  /\ ~ remaining_timeout_drops {| tv_sec := 0; tv_nsec := 500000 |} 5000 1
         (world_at 1 0) (world_at 1 1000000)
  /\ ~ remaining_timeout_drops {| tv_sec := 0; tv_nsec := 0 |} 0 0
         (world_at 0 0) (world_at 0 0).
Proof.
  unfold remaining_timeout_drops, within_reach, valid_timespec, nanos.
  split; [| split]; intros H;
    destruct H as (r1 & r2 & E1 & E2 & Hdrop & H1 & H2);
    try (simpl; lia);
    vm_compute in E1; vm_compute in E2;
    injection E1 as <-; injection E2 as <-; lia.
Qed.

(** ** The readiness wait *)

(** A computation that ends hands its value and its world to what
    follows. *)
Lemma bind_done {A B} (c : M A) (k : A -> M B) w a w' :
  c w = Done a w' -> bind c k w = k a w'.
Proof. intros E. unfold bind. now rewrite E. Qed.

Lemma bind_inv {A B} (c : M A) (k : A -> M B) w b w' :
  bind c k w = Done b w' ->
  exists a w1, c w = Done a w1 /\ k a w1 = Done b w'.
Proof.
  unfold bind. destruct (c w) as [a w1 | |]; try discriminate. eauto.
Qed.

(** Reading the remaining timeout always ends, and touches nothing but the
    clock. *)
Lemma get_rel_timeout_ms_done start timeout_rel w :
  exists t, get_rel_timeout_ms start timeout_rel w
            = Done t (if timeout_rel =? 0 then w else tick w).
Proof.
  unfold get_rel_timeout_ms.
  destruct (timeout_rel =? 0); [eexists; reflexivity|].
  unfold bind, clock_gettime.
  repeat match goal with
         | |- context [if ?c then _ else _] => destruct c
         end; eexists; reflexivity.
Qed.

Lemma wait_timeout_done pdata (start : option timespec) w :
  exists t w',
    match start with
    | Some s => get_rel_timeout_ms s (timeout_ms (buf_dev pdata))
    | None => ret 0
    end w = Done t w'
    /\ polls w' = polls w
    /\ xfers w' = xfers w.
Proof.
  destruct start as [s|].
  - destruct (get_rel_timeout_ms_done s (timeout_ms (buf_dev pdata)) w)
      as [t E].
    rewrite E. do 2 eexists. split; [reflexivity|].
    destruct (timeout_ms (buf_dev pdata) =? 0); split; reflexivity.
  - exists 0, w. repeat split; reflexivity.
Qed.

(** The wait goes through the interrupted calls of [poll] and ends with the
    first call that was not interrupted; it takes nothing from the script
    of [read] and [write]. *)
Lemma poll_loop_ends pdata fd events start :
  forall interruptions fuel w p rest,
    polls w = interruptions ++ p :: rest ->
    forallb interrupted interruptions = true ->
    interrupted p = false ->
    (List.length interruptions < fuel)%nat ->
    exists w', poll_loop fuel pdata fd events start w = Done p w'
               /\ polls w' = rest /\ xfers w' = xfers w.
Proof.
  induction interruptions as [|i l IH]; intros fuel w p rest Hp Hall Hlast Hfuel;
    (destruct fuel as [|fuel]; [simpl in Hfuel; lia|]);
    simpl poll_loop; unfold bind at 1;
    destruct (wait_timeout_done pdata start w) as (t & w1 & -> & Hw1 & Hx1);
    unfold bind at 1, poll, bind, log, next_poll; simpl;
    rewrite Hw1, Hp; simpl.
  - unfold interrupted in Hlast. rewrite Hlast.
    eexists. split; [reflexivity|]. split; [reflexivity | exact Hx1].
  - simpl in Hall. apply andb_prop in Hall as [Hi Hall].
    unfold interrupted in Hi. rewrite Hi.
    match goal with
    | |- exists w', poll_loop _ _ _ _ _ ?w0 = _ /\ _ =>
        destruct (IH fuel w0 p rest eq_refl Hall Hlast
                    ltac:(simpl in Hfuel; lia)) as (w' & E & Hp' & Hx')
    end.
    exists w'. split; [exact E|]. split; [exact Hp'|].
    rewrite Hx'. exact Hx1.
Qed.

(** What [buffer_check_ready] makes of the call of [poll] that ended the
    wait. *)
Lemma buffer_check_ready_ends pdata fd events start w interruptions p rest :
  polls w = interruptions ++ p :: rest ->
  forallb interrupted interruptions = true ->
  interrupted p = false ->
  exists w',
    buffer_check_ready pdata fd events start w
    = Done (wait_result events start p) w'
    /\ polls w' = rest /\ xfers w' = xfers w.
Proof.
  intros Hp Hall Hlast.
  unfold buffer_check_ready.
  destruct (poll_loop_ends pdata fd events start interruptions
              (S (List.length (polls w))) w p rest Hp Hall Hlast)
    as (w' & E & Hp' & Hx').
  { rewrite Hp, length_app. simpl. lia. }
  rewrite (bind_done _ _ _ _ _ E).
  exists w'. split; [|split; assumption].
  unfold wait_result.
  repeat match goal with
         | |- context [if ?c then _ else _] => destruct c
         end; reflexivity.
Qed.

(** C5.  When the wait ends (with the first call of [poll] that no signal
    interrupted): a signalled cancellation descriptor gives [-EBADF]; an
    expired wait gives [-ETIMEDOUT] when a start time was supplied and
    [-EBUSY] when none was. *)
Theorem C5_cancelled_timed_out_or_busy
    (pdata : iio_buffer_pdata) (fd events : Z) (start : option timespec)
    (w : World) (interruptions : list poll_outcome) (p : poll_outcome)
    (rest : list poll_outcome) :
  polls w = interruptions ++ p :: rest ->
  forallb interrupted interruptions = true ->
  interrupted p = false ->
  exists r,
    value_of (buffer_check_ready pdata fd events start w) = Some r /\
    (cancellation_signalled p -> r = - C.EBADF) /\
    (wait_expired p -> start <> None -> r = - C.ETIMEDOUT) /\
    (wait_expired p -> start = None -> r = - C.EBUSY).
Proof.
  intros Hp Hall Hlast.
  unfold buffer_check_ready, bind at 1.
  destruct (poll_loop_ends pdata fd events start interruptions
              (S (List.length (polls w))) w p rest Hp Hall Hlast)
    as (w' & -> & _).
  { rewrite Hp, length_app. simpl. lia. }
  destruct (Z.eqb_spec (Z.land (revents_cancel p) C.POLLIN) 0) as [Hc | Hc];
    simpl negb; cbv iota.
  - destruct (Z.ltb_spec (poll_ret p) 0) as [Hneg | Hnonneg].
    + eexists. split; [reflexivity|].
      unfold cancellation_signalled, wait_expired.
      repeat split; intros; try tauto; lia.
    + destruct (Z.eqb_spec (poll_ret p) 0) as [Hz | Hnz].
      * eexists. split; [reflexivity|].
        unfold cancellation_signalled.
        split; [tauto|]. destruct start; split; intros; congruence.
      * unfold cancellation_signalled, wait_expired.
        repeat match goal with
               | |- context [if ?c then _ else _] => destruct c
               end; eexists; (split; [reflexivity|]);
          repeat split; intros; try tauto; lia.
  - eexists. split; [reflexivity|].
    unfold wait_expired. split; [reflexivity|].
    split; intros (_ & _ & Hz); rewrite Hz in Hc; simpl in Hc; congruence.
Qed.

Lemma C5_cancelled_timed_out_or_busy_witness :
  exists r,
    value_of (buffer_check_ready
                {| buf_dev := bare_device "iio:device0" 1000; buf_fd := 3;
                   buf_cancel_fd := 4; buf_idx := 0;
                   dmabuf_supported := false; mmap_supported := false;
                   multi_buffer := false |}
                3 C.POLLIN None
                (polling_world
                   [ {| poll_ret := -1; poll_errno := C.EINTR;
                        revents_fd := 0; revents_cancel := 0 |};
                     {| poll_ret := 0; poll_errno := 0;
                        revents_fd := 0; revents_cancel := 0 |} ]))
    = Some r /\
    (cancellation_signalled
       {| poll_ret := 0; poll_errno := 0; revents_fd := 0;
          revents_cancel := 0 |} -> r = - C.EBADF) /\
    (wait_expired
       {| poll_ret := 0; poll_errno := 0; revents_fd := 0;
          revents_cancel := 0 |} ->
     @None timespec <> None -> r = - C.ETIMEDOUT) /\
    (wait_expired
       {| poll_ret := 0; poll_errno := 0; revents_fd := 0;
          revents_cancel := 0 |} ->
     @None timespec = None -> r = - C.EBUSY).
Proof.
  apply (C5_cancelled_timed_out_or_busy _ 3 C.POLLIN None
           (polling_world _)
           [ {| poll_ret := -1; poll_errno := C.EINTR;
                revents_fd := 0; revents_cancel := 0 |} ]
           {| poll_ret := 0; poll_errno := 0;
              revents_fd := 0; revents_cancel := 0 |} []).
  - reflexivity.
  - reflexivity.
  - reflexivity.
Defined.

(** ** Attribute files and the buffer index *)

(** Whatever the index, a path that is opened was built for index 0. *)
Lemma local_write_dev_attr_opens `{Externals} dev buf_id attr src len type w r w' :
  local_write_dev_attr dev buf_id attr src len type w = Done r w' ->
  forall path mode,
    In (AFopen path mode) (trace w') ->
    In (AFopen path mode) (trace w) \/ attr_path dev 0 attr type = Some path.
Proof.
  unfold local_write_dev_attr.
  destruct (Z.gtb_spec buf_id 0) as [Hpos | Hzero].
  - intros [= _ <-]. auto.
  - assert (E : attr_path dev buf_id attr type = attr_path dev 0 attr type).
    { unfold attr_path. destruct type; try reflexivity.
      destruct (Z.gtb_spec buf_id 0); [lia | reflexivity]. }
    rewrite E. destruct (attr_path dev 0 attr type) as [buf|].
    + unfold bind, log, next_file. simpl.
      destruct (files w) as [|f fs]; [discriminate|].
      destruct f as [errno | data n e]; simpl; intros [= _ <-] path mode;
        simpl; rewrite ?in_app_iff; simpl;
        intuition (try discriminate; try congruence).
    + intros [= _ <-]. auto.
Qed.

Lemma local_read_dev_attr_opens `{Externals} dev buf_id attr len type w r w' :
  local_read_dev_attr dev buf_id attr len type w = Done r w' ->
  forall path mode,
    In (AFopen path mode) (trace w') ->
    In (AFopen path mode) (trace w) \/ attr_path dev 0 attr type = Some path.
Proof.
  unfold local_read_dev_attr.
  destruct (Z.gtb_spec buf_id 0) as [Hpos | Hzero].
  - intros [= _ <-]. auto.
  - assert (E : attr_path dev buf_id attr type = attr_path dev 0 attr type).
    { unfold attr_path. destruct type; try reflexivity.
      destruct (Z.gtb_spec buf_id 0); [lia | reflexivity]. }
    rewrite E. destruct (attr_path dev 0 attr type) as [buf|].
    + unfold bind, log, next_file. simpl.
      destruct (files w) as [|f fs]; [discriminate|].
      destruct f as [errno | data n e]; simpl; intros [= _ <-] path mode;
        simpl; rewrite ?in_app_iff; simpl;
        intuition (try discriminate; try congruence).
    + intros [= _ <-]. auto.
Qed.

(** ** Attribute access with a buffer index above 0 *)

Lemma err_close_done {A} fd cancel_fd err w :
  @err_close A fd cancel_fd err w
  = Done (inl err)
      {| clock := clock w; ticks := ticks w; polls := polls w;
         xfers := xfers w; files := files w; heap_budget := heap_budget w;
         trace := trace w ++ [AClose fd; AClose cancel_fd;
                              AFree BackendPrivate; AFree BufferPdata] |}.
Proof.
  unfold err_close, bind, close, free, log, ret. simpl.
  rewrite <- !app_assoc. reflexivity.
Qed.

(** Where [local_create_buffer] is once the device node is open: the call
    of [ioctl] and all that follows it. *)
Lemma local_create_buffer_opened `{Externals} `{BufferExternals}
    dev idx mask setup w res mask' w' :
  local_create_buffer dev idx mask setup w = Done (res, mask') w' ->
  (1 <= heap_budget w)%nat ->
  WITH_LOCAL_MMAP_API && negb (mmap_impl_err setup =? 0) = false ->
  call_ret (eventfd_outcome setup) <> -1 ->
  call_ret (open_outcome setup) <> -1 ->
  exists err w1 fd,
    ioctl_nointr (ioctl_outcomes setup) = Some err
    /\ fd = (if err =? 0 then ioctl_fd setup
             else call_ret (open_outcome setup))
    /\ trace w1
       = trace w ++ (if err =? 0 then [AClose (call_ret (open_outcome setup))]
                     else [])
    /\ files w1 = files w
    /\ (if negb (err =? 0) && (idx >? 0) then
          r <- err_close fd (call_ret (eventfd_outcome setup)) err ;;
          ret (r, mask)
        else
          let pdata :=
            {| buf_dev := dev; buf_fd := fd;
               buf_cancel_fd := call_ret (eventfd_outcome setup);
               buf_idx := idx; dmabuf_supported := false;
               mmap_supported := false; multi_buffer := (err =? 0) |} in
          err <- local_do_enable_buffer pdata false ;;
          if err <? 0 then
            r <- err_close fd (call_ret (eventfd_outcome setup)) err ;;
            ret (r, mask)
          else
            err <- write_states dev (channels dev) idx false
                     (fun _ => true) err ;;
            if err <? 0 then
              r <- err_close fd (call_ret (eventfd_outcome setup)) err ;;
              ret (r, mask)
            else
              err <- write_states dev (channels dev) idx true
                       (fun chn => iio_channel_is_enabled chn mask) err ;;
              if err <? 0 then
                r <- err_close fd (call_ret (eventfd_outcome setup)) err ;;
                ret (r, mask)
              else
                '(err, mask) <- read_states dev (channels dev) idx mask err ;;
                if err <? 0 then
                  r <- err_close fd (call_ret (eventfd_outcome setup)) err ;;
                  ret (r, mask)
                else ret (inr pdata, mask)) w1
       = Done (res, mask') w'.
Proof.
  intros E Hheap Hmmap Hev Hop. unfold local_create_buffer in E.
  unfold bind at 1, alloc in E.
  destruct (heap_budget w) as [|b] eqn:Hb; [lia|].
  cbn [negb] in E. rewrite Hmmap in E. cbv zeta in E.
  destruct (Z.eqb_spec (call_ret (eventfd_outcome setup)) (-1));
    [contradiction|].
  destruct (Z.eqb_spec (call_ret (open_outcome setup)) (-1));
    [contradiction|].
  destruct (ioctl_nointr (ioctl_outcomes setup)) as [err|]; [|discriminate E].
  exists err.
  destruct (err =? 0) eqn:Herr.
  - unfold bind at 1, close, log, ret in E. unfold bind at 1 in E.
    eexists. eexists. split; [reflexivity|]. split; [reflexivity|].
    split; [|split; [|exact E]]; reflexivity.
  - unfold bind at 1, ret in E.
    eexists. eexists. split; [reflexivity|]. split; [reflexivity|].
    split; [|split; [|exact E]]; simpl; [now rewrite app_nil_r | reflexivity].
Qed.

Lemma ioctl_nointr_usual l e :
  Forall (fun o => (call_ret o = 0 \/ call_ret o = -1) /\ fails_with_errno o)
    l ->
  ioctl_nointr l = Some e -> e <= 0.
Proof.
  induction 1 as [|o l [Hret Herr] _ IH]; simpl; [discriminate|].
  destruct ((call_ret o =? -1) && (call_errno o =? C.EINTR)); [exact IH|].
  intros [= <-].
  destruct (Z.eqb_spec (call_ret o) (-1)) as [Hm | Hm].
  - specialize (Herr Hm). lia.
  - destruct Hret; lia.
Qed.

(** What a call of [local_create_buffer] with an index above 0 comes to. *)
Lemma local_create_buffer_indexed `{Externals} `{BufferExternals}
    dev idx mask setup w res mask' w' :
  0 < idx ->
  local_create_buffer dev idx mask setup w = Done (res, mask') w' ->
  mask' = mask
  /\ files w' = files w
  /\ (exists l, trace w' = trace w ++ l /\ forallb is_release l = true)
  /\ exists err,
       res = inl err
       /\ (reaches_ioctl w setup ->
           (ioctl_gave_fd setup = true -> err = - C.ENOSYS)
           /\ (ioctl_gave_fd setup = false ->
               ioctl_nointr (ioctl_outcomes setup) = Some err))
       /\ (usual_failures setup -> err < 0).
Proof.
  intros Hidx E.
  assert (Hgt : (idx >? 0) = true) by (apply Z.gtb_lt; lia).
  destruct (heap_budget w) as [|b] eqn:Hb.
  { unfold local_create_buffer, bind, alloc in E. rewrite Hb in E.
    injection E as <- <- <-.
    split; [reflexivity|]. split; [reflexivity|].
    split; [exists []; now rewrite app_nil_r|].
    eexists. split; [reflexivity|]. split.
    - intros (Hh & _). lia.
    - intros _. unfold C.ENOMEM. lia. }
  destruct (WITH_LOCAL_MMAP_API && negb (mmap_impl_err setup =? 0)) eqn:Hmmap.
  { unfold local_create_buffer, bind, alloc in E. rewrite Hb in E.
    cbn [negb] in E. rewrite Hmmap in E.
    unfold free, log, ret in E. injection E as <- <- <-.
    split; [reflexivity|]. split; [reflexivity|].
    split; [eexists; split; [reflexivity | reflexivity]|].
    eexists. split; [reflexivity|]. split.
    - intros (_ & Hm & _). congruence.
    - intros (Hm & _). apply andb_prop in Hmmap as [_ Hne].
      destruct (Z.eqb_spec (mmap_impl_err setup) 0); [discriminate | lia]. }
  destruct (Z.eqb_spec (call_ret (eventfd_outcome setup)) (-1)) as [Hev | Hev].
  { unfold local_create_buffer, bind, alloc in E. rewrite Hb in E.
    cbn [negb] in E. rewrite Hmmap in E. cbv zeta in E.
    rewrite Hev in E. change (-1 =? -1) with true in E.
    unfold free, log, ret in E. injection E as <- <- <-.
    split; [reflexivity|]. split; [reflexivity|].
    split; [eexists; split;
            [cbn [trace]; rewrite <- app_assoc; reflexivity | reflexivity]|].
    eexists. split; [reflexivity|]. split.
    - intros (_ & _ & Hne & _). contradiction.
    - intros (_ & He & _). specialize (He Hev). lia. }
  destruct (Z.eqb_spec (call_ret (open_outcome setup)) (-1)) as [Hop | Hop].
  { unfold local_create_buffer, bind, alloc in E. rewrite Hb in E.
    cbn [negb] in E. rewrite Hmmap in E. cbv zeta in E.
    destruct (Z.eqb_spec (call_ret (eventfd_outcome setup)) (-1));
      [contradiction|].
    rewrite Hop in E. change (-1 =? -1) with true in E.
    unfold close, free, log, ret in E. injection E as <- <- <-.
    split; [reflexivity|]. split; [reflexivity|].
    split; [eexists; split;
            [cbn [trace]; rewrite <- !app_assoc; reflexivity | reflexivity]|].
    eexists. split; [reflexivity|]. split.
    - intros (_ & _ & _ & Hne). contradiction.
    - intros (_ & _ & Ho & _). specialize (Ho Hop). lia. }
  destruct (local_create_buffer_opened dev idx mask setup w res mask' w' E
              ltac:(lia) Hmmap Hev Hop)
    as (err & w1 & fd & Hioctl & _ & Ht1 & Hf1 & E1).
  rewrite Hgt in E1.
  assert (Hrel : forallb is_release
                   (if err =? 0 then [AClose (call_ret (open_outcome setup))]
                    else []) = true)
    by (destruct (err =? 0); reflexivity).
  destruct (Z.eqb_spec err 0) as [Hz | Hnz]; cbn [negb andb] in E1.
  - (* the descriptor for the index is there; the buffer cannot be
       disabled *)
    cbv zeta in E1.
    apply bind_inv in E1 as (e & w2 & Edis & E1).
    assert (He : e = - C.ENOSYS /\ w2 = w1).
    { revert Edis. unfold local_do_enable_buffer, local_write_dev_attr.
      cbn [buf_idx]. rewrite Hgt. unfold bind, ret.
      change (C.to_int (- C.ENOSYS) <? 0) with true. cbv iota.
      intros [= <- <-]. split; reflexivity. }
    destruct He as [-> ->].
    change (- C.ENOSYS <? 0) with true in E1. cbv iota in E1.
    apply bind_inv in E1 as (r & w3 & Eclose & E1).
    rewrite err_close_done in Eclose. injection Eclose as <- <-.
    injection E1 as <- <- <-.
    split; [reflexivity|]. split; [exact Hf1|].
    split.
    { eexists. split; [cbn [trace]; rewrite Ht1, <- app_assoc; reflexivity|].
      rewrite forallb_app, Hrel. reflexivity. }
    eexists. split; [reflexivity|]. split.
    + intros _. split; [reflexivity|].
      unfold ioctl_gave_fd. rewrite Hioctl, Hz. discriminate.
    + intros _. unfold C.ENOSYS. lia.
  - apply bind_inv in E1 as (r & w3 & Eclose & E1).
    rewrite err_close_done in Eclose. injection Eclose as <- <-.
    injection E1 as <- <- <-.
    split; [reflexivity|]. split; [exact Hf1|].
    split.
    { eexists. split; [cbn [trace]; rewrite Ht1, <- app_assoc; reflexivity|].
      rewrite forallb_app, Hrel. reflexivity. }
    eexists. split; [reflexivity|]. split.
    + intros _. split; [|intros _; exact Hioctl].
      unfold ioctl_gave_fd. rewrite Hioctl.
      destruct (Z.eqb_spec err 0); [contradiction | discriminate].
    + intros (_ & _ & _ & Hu).
      pose proof (ioctl_nointr_usual _ _ Hu Hioctl). lia.
Qed.

(** C10.  With a buffer index above 0 the read and the write of a device
    attribute return [-ENOSYS] and leave the world as it was: no file is
    touched, whatever the name and the type of the attribute.  Whatever the
    index, a path these functions open was built for index 0, never with a
    "buffer%u" part.  So every access to an attribute with an index above 0
    fails with [-ENOSYS]: the write and the read of the enable file of a
    channel, and the writes of the length, the watermark and the enable
    attribute of the buffer.  (A channel without an enable file has no
    attribute to access: the guard of [channel_write_state] turns it away
    before the write, so the call fails as well and touches no file; and
    [local_create_buffer], the one function that calls it, does not get
    there with an index above 0: it fails without opening an attribute
    file.) *)
Theorem C10_indexed_attribute_access_is_ENOSYS
    (X : Externals) (dev : iio_device) (buf_id : Z) (attr src : string)
    (len : Z) (type : iio_attr_type) (w : World) :
  0 < buf_id ->
  local_read_dev_attr dev buf_id attr len type w = Done (- C.ENOSYS, None) w
  /\ local_write_dev_attr dev buf_id attr src len type w = Done (- C.ENOSYS) w
  /\ (forall idx r w' path mode,
        (local_write_dev_attr dev idx attr src len type w = Done r w'
         \/ exists dst,
             local_read_dev_attr dev idx attr len type w = Done (r, dst) w') ->
        In (AFopen path mode) (trace w') ->
        In (AFopen path mode) (trace w)
        \/ attr_path dev 0 attr type = Some path)
  /\ (forall chn en fn,
        enable_fn (pdata chn) = Some fn ->
        channel_write_state dev chn buf_id en w = Done (- C.ENOSYS) w
        /\ channel_read_state dev chn buf_id w = Done (- C.ENOSYS) w)
  /\ (forall pdata nb_samples enable,
        buf_idx pdata = buf_id ->
        local_set_buffer_size pdata nb_samples w = Done (- C.ENOSYS) w
        /\ local_set_watermark pdata nb_samples w = Done (- C.ENOSYS) w
        /\ local_do_enable_buffer pdata enable w = Done (- C.ENOSYS) w)
  /\ (forall chn en,
        exists r, channel_write_state dev chn buf_id en w = Done r w /\ r < 0)
  /\ (forall (B : BufferExternals) mask mask' setup res w',
        local_create_buffer dev buf_id mask setup w = Done (res, mask') w' ->
        files w' = files w
        /\ exists l, trace w' = trace w ++ l /\ forallb is_release l = true).
Proof.
  intros Hpos.
  assert (Hgt : (buf_id >? 0) = true) by (apply Z.gtb_lt; lia).
  split; [|split; [|split; [|split; [|split; [|split]]]]].
  - unfold local_read_dev_attr. now rewrite Hgt.
  - unfold local_write_dev_attr. now rewrite Hgt.
  - intros idx r w' path mode [Hw | [dst Hr]] Hin.
    + eapply local_write_dev_attr_opens; eauto.
    + eapply local_read_dev_attr_opens; eauto.
  - intros chn en fn Hfn. split.
    + unfold channel_write_state. rewrite Hfn.
      unfold bind, local_write_dev_attr. rewrite Hgt. reflexivity.
    + unfold channel_read_state. rewrite Hfn.
      unfold bind, local_read_dev_attr. rewrite Hgt. reflexivity.
  - intros pdata nb_samples enable Hidx.
    unfold local_set_buffer_size, local_set_watermark, local_do_enable_buffer,
      bind, local_write_dev_attr.
    rewrite Hidx, Hgt. repeat split.
  - intros chn en. unfold channel_write_state.
    destruct (enable_fn (pdata chn)) as [fn|].
    + unfold bind, local_write_dev_attr. rewrite Hgt.
      exists (- C.ENOSYS). split; [reflexivity|]. unfold C.ENOSYS. lia.
    + exists (- C.EINVAL). split; [reflexivity|]. unfold C.EINVAL. lia.
  - intros B mask mask' setup res w' E.
    destruct (local_create_buffer_indexed dev buf_id mask setup w res mask' w'
                Hpos E) as (_ & Hf & Ht & _).
    split; assumption.
Qed.

Section IndexedAccessExamples.

#[local] Existing Instance plain_build.

Lemma C10_indexed_attribute_access_is_ENOSYS_witness :
  local_read_dev_attr (bare_device "iio:device0" 1000) 1 "length" 2
    IIO_ATTR_TYPE_BUFFER (sysfs_world [])
  = Done (- C.ENOSYS, None) (sysfs_world [])
  /\ local_write_dev_attr (bare_device "iio:device0" 1000) 1 "length" "4" 2
       IIO_ATTR_TYPE_BUFFER (sysfs_world [])
     = Done (- C.ENOSYS) (sysfs_world [])
  /\ channel_write_state (bare_device "iio:device0" 1000)
       (bare_channel "voltage0" false
          (Some "scan_elements/in_voltage0_en"%string)) 1 true
       (sysfs_world [])
     = Done (- C.ENOSYS) (sysfs_world [])
  /\ local_do_enable_buffer (sample_buffer 1 false false) false
       (sysfs_world [])
     = Done (- C.ENOSYS) (sysfs_world []).
Proof.
  destruct (C10_indexed_attribute_access_is_ENOSYS plain_build
              (bare_device "iio:device0" 1000) 1 "length" "4" 2
              IIO_ATTR_TYPE_BUFFER (sysfs_world []) ltac:(lia))
    as (Hread & Hwrite & _ & Hchn & Hbuf & _).
  split; [exact Hread|]. split; [exact Hwrite|]. split.
  - exact (proj1 (Hchn (bare_channel "voltage0" false
                          (Some "scan_elements/in_voltage0_en"%string))
                    true _ eq_refl)).
  - exact (proj2 (proj2 (Hbuf (sample_buffer 1 false false) 4 false eq_refl))).
Defined.

(** The guard of [channel_write_state] comes before the write: a channel
    without an enable file is turned away with [-EINVAL], whatever the
    index. *)
Example enable_write_without_enable_file :
  channel_write_state (bare_device "iio:device0" 1000)
    (bare_channel "voltage0" false None) 1 true (sysfs_world [])
  = Done (- C.EINVAL) (sysfs_world []).
Proof. reflexivity. Qed.

End IndexedAccessExamples.

(** ** Enabling and freeing a buffer *)

Lemma lor_flags (a b : bool) : Z.lor (Z.b2z a) (Z.b2z b) = Z.b2z (a || b).
Proof. destruct a, b; reflexivity. Qed.

Lemma b2z_eqb (a b : bool) : (Z.b2z a =? Z.b2z b) = Bool.eqb a b.
Proof. destruct a, b; reflexivity. Qed.

(** A write of a buffer attribute, index 0, that goes through. *)
Lemma local_write_dev_attr_goes_through `{Externals} dev attr src len w f fs :
  files w = f :: fs ->
  write_goes_through f = true ->
  exists n w',
    local_write_dev_attr dev 0 attr src len IIO_ATTR_TYPE_BUFFER w = Done n w'
    /\ 0 < n < 2 ^ 31 /\ files w' = fs.
Proof.
  intros Hf Hok. unfold local_write_dev_attr. simpl.
  unfold bind, log, next_file. simpl. rewrite Hf.
  destruct f as [e | d n [e|]]; simpl in Hok; try discriminate.
  apply andb_prop in Hok as [Hlo Hhi].
  apply Z.ltb_lt in Hlo. apply Z.ltb_lt in Hhi. simpl.
  destruct (Z.eqb_spec n 0); [lia|].
  do 2 eexists. split; [reflexivity|]. split; [lia | reflexivity].
Qed.

(** A write of a buffer attribute, index 0, opens the file of the
    attribute first, whatever it meets then. *)
Lemma local_write_buffer_attr_runs `{Externals} dev attr src len w f fs :
  files w = f :: fs ->
  exists r w' l,
    local_write_dev_attr dev 0 attr src len IIO_ATTR_TYPE_BUFFER w = Done r w'
    /\ files w' = fs
    /\ trace w' = trace w ++ AFopen (buffer_attr_path dev attr) "we" :: l.
Proof.
  intros Hf. unfold local_write_dev_attr. simpl.
  unfold bind, log, next_file. simpl. rewrite Hf.
  destruct f as [e | d n fe]; simpl.
  - do 3 eexists. split; [reflexivity|]. split; reflexivity.
  - do 3 eexists. split; [reflexivity|]. split; [reflexivity|].
    simpl. rewrite <- !app_assoc. reflexivity.
Qed.

(** A write of a buffer attribute, index 0, that goes through: the
    calls. *)
Lemma local_write_buffer_attr_written `{Externals} dev attr src len w f fs :
  files w = f :: fs ->
  write_goes_through f = true ->
  exists n w',
    local_write_dev_attr dev 0 attr src len IIO_ATTR_TYPE_BUFFER w = Done n w'
    /\ 0 < n < 2 ^ 31 /\ files w' = fs
    /\ trace w'
       = trace w ++ [AFopen (buffer_attr_path dev attr) "we"; AFwrite src len;
                     AFclose].
Proof.
  intros Hf Hok. unfold local_write_dev_attr. simpl.
  unfold bind, log, next_file. simpl. rewrite Hf.
  destruct f as [e | d n [e|]]; simpl in Hok; try discriminate.
  apply andb_prop in Hok as [Hlo Hhi].
  apply Z.ltb_lt in Hlo. apply Z.ltb_lt in Hhi. simpl.
  destruct (Z.eqb_spec n 0); [lia|].
  do 2 eexists. split; [reflexivity|]. split; [lia|].
  split; [reflexivity|]. simpl. rewrite <- !app_assoc. reflexivity.
Qed.

Lemma local_set_buffer_size_runs `{Externals} pdata nb_samples w f fs :
  buf_idx pdata = 0 ->
  files w = f :: fs ->
  exists r w' l,
    local_set_buffer_size pdata nb_samples w = Done r w'
    /\ files w' = fs
    /\ trace w'
       = trace w
         ++ AFopen (buffer_attr_path (buf_dev pdata) "length") "we" :: l.
Proof.
  intros Hidx Hf. unfold local_set_buffer_size. rewrite Hidx.
  destruct (local_write_buffer_attr_runs (buf_dev pdata) "length"
              (CStr.snprintf 32 (CStr.decimal nb_samples))
              (Z.of_nat
                 (CStr.strlen (CStr.snprintf 32 (CStr.decimal nb_samples)))
               + 1) w f fs Hf) as (r & w' & l & E & Hf' & Ht).
  rewrite (bind_done _ _ _ _ _ E).
  destruct (r <? 0); eauto 6.
Qed.

Lemma local_set_watermark_runs `{Externals} pdata nb_samples w f fs :
  buf_idx pdata = 0 ->
  files w = f :: fs ->
  exists r w' l,
    local_set_watermark pdata nb_samples w = Done r w'
    /\ files w' = fs
    /\ trace w'
       = trace w
         ++ AFopen (buffer_attr_path (buf_dev pdata) "watermark") "we" :: l.
Proof.
  intros Hidx Hf. unfold local_set_watermark. rewrite Hidx.
  destruct (local_write_buffer_attr_runs (buf_dev pdata) "watermark"
              (CStr.snprintf 32 (CStr.decimal nb_samples))
              (Z.of_nat
                 (CStr.strlen (CStr.snprintf 32 (CStr.decimal nb_samples)))
               + 1) w f fs Hf) as (r & w' & l & E & Hf' & Ht).
  rewrite (bind_done _ _ _ _ _ E).
  destruct ((r <? 0) && negb (r =? - C.ENOENT) && negb (r =? - C.EACCES));
    eauto 6.
Qed.

Lemma local_do_enable_buffer_runs `{Externals} pdata enable w f fs :
  buf_idx pdata = 0 ->
  files w = f :: fs ->
  exists r w' l,
    local_do_enable_buffer pdata enable w = Done r w'
    /\ files w' = fs
    /\ trace w'
       = trace w
         ++ AFopen (buffer_attr_path (buf_dev pdata) "enable") "we" :: l.
Proof.
  intros Hidx Hf. unfold local_do_enable_buffer. rewrite Hidx.
  destruct (local_write_buffer_attr_runs (buf_dev pdata) "enable"
              (if enable then "1" else "0")%string 2 w f fs Hf)
    as (r & w' & l & E & Hf' & Ht).
  rewrite (bind_done _ _ _ _ _ E).
  destruct (C.to_int r <? 0); eauto 6.
Qed.

(** C1 (amended).  [local_enable_buffer] returns [-EINVAL] on entry, before
    any attribute is written, exactly when
    [(dmabuf_supported | mmap_supported) == (nb_samples != 0)] holds: a
    sample count other than 0 on a buffer with one of the two capabilities,
    or a count of 0 on a buffer with neither.  In the other two cases the
    call goes on to the attribute writes.  With a buffer index above 0 these
    are refused with [-ENOSYS].  With index 0 the call first opens an
    attribute file, the length for a count other than 0 and the enable
    attribute for a count of 0, whatever the writes meet then; and when the
    writes go through it returns 0 after exactly the writes of the length
    and the watermark (for a count other than 0 only) and of "1" to the
    enable attribute. *)
Theorem C1_enable_rejects_sized_backend_with_samples
    (X : Externals) (pdata : iio_buffer_pdata) (nb_samples : Z)
    (enable : bool) (w : World) :
  (sized_backend pdata = negb (nb_samples =? 0) ->
   local_enable_buffer pdata nb_samples enable w = Done (- C.EINVAL) w)
  /\ (sized_backend pdata = (nb_samples =? 0) ->
      (0 < buf_idx pdata ->
       local_enable_buffer pdata nb_samples enable w = Done (- C.ENOSYS) w)
      /\ (buf_idx pdata = 0 ->
          ((if (nb_samples =? 0)%Z then 1 else 3) <= List.length (files w))%nat ->
          exists r w' l,
            local_enable_buffer pdata nb_samples enable w = Done r w'
            /\ trace w'
               = trace w
                 ++ AFopen (buffer_attr_path (buf_dev pdata)
                              (if nb_samples =? 0 then "enable" else "length"))
                      "we" :: l)
      /\ (buf_idx pdata = 0 ->
          forall written rest,
            files w = written ++ rest ->
            List.length written = (if (nb_samples =? 0)%Z then 1 else 3)%nat ->
            forallb write_goes_through written = true ->
            exists w',
              local_enable_buffer pdata nb_samples enable w = Done 0 w'
              /\ files w' = rest
              /\ trace w'
                 = trace w ++ enable_writes (buf_dev pdata) nb_samples)).
Proof.
  unfold local_enable_buffer, sized_backend.
  rewrite lor_flags, b2z_eqb.
  split.
  - intros ->. destruct (nb_samples =? 0); reflexivity.
  - intros ->. rewrite eqb_reflx. cbn [negb].
    split; [|split].
    + intros Hpos.
      assert (Hgt : (buf_idx pdata >? 0) = true) by (apply Z.gtb_lt; lia).
      unfold local_set_buffer_size, local_do_enable_buffer,
        local_write_dev_attr.
      rewrite Hgt. destruct (nb_samples =? 0); reflexivity.
    + intros Hidx Hlen.
      destruct (nb_samples =? 0); cbn [negb].
      * destruct (files w) as [|f1 fs] eqn:Hfiles; [simpl in Hlen; lia|].
        destruct (local_do_enable_buffer_runs pdata true w f1 fs Hidx Hfiles)
          as (r & w1 & l & E & _ & Ht).
        rewrite (bind_done (ret 0) _ w 0 w eq_refl). cbn [Z.eqb negb].
        rewrite E. eauto.
      * destruct (files w) as [|f1 [|f2 [|f3 fs]]] eqn:Hfiles;
          try (simpl in Hlen; lia).
        destruct (local_set_buffer_size_runs pdata nb_samples w f1 _ Hidx
                    Hfiles) as (r1 & w1 & l1 & E1 & Hf1 & Ht1).
        destruct (local_set_watermark_runs pdata nb_samples w1 f2 _ Hidx Hf1)
          as (r2 & w2 & l2 & E2 & Hf2 & Ht2).
        assert (Einner : exists r w' l,
          (r <- local_set_buffer_size pdata nb_samples ;;
           if negb (r =? 0) then ret r
           else local_set_watermark pdata nb_samples) w = Done r w'
          /\ trace w'
             = trace w
               ++ AFopen (buffer_attr_path (buf_dev pdata) "length") "we" :: l
          /\ (r = 0 -> files w' = f3 :: fs)).
        { rewrite (bind_done _ _ _ _ _ E1).
          destruct (Z.eqb_spec r1 0) as [Hz | Hnz]; cbn [negb].
          - rewrite E2. do 3 eexists. split; [reflexivity|].
            split; [|intros _; exact Hf2].
            rewrite Ht2, Ht1, <- app_assoc. reflexivity.
          - do 3 eexists. split; [reflexivity|].
            split; [exact Ht1 | intros; contradiction]. }
        destruct Einner as (r & w' & l & E & Ht & Hf).
        rewrite (bind_done _ _ _ _ _ E).
        destruct (Z.eqb_spec r 0) as [Hz | Hnz]; cbn [negb].
        -- destruct (local_do_enable_buffer_runs pdata true w' f3 fs Hidx
                       (Hf Hz)) as (r3 & w3 & l3 & E3 & _ & Ht3).
           rewrite E3. do 3 eexists. split; [reflexivity|].
           rewrite Ht3, Ht, <- app_assoc. reflexivity.
        -- do 3 eexists. split; [reflexivity | exact Ht].
    + intros Hidx written rest Hfiles Hlen Hok.
      unfold local_set_buffer_size, local_set_watermark,
        local_do_enable_buffer, enable_writes. rewrite Hidx.
      destruct (nb_samples =? 0); cbn [negb].
      * destruct written as [|f1 [|f2 l]]; try discriminate Hlen.
        simpl in Hok. apply andb_prop in Hok as [Hok1 _].
        simpl in Hfiles.
        rewrite (bind_done (ret 0) _ w 0 w eq_refl). cbn [Z.eqb negb].
        destruct (local_write_buffer_attr_written (buf_dev pdata) "enable"
                    "1" 2 w f1 _ Hfiles Hok1) as (n & w1 & E & Hn & Hf & Ht).
        rewrite (bind_done _ _ _ _ _ E).
        rewrite to_int_id by lia.
        destruct (Z.ltb_spec n 0); [lia|].
        exists w1. split; [reflexivity|]. split; [exact Hf | exact Ht].
      * destruct written as [|f1 [|f2 [|f3 [|f4 l]]]]; try discriminate Hlen.
        simpl in Hok.
        apply andb_prop in Hok as [Hok1 Hok].
        apply andb_prop in Hok as [Hok2 Hok].
        apply andb_prop in Hok as [Hok3 _].
        simpl in Hfiles.
        set (buf := CStr.snprintf 32 (CStr.decimal nb_samples)).
        destruct (local_write_buffer_attr_written (buf_dev pdata) "length"
                    buf (Z.of_nat (CStr.strlen buf) + 1) w f1 _ Hfiles Hok1)
          as (n1 & w1 & E1 & Hn1 & Hw1 & Ht1).
        destruct (local_write_buffer_attr_written (buf_dev pdata) "watermark"
                    buf (Z.of_nat (CStr.strlen buf) + 1) w1 f2 _ Hw1 Hok2)
          as (n2 & w2 & E2 & Hn2 & Hw2 & Ht2).
        destruct (local_write_buffer_attr_written (buf_dev pdata) "enable"
                    "1" 2 w2 f3 _ Hw2 Hok3) as (n3 & w3 & E3 & Hn3 & Hw3 & Ht3).
        assert (L1 : (n1 <? 0) = false) by (apply Z.ltb_ge; lia).
        assert (L2 : (n2 <? 0) = false) by (apply Z.ltb_ge; lia).
        assert (L3 : (n3 <? 0) = false) by (apply Z.ltb_ge; lia).
        erewrite bind_done; cycle 1.
        { erewrite bind_done; cycle 1.
          { erewrite bind_done by exact E1. rewrite L1. reflexivity. }
          cbn [Z.eqb negb].
          erewrite bind_done by exact E2. rewrite L2. reflexivity. }
        cbn [Z.eqb negb].
        erewrite bind_done by exact E3.
        rewrite to_int_id by lia. rewrite L3.
        exists w3. split; [reflexivity|]. split; [exact Hw3|].
        rewrite Ht3, Ht2, Ht1. unfold attr_write.
        rewrite <- !app_assoc. reflexivity.
Qed.

(** C4 (amended).  [local_free_buffer] closes the data-path descriptor and
    the cancellation descriptor first and attempts the write of "0" to the
    enable attribute after that; the call ends the same way whatever the
    attempt meets.  With a buffer index above 0 the attempt touches no
    file. *)
Theorem C4_descriptors_closed_before_disable
    (X : Externals) (pdata : iio_buffer_pdata) (w : World) :
  (0 < buf_idx pdata ->
   exists w',
     local_free_buffer pdata w = Done tt w' /\
     trace w' = trace w
                ++ [AFree BackendPrivate; AClose (buf_fd pdata);
                    AClose (buf_cancel_fd pdata); AFree BufferPdata])
  /\ (buf_idx pdata <= 0 ->
      forall f fs,
        files w = f :: fs ->
        exists w',
          local_free_buffer pdata w = Done tt w' /\
          trace w' = trace w
                     ++ [AFree BackendPrivate; AClose (buf_fd pdata);
                         AClose (buf_cancel_fd pdata);
                         AFopen (enable_path (buf_dev pdata)) "we"]
                     ++ match f with
                        | FopenFailed _ => []
                        | Opened _ _ _ => [AFwrite "0" 2; AFclose]
                        end
                     ++ [AFree BufferPdata]).
Proof.
  unfold local_free_buffer, local_do_enable_buffer, local_write_dev_attr.
  split.
  - intros Hpos.
    assert (Hgt : (buf_idx pdata >? 0) = true) by (apply Z.gtb_lt; lia).
    rewrite Hgt. unfold bind, free, close, log, ret. simpl.
    eexists. split.
    + destruct (C.to_int (- C.ENOSYS) <? 0); reflexivity.
    + destruct (C.to_int (- C.ENOSYS) <? 0); simpl;
        rewrite <- !app_assoc; reflexivity.
  - intros Hzero f fs Hf.
    assert (Hgt : (buf_idx pdata >? 0) = false)
      by (rewrite Z.gtb_ltb; apply Z.ltb_ge; lia).
    rewrite Hgt. unfold attr_path. rewrite Hgt.
    unfold bind, free, close, log, next_file, ret. simpl. rewrite Hf.
    destruct f as [e | d n [e|]]; simpl;
      repeat match goal with
             | |- context [if ?c then _ else _] => destruct c
             end;
      eexists; (split; [reflexivity|]); simpl;
      rewrite <- !app_assoc; reflexivity.
Qed.

Section BufferExamples.

#[local] Existing Instance plain_build.

(** C1 as stated fails: a sample count of 4 on a buffer with the mmap
    capability satisfies the equation of the specification, and the call
    returns [-EINVAL]. *)
Lemma C1_samples_on_mmap_buffer_rejected :
  ~ enable_fails_unless_sized_iff_samples.
Proof.
  intros H.
  specialize (H plain_build (sample_buffer 0 false true) 4 true
                (sysfs_world []) (- C.EINVAL) ltac:(lia) eq_refl).
  destruct H as [H _]. apply (H eq_refl). reflexivity.
Qed.

(** The other side of the guard: a sample count of 4 on a buffer with
    neither capability is accepted, length, watermark and enable are
    written. *)
Example samples_on_stream_buffer_accepted :
  local_enable_buffer (sample_buffer 0 false false) 4 true
    (sysfs_world [Opened "" 2 None; Opened "" 2 None; Opened "" 2 None])
  = Done 0
      {| clock := fun _ => {| tv_sec := 0; tv_nsec := 0 |}; ticks := 0;
         polls := []; xfers := []; files := []; heap_budget := 0;
         trace :=
           [AFopen "/sys/bus/iio/devices/iio:device0/buffer/length" "we";
            AFwrite "4" 2; AFclose;
            AFopen "/sys/bus/iio/devices/iio:device0/buffer/watermark" "we";
            AFwrite "4" 2; AFclose;
            AFopen "/sys/bus/iio/devices/iio:device0/buffer/enable" "we";
            AFwrite "1" 2; AFclose] |}.
Proof. reflexivity. Qed.

(** C4 as stated fails: on teardown of a buffer with index 0 the first
    descriptor is closed (second action) before the enable attribute is
    opened (fourth action). *)
Lemma C4_close_precedes_disable :
  ~ (exists w',
       world_of (local_free_buffer (sample_buffer 0 false false)
                   (sysfs_world [Opened "1" 2 None])) = Some w'
       /\ disabled_before_closed (trace w')).
Proof.
  intros (w' & E & H).
  vm_compute in E. injection E as <-.
  vm_compute in H. lia.
Qed.

Example teardown_trace :
  world_of (local_free_buffer (sample_buffer 0 false false)
              (sysfs_world [Opened "1" 2 None]))
  = Some
      {| clock := fun _ => {| tv_sec := 0; tv_nsec := 0 |}; ticks := 0;
         polls := []; xfers := []; files := []; heap_budget := 0;
         trace :=
           [AFree BackendPrivate; AClose 3; AClose 4;
            AFopen "/sys/bus/iio/devices/iio:device0/buffer/enable" "we";
            AFwrite "0" 2; AFclose; AFree BufferPdata] |}.
Proof. reflexivity. Qed.

End BufferExamples.

(** ** The byte-stream fallback *)












(** A read that would block is made again after the next wait: the ten
    bytes that come then are the result. *)
Example read_again_after_would_block :
  value_of (local_readbuf (sample_buffer 0 false false) 10
              (streaming_world
                 [ready_outcome C.POLLIN; ready_outcome C.POLLIN]
                 [would_block; moved 10]))
  = Some 10.
Proof. reflexivity. Qed.

(** Four bytes of ten are read, then the wait expires: the read returns
    [-ETIMEDOUT]; then the wait fails with [EAGAIN]: it returns 4; then no
    byte comes from the ready descriptor: it returns [-EIO]. *)
Example read_then_timeout :
  value_of (local_readbuf (sample_buffer 0 false false) 10
              (streaming_world [ready_outcome C.POLLIN; expired_outcome]
                 [moved 4]))
  = Some (- C.ETIMEDOUT).
Proof. reflexivity. Qed.

Example read_then_again :
  value_of (local_readbuf (sample_buffer 0 false false) 10
              (streaming_world [ready_outcome C.POLLIN; again_outcome]
                 [moved 4]))
  = Some 4.
Proof. reflexivity. Qed.

Example read_then_nothing :
  value_of (local_readbuf (sample_buffer 0 false false) 10
              (streaming_world
                 [ready_outcome C.POLLIN; ready_outcome C.POLLIN]
                 [moved 4; moved 0]))
  = Some (- C.EIO).
Proof. reflexivity. Qed.


(** ** The type of a scan element *)

(** Reading, with index 0, a device attribute whose file opens and holds
    between 1 and 1023 bytes. *)
Lemma local_read_dev_attr_text `{Externals} dev path w data n fs :
  files w = Opened data n None :: fs ->
  (0 < CStr.strlen data < 1024)%nat ->
  exists w',
    local_read_dev_attr dev 0 path 1024 IIO_ATTR_TYPE_DEVICE w
    = Done (Z.of_nat (CStr.strlen data), Some (attribute_text data)) w'.
Proof.
  intros Hf Hlen. unfold local_read_dev_attr, attr_path. simpl.
  destruct (WITH_HWMON && iio_device_is_hwmon (dev_id dev));
    unfold bind, log, next_file; simpl; rewrite Hf; simpl;
    (destruct (Z.ltb_spec (Z.of_nat (CStr.strlen data)) 1024); [|lia]);
    rewrite Z.min_r by lia;
    (destruct (Z.gtb_spec (Z.of_nat (CStr.strlen data)) 0); [|lia]);
    (destruct (Z.eqb_spec (Z.of_nat (CStr.strlen data)) 0); [lia|]);
    eexists; unfold attribute_text;
    replace (Z.to_nat (Z.of_nat (CStr.strlen data) - 1))
      with (CStr.strlen data - 1)%nat by lia;
    reflexivity.
Qed.

Lemma fully_defined_fields f0 bits length repeat shift sign endian :
  is_fully_defined (set_format_fields f0 bits length repeat shift sign endian)
  = Ascii.eqb sign "S" || Ascii.eqb sign "U"
    || (format_bits (set_format_fields f0 bits length repeat shift sign endian)
        =? format_length
             (set_format_fields f0 bits length repeat shift sign endian)).
Proof. reflexivity. Qed.

(** The second [%c] of the two formats stores the sign letter. *)
Lemma sign_arg e s rest tail sign0 :
  Scanf.char_arg
    (Scanf.sscanf (String e (String "e" (String ":" (String s rest))))
       (Scanf.DChar :: Scanf.DLit "e" :: Scanf.DLit ":" :: Scanf.DChar
        :: tail))
    1 sign0
  = s.
Proof. reflexivity. Qed.

Lemma fully_defined_iff (s : ascii) (bits length : Z) :
  In s sign_letters ->
  (Ascii.eqb s "S" || Ascii.eqb s "U" || (bits =? length) = true
   <-> is_upper s = true \/ bits = length).
Proof.
  intros Hs. destruct (Z.eqb_spec bits length) as [Heq | Hne].
  - rewrite !orb_true_r. tauto.
  - rewrite orb_false_r.
    destruct Hs as [<- | [<- | [<- | [<- | []]]]]; cbn;
      intuition congruence.
Qed.

Lemma same_but_format_set chn f :
  with_scale f = with_scale (format chn) ->
  same_but_format chn (set_format chn f).
Proof. intros Hs. unfold same_but_format. simpl. tauto. Qed.

(** C6.  The handler of the scan-element attribute "type", on a file that
    opens and holds the text [buf] and one more byte, returns 0 and stores a
    format in the channel, the rest of which is left as it was: the text
    "le:s12/16>>4" gives little endianness, signed, 12 bits in 16, shift 4,
    repeat 1, not fully defined; "be:U16/16X4>>0" gives big endianness,
    unsigned, 16 bits in 16, shift 0, repeat 4, fully defined.  In general
    the repeat count is 1 when the text has no [X], and for a text that
    starts with an endianness letter, "e:" and one of the four sign letters
    the format is fully defined exactly when that letter is upper-case or the
    bits equal the length. *)
Theorem C6_scan_element_type
    (X : Externals) (dev : iio_device) (chn : iio_channel) (path : string)
    (endian0 sign0 : ascii) (w : World) (data : string) (n : Z)
    (fs : list stdio_outcome) :
  files w = Opened data n None :: fs ->
  (0 < CStr.strlen data < 1024)%nat ->
  exists chn' w',
    handle_protected_scan_element_attr dev chn "type" path endian0 sign0 w
    = Done (0, chn') w'
    /\ same_but_format chn chn'
    /\ (attribute_text data = "le:s12/16>>4"%string ->
        format chn'
        = {| format_length := 16; format_bits := 12; format_shift := 4;
             is_signed := true; is_fully_defined := false; is_be := false;
             with_scale := with_scale (format chn); format_repeat := 1 |})
    /\ (attribute_text data = "be:U16/16X4>>0"%string ->
        format chn'
        = {| format_length := 16; format_bits := 16; format_shift := 0;
             is_signed := false; is_fully_defined := true; is_be := true;
             with_scale := with_scale (format chn); format_repeat := 4 |})
    /\ (CStr.strchr (attribute_text data) "X" = None ->
        format_repeat (format chn') = 1)
    /\ (forall e s rest,
          attribute_text data
          = String e (String "e" (String ":" (String s rest))) ->
          In s sign_letters ->
          (is_fully_defined (format chn') = true
           <-> is_upper s = true
               \/ format_bits (format chn') = format_length (format chn'))).
Proof.
  intros Hf Hlen.
  destruct (local_read_dev_attr_text dev path w data n fs Hf Hlen) as (w' & E).
  unfold handle_protected_scan_element_attr.
  change (CStr.strcmp_eq "type" "index") with false.
  change (CStr.strcmp_eq "type" "type") with true. cbv iota.
  rewrite (bind_done _ _ _ _ _ E).
  rewrite to_int_id by lia.
  destruct (Z.gtb_spec (Z.of_nat (CStr.strlen data)) 0); [|lia].
  set (buf := attribute_text data).
  destruct (CStr.strchr buf "X") as [i|] eqn:HX.
  - eexists. exists w'. split; [reflexivity|].
    split; [apply same_but_format_set; reflexivity|].
    cbn [format set_format].
    split; [|split; [|split]].
    + intros Hb. rewrite Hb in HX. vm_compute in HX. discriminate HX.
    + intros Hb. rewrite Hb. reflexivity.
    + discriminate.
    + intros e s rest Hb Hs. rewrite fully_defined_fields.
      try subst buf. rewrite Hb.
      change (Scanf.parse_format "%ce:%c%u/%uX%u>>%u")
        with (Scanf.DChar :: Scanf.DLit "e" :: Scanf.DLit ":" :: Scanf.DChar
              :: Scanf.parse_format "%u/%uX%u>>%u").
      rewrite !sign_arg. now apply fully_defined_iff.
  - eexists. exists w'. split; [reflexivity|].
    split; [apply same_but_format_set; reflexivity|].
    cbn [format set_format].
    split; [|split; [|split]].
    + intros Hb. rewrite Hb. reflexivity.
    + intros Hb. rewrite Hb in HX. vm_compute in HX. discriminate HX.
    + reflexivity.
    + intros e s rest Hb Hs. rewrite fully_defined_fields.
      try subst buf. rewrite Hb.
      change (Scanf.parse_format "%ce:%c%u/%u>>%u")
        with (Scanf.DChar :: Scanf.DLit "e" :: Scanf.DLit ":" :: Scanf.DChar
              :: Scanf.parse_format "%u/%u>>%u").
      rewrite !sign_arg. now apply fully_defined_iff.
Qed.

Section ScanElementExamples.

#[local] Existing Instance plain_build.

Lemma C6_scan_element_type_witness :
  exists chn' w',
    handle_protected_scan_element_attr (bare_device "iio:device0" 1000)
      (bare_channel "voltage0" false None) "type"
      "scan_elements/in_voltage0_type" "?" "?"
      (sysfs_world [Opened (line "le:s12/16>>4") 0 None])
    = Done (0, chn') w'
    /\ format chn'
       = {| format_length := 16; format_bits := 12; format_shift := 4;
            is_signed := true; is_fully_defined := false; is_be := false;
            with_scale := false; format_repeat := 1 |}.
Proof.
  destruct (C6_scan_element_type plain_build (bare_device "iio:device0" 1000)
              (bare_channel "voltage0" false None)
              "scan_elements/in_voltage0_type" "?" "?"
              (sysfs_world [Opened (line "le:s12/16>>4") 0 None])
              (line "le:s12/16>>4") 0 [] eq_refl)
    as (chn' & w' & E & _ & Hle & _).
  - simpl. lia.
  - exists chn', w'. split; [exact E | apply Hle; reflexivity].
Defined.

Example type_be_U16_16X4_0 :
  value_of
    (handle_protected_scan_element_attr (bare_device "iio:device0" 1000)
       (bare_channel "voltage0" false None) "type"
       "scan_elements/in_voltage0_type" "?" "?"
       (sysfs_world [Opened (line "be:U16/16X4>>0") 0 None]))
  = Some (0, set_format (bare_channel "voltage0" false None)
               {| format_length := 16; format_bits := 16; format_shift := 0;
                  is_signed := false; is_fully_defined := true; is_be := true;
                  with_scale := false; format_repeat := 4 |}).
Proof. reflexivity. Qed.

End ScanElementExamples.

(** ** Global attributes *)

(** An attribute without the prefix of the direction of the channel is no
    global attribute of it. *)
Lemma is_global_attr_needs_prefix `{Externals} chn attr :
  CStr.strncmp_eq attr "in_" 3 = false ->
  CStr.strncmp_eq attr "out_" 4 = false ->
  is_global_attr chn attr = 0.
Proof.
  intros Hin Hout. unfold is_global_attr. rewrite Hin, Hout.
  now rewrite !andb_false_r.
Qed.

Lemma is_channel_needs_prefix `{Externals} dev attr strict :
  WITH_HWMON && iio_device_is_hwmon (dev_id dev) = false ->
  CStr.strncmp_eq attr "in_" 3 = false ->
  CStr.strncmp_eq attr "out_" 4 = false ->
  is_channel dev attr strict = false.
Proof.
  intros Hhw Hin Hout. unfold is_channel. rewrite Hhw, Hin, Hout.
  assert (Hts : CStr.strncmp_eq attr "in_timestamp_" 13 = false).
  { destruct attr as [|a [|b [|c r]]]; cbn in Hin |- *;
      repeat match goal with
             | H : context [Ascii.eqb ?x ?y] |- _ => destruct (Ascii.eqb x y)
             | |- context [Ascii.eqb ?x ?y] => destruct (Ascii.eqb x y)
             end;
      try reflexivity; congruence. }
  now rewrite Hts.
Qed.

Lemma set_channels_same dev : set_channels dev (channels dev) = dev.
Proof. now destruct dev. Qed.

(** No channel is at [level] for the attribute: the loop moves nothing. *)
Lemma detect_global_attr_in_none `{Externals} dev attr level matched w :
  forall l,
    (forall chn, In chn l -> (is_global_attr chn attr =? level) = false) ->
    detect_global_attr_in dev l attr level matched w = Done (0, matched, l) w.
Proof.
  induction l as [|chn l IH]; intros Hnone; [reflexivity|].
  cbn [detect_global_attr_in].
  rewrite (Hnone chn (or_introl eq_refl)).
  rewrite (bind_done _ _ _ _ _ (IH (fun c Hc => Hnone c (or_intror Hc)))).
  reflexivity.
Qed.

Lemma detect_global_attr_none `{Externals} dev attr level w :
  (forall chn, In chn (channels dev) ->
               (is_global_attr chn attr =? level) = false) ->
  detect_global_attr dev attr level w = Done (0, false, dev) w.
Proof.
  intros Hnone. unfold detect_global_attr.
  rewrite (bind_done _ _ _ _ _
             (detect_global_attr_in_none dev attr level false w _ Hnone)).
  cbn. now rewrite set_channels_same.
Qed.

(** Neither voltage0 nor voltage1 takes voltage0-voltage1_raw, and the name
    is no channel attribute: the pass changes nothing. *)
Lemma undirected_pair_attr_stays `{Externals} w :
  WITH_HWMON && iio_device_is_hwmon "iio:device0" = false ->
  detect_and_move_global_attrs (two_voltages "voltage0-voltage1_raw") w
  = Done (0, two_voltages "voltage0-voltage1_raw") w.
Proof.
  intros Hhw.
  set (dev := two_voltages "voltage0-voltage1_raw").
  assert (Hnone : forall level chn,
             In chn (channels dev) ->
             level <> 0 ->
             (is_global_attr chn "voltage0-voltage1_raw" =? level) = false).
  { intros level chn _ Hl.
    rewrite is_global_attr_needs_prefix by reflexivity.
    apply Z.eqb_neq. congruence. }
  assert (E1 : move_global_attrs dev ["voltage0-voltage1_raw"%string] w
               = Done (0, dev, [Some "voltage0-voltage1_raw"%string]) w).
  { cbn [move_global_attrs].
    rewrite (bind_done _ _ _ _ _
               (detect_global_attr_none dev _ 2 w
                  (fun c Hc => Hnone 2 c Hc ltac:(discriminate)))).
    cbn [negb Z.eqb].
    rewrite (bind_done _ _ _ _ _
               (detect_global_attr_none dev _ 1 w
                  (fun c Hc => Hnone 1 c Hc ltac:(discriminate)))).
    reflexivity. }
  assert (E2 : move_bare_channels dev [Some "voltage0-voltage1_raw"%string] w
               = Done (0, dev, [Some "voltage0-voltage1_raw"%string]) w).
  { cbn [move_bare_channels].
    rewrite is_channel_needs_prefix by (auto; reflexivity).
    reflexivity. }
  unfold detect_and_move_global_attrs.
  change (dev_attrs dev) with ["voltage0-voltage1_raw"%string].
  rewrite (bind_done _ _ _ _ _ E1). cbn [negb Z.eqb].
  rewrite (bind_done _ _ _ _ _ E2). reflexivity.
Qed.

(** C7 (amended).  In a build without hwmon support (or for a device that
    is no hwmon device), with the channels voltage0 and voltage1 known: the
    device-level attribute voltage0-voltage1_raw is a global attribute of
    neither channel (it lacks the "in_" prefix; and in_voltage0-voltage1_raw
    is none either, the differential case needs a dash in the id of the
    channel), and the detection pass leaves the device as it is, the
    attribute in the device-level list.  With the differential channel
    voltage0-voltage1 known, the device-level attribute
    in_voltage-voltage_scale is a shared attribute (1) of it, and the pass
    moves it to that channel and removes it from the device-level list
    (scale being no name of the table of modifiers, as in the library). *)
Theorem C7_differential_attr_needs_differential_channel
    (X : Externals) (w : World) :
  WITH_HWMON && iio_device_is_hwmon "iio:device0" = false ->
  find_channel_modifier "scale" = None ->
  (3 <= heap_budget w)%nat ->
  (forall chn, is_global_attr chn "voltage0-voltage1_raw" = 0)
  /\ is_global_attr (bare_channel "voltage0" false None)
       "in_voltage0-voltage1_raw" = 0
  /\ is_global_attr (bare_channel "voltage1" false None)
       "in_voltage0-voltage1_raw" = 0
  /\ detect_and_move_global_attrs (two_voltages "voltage0-voltage1_raw") w
     = Done (0, two_voltages "voltage0-voltage1_raw") w
  /\ is_global_attr (bare_channel "voltage0-voltage1" false None)
       "in_voltage-voltage_scale" = 1
  /\ exists dev' w',
       detect_and_move_global_attrs
         (differential_pair "in_voltage-voltage_scale") w
       = Done (0, dev') w'
       /\ moved_to_channels dev' "in_voltage-voltage_scale"
            ["voltage0-voltage1"%string]
       /\ dev_attrs dev' = [].
Proof.
  intros Hhw Hscale Hheap.
  split; [|split; [|split; [|split; [|split]]]].
  - intros chn. now apply is_global_attr_needs_prefix.
  - reflexivity.
  - reflexivity.
  - now apply undirected_pair_attr_stays.
  - reflexivity.
  - set (dev := differential_pair "in_voltage-voltage_scale").
    set (chn := bare_channel "voltage0-voltage1" false None).
    assert (Eadd : exists name w',
               add_attr_to_channel dev chn "in_voltage-voltage_scale"
                 "in_voltage-voltage_scale" false w
               = Done (0, set_attrs chn
                            [{| attr_name := name;
                                attr_filename := "in_voltage-voltage_scale" |}])
                   w').
    { unfold add_attr_to_channel, get_short_attr_name.
      change (dev_id dev) with "iio:device0"%string.
      rewrite Hhw.
      destruct (heap_budget w) as [|[|[|b]]] eqn:Hb; try lia.
      cbn. rewrite Hscale.
      cbn; unfold bind, iio_strdup, alloc, bind, ret; cbn; rewrite Hb; cbn;
        do 2 eexists; reflexivity. }
    destruct Eadd as (name & w' & Eadd).
    set (chn' := set_attrs chn
                   [{| attr_name := name;
                       attr_filename := "in_voltage-voltage_scale" |}]) in *.
    assert (E1 : move_global_attrs dev ["in_voltage-voltage_scale"%string] w
                 = Done (0, set_channels dev [chn'], [None]) w').
    { cbn [move_global_attrs].
      rewrite (bind_done _ _ _ _ _
                 (detect_global_attr_none dev "in_voltage-voltage_scale" 2 w
                    ltac:(intros c [<- | []]; reflexivity))).
      cbn [negb Z.eqb].
      unfold detect_global_attr.
      change (channels dev) with [chn].
      cbn [detect_global_attr_in].
      change (is_global_attr chn "in_voltage-voltage_scale") with 1.
      cbn [Z.eqb Pos.eqb].
      unfold bind. rewrite Eadd.
      reflexivity. }
    unfold detect_and_move_global_attrs.
    change (dev_attrs dev) with ["in_voltage-voltage_scale"%string].
    rewrite (bind_done _ _ _ _ _ E1). cbn [negb Z.eqb].
    do 2 eexists. split; [reflexivity|]. split; [|reflexivity].
    split; [intros []|].
    intros id [<- | []].
    exists chn'. eexists.
    split; [left; reflexivity|]. split; [reflexivity|].
    split; [left; reflexivity | reflexivity].
Qed.

Lemma C7_differential_attr_needs_differential_channel_witness :
  @detect_and_move_global_attrs plain_build
    (two_voltages "voltage0-voltage1_raw")
    (quiet_world (fun _ => {| tv_sec := 0; tv_nsec := 0 |}) 3)
  = Done (0, two_voltages "voltage0-voltage1_raw")
      (quiet_world (fun _ => {| tv_sec := 0; tv_nsec := 0 |}) 3).
Proof.
  exact (proj1 (proj2 (proj2 (proj2
           (C7_differential_attr_needs_differential_channel plain_build
              (quiet_world (fun _ => {| tv_sec := 0; tv_nsec := 0 |}) 3)
              eq_refl eq_refl (le_n 3)))))).
Defined.

(** C7 as stated fails: with the channels voltage0 and voltage1 known, in
    no build without hwmon support and in no world does the pass move the
    device-level attribute voltage0-voltage1_raw to the two channels. *)
Lemma C7_pair_attr_is_not_moved :
  ~ (exists (X : Externals) (w : World) dev' w',
       WITH_HWMON && iio_device_is_hwmon "iio:device0" = false
       /\ detect_and_move_global_attrs
            (two_voltages "voltage0-voltage1_raw") w
          = Done (0, dev') w'
       /\ moved_to_channels dev' "voltage0-voltage1_raw"
            ["voltage0"%string; "voltage1"%string]).
Proof.
  intros (X & w & dev' & w' & Hhw & E & Hnot & _).
  rewrite (undirected_pair_attr_stays w Hhw) in E.
  injection E as <- _. apply Hnot. left. reflexivity.
Qed.

Section GlobalAttrExamples.

#[local] Existing Instance plain_build.

(** With its direction prefix the name makes a channel of its own,
    voltage0-voltage1; voltage0 and voltage1 still do not take it. *)
Example directed_pair_attr_makes_a_channel :
  value_of (detect_and_move_global_attrs
              (two_voltages "in_voltage0-voltage1_raw")
              (quiet_world (fun _ => {| tv_sec := 0; tv_nsec := 0 |}) 16))
  = Some (0,
          device_with "iio:device0"
            [bare_channel "voltage0" false None;
             bare_channel "voltage1" false None;
             set_attrs (bare_channel "voltage0-voltage1" false None)
               [{| attr_name := "raw";
                   attr_filename := "in_voltage0-voltage1_raw" |}]]
            []).
Proof. reflexivity. Qed.

End GlobalAttrExamples.

(** ** Folding of the common prefix *)

Lemma advance_length s n :
  CStr.strlen (CStr.advance s n) = (CStr.strlen s - n)%nat.
Proof.
  revert s. induction n as [|n IH]; intros [|c s]; simpl; auto.
Qed.

Lemma take_length s n :
  (n <= CStr.strlen s)%nat -> CStr.strlen (CStr.take s n) = n.
Proof.
  revert s. induction n as [|n IH]; intros [|c s] H; simpl in *; auto; try lia.
  rewrite IH; lia.
Qed.

Lemma char_at_advance s n i :
  CStr.char_at (CStr.advance s n) i = CStr.char_at s (n + i).
Proof.
  revert s. induction n as [|n IH]; intros [|c s]; simpl; auto.
Qed.

(** [strchr] finds the first occurrence. *)
Lemma strchr_some s c i :
  CStr.strchr s c = Some i ->
  (i < CStr.strlen s)%nat /\ CStr.char_at s i = c
  /\ forall j, (j < i)%nat -> CStr.char_at s j <> c.
Proof.
  revert i. induction s as [|x s IH]; intros i; simpl; [discriminate|].
  destruct (Ascii.eqb_spec x c) as [-> | Hne].
  - intros [= <-]. repeat split; [lia | intros j Hj; lia].
  - destruct (CStr.strchr s c) as [k|]; [|discriminate].
    intros [= <-]. destruct (IH k eq_refl) as (Hlt & Hat & Hfirst).
    repeat split; [lia | exact Hat |].
    intros [|j] Hj; simpl; [exact Hne | apply Hfirst; lia].
Qed.

Lemma strchr_none s c :
  CStr.strchr s c = None ->
  forall j, (j < CStr.strlen s)%nat -> CStr.char_at s j <> c.
Proof.
  induction s as [|x s IH]; simpl; intros H j Hj; [lia|].
  destruct (Ascii.eqb_spec x c) as [-> | Hne]; [discriminate|].
  destruct (CStr.strchr s c); [discriminate|].
  destruct j as [|j]; simpl; [exact Hne | apply IH; auto; lia].
Qed.

(** Strings that agree on [k] characters agree on fewer. *)
Lemma strncmp_eq_le a b k j :
  CStr.strncmp_eq a b k = true -> (j <= k)%nat -> CStr.strncmp_eq a b j = true.
Proof.
  revert a b j. induction k as [|k IH]; intros a b j H Hj.
  - replace j with O by lia. reflexivity.
  - destruct j as [|j]; [reflexivity|].
    destruct a as [|x a], b as [|y b]; simpl in *; try discriminate; auto.
    destruct (Ascii.eqb x y); [|discriminate].
    apply IH with (j := j) in H; [exact H | lia].
Qed.

Lemma strncmp_eq_refl a k : CStr.strncmp_eq a a k = true.
Proof.
  revert a. induction k as [|k IH]; intros [|x a]; simpl; auto.
  now rewrite Ascii.eqb_refl.
Qed.

Lemma append_length q r :
  String.length (q ++ r) = (String.length q + String.length r)%nat.
Proof. induction q as [|x q IH]; simpl; auto. Qed.

Lemma take_append p r : CStr.take (p ++ r) (String.length p) = p.
Proof. induction p as [|x p IH]; simpl; [reflexivity | now rewrite IH]. Qed.

Lemma advance_append p r : CStr.advance (p ++ r) (String.length p) = r.
Proof. induction p as [|x p IH]; simpl; auto. Qed.

Lemma take_advance s k : (CStr.take s k ++ CStr.advance s k)%string = s.
Proof.
  revert s. induction k as [|k IH]; intros [|x s]; simpl; auto.
  now rewrite IH.
Qed.

(** Within the length of [a], agreeing on [k] characters is having the
    first [k] characters of [a] as a prefix. *)
Lemma strncmp_eq_is_prefix a b k :
  (k <= CStr.strlen a)%nat ->
  (CStr.strncmp_eq a b k = true <-> is_prefix (CStr.take a k) b).
Proof.
  revert a b. induction k as [|k IH]; intros a b Hk.
  - simpl. split; [intros _; exists b; reflexivity | reflexivity].
  - destruct a as [|x a]; [simpl in Hk; lia|].
    simpl in Hk. specialize (IH a).
    destruct b as [|y b]; simpl.
    + split; [discriminate | intros [r Hr]; discriminate].
    + destruct (Ascii.eqb_spec x y) as [-> | Hne].
      * rewrite (IH b) by lia. split; intros [r Hr]; exists r.
        -- now rewrite Hr.
        -- now injection Hr.
      * split; [discriminate | intros [r Hr]; injection Hr; congruence].
Qed.

Lemma is_prefix_take p n :
  is_prefix p n -> p = CStr.take n (String.length p).
Proof. intros [r ->]. now rewrite take_append. Qed.

Lemma is_prefix_advance p n :
  is_prefix p n -> n = (p ++ CStr.advance n (String.length p))%string.
Proof. intros [r ->]. now rewrite advance_append. Qed.

Lemma is_prefix_length p n :
  is_prefix p n -> (String.length p <= String.length n)%nat.
Proof. intros [r ->]. rewrite append_length. lia. Qed.

(** The first [k + 1] characters are the first [k] and the one at [k]. *)
Lemma take_succ s k :
  (k < CStr.strlen s)%nat ->
  CStr.take s (S k)
  = (CStr.take s k ++ String (CStr.char_at s k) EmptyString)%string.
Proof.
  revert s. induction k as [|k IH]; intros [|x s] H; simpl in *; try lia.
  - reflexivity.
  - f_equal. apply IH. lia.
Qed.

Lemma char_at_append_end q c :
  CStr.char_at (q ++ String c EmptyString) (String.length q) = c.
Proof. induction q as [|x q IH]; simpl; auto. Qed.

Lemma char_at_take s k i :
  (i < k)%nat -> CStr.char_at (CStr.take s k) i = CStr.char_at s i.
Proof.
  revert s i. induction k as [|k IH]; intros s i H; [lia|].
  destruct s as [|x s]; simpl; [reflexivity|].
  destruct i as [|i]; [reflexivity|]. apply IH. lia.
Qed.

Lemma can_fix_le chn attr0 k j :
  can_fix chn attr0 k = true -> (j <= k)%nat -> can_fix chn attr0 j = true.
Proof.
  unfold can_fix. intros H Hj.
  apply andb_prop in H as [H1 H2].
  apply andb_true_intro. split.
  - rewrite forallb_forall in *. intros a Ha.
    eapply strncmp_eq_le; eauto.
  - rewrite forallb_forall in *. intros a Ha.
    eapply strncmp_eq_le; eauto.
Qed.

(** The loop ends with the greatest accepted length, or with 0 when there
    is none. *)
Lemma prefix_loop_greatest chn attr0 :
  forall fuel ptr prefix_len,
    (CStr.strlen attr0 - ptr < fuel)%nat ->
    (ptr <= CStr.strlen attr0)%nat ->
    (prefix_len = O \/ accepted_length chn attr0 prefix_len) ->
    (forall k, accepted_length chn attr0 k -> (k <= ptr)%nat ->
               (k <= prefix_len)%nat) ->
    (prefix_loop fuel chn attr0 ptr prefix_len = O
     \/ accepted_length chn attr0 (prefix_loop fuel chn attr0 ptr prefix_len))
    /\ forall k, accepted_length chn attr0 k ->
                 (k <= prefix_loop fuel chn attr0 ptr prefix_len)%nat.
Proof.
  induction fuel as [|fuel IH]; intros ptr pl Hfuel Hptr Hpl Hbelow; [lia|].
  cbn [prefix_loop].
  destruct (CStr.strchr (CStr.advance attr0 ptr) "_") as [i|] eqn:Hchr.
  - apply strchr_some in Hchr as (Hi & Hat & Hfirst).
    rewrite advance_length in Hi. rewrite char_at_advance in Hat.
    destruct (can_fix chn attr0 (ptr + i + 1)) eqn:Hfix.
    + apply IH; try lia.
      right. repeat split; try lia; auto.
      replace (ptr + i + 1 - 1)%nat with (ptr + i)%nat by lia. exact Hat.
    + split; [exact Hpl|].
      intros k Hk.
      destruct (Nat.le_gt_cases k ptr) as [Hle | Hgt]; [now apply Hbelow|].
      destruct Hk as ((Hk1 & Hk2) & Hus & Hok).
      destruct (Nat.le_gt_cases (ptr + i + 1) k) as [Hfar | Hnear].
      * rewrite (can_fix_le _ _ _ _ Hok Hfar) in Hfix. discriminate.
      * exfalso. apply (Hfirst (k - 1 - ptr)%nat); [lia|].
        rewrite char_at_advance.
        replace (ptr + (k - 1 - ptr))%nat with (k - 1)%nat by lia.
        exact Hus.
  - split; [exact Hpl|].
    intros k Hk.
    destruct (Nat.le_gt_cases k ptr) as [Hle | Hgt]; [now apply Hbelow|].
    destruct Hk as ((Hk1 & Hk2) & Hus & Hok).
    exfalso.
    apply (strchr_none _ _ Hchr (k - 1 - ptr)%nat).
    + rewrite advance_length. lia.
    + rewrite char_at_advance.
      replace (ptr + (k - 1 - ptr))%nat with (k - 1)%nat by lia.
      exact Hus.
Qed.

Lemma forallb_names (f : string -> bool) (l : list iio_channel_attr) :
  forallb (fun a => f (attr_name a)) l = true
  <-> forall n, In n (map attr_name l) -> f n = true.
Proof.
  rewrite forallb_forall. split.
  - intros H n Hn. apply in_map_iff in Hn as (a & <- & Ha). auto.
  - intros H a Ha. apply H. now apply in_map.
Qed.

(** The loop compares the first name with all the other names. *)
Lemma can_fix_all_names chn k :
  (2 <= List.length (all_names chn))%nat ->
  (can_fix chn (first_name chn) k = true
   <-> forall n, In n (all_names chn) ->
                 CStr.strncmp_eq (first_name chn) n k = true).
Proof.
  unfold can_fix, first_name, all_names. intros Hlen.
  rewrite andb_true_iff.
  rewrite (forallb_names (fun n => CStr.strncmp_eq _ n k)).
  rewrite (forallb_names (fun n => CStr.strncmp_eq _ n k)).
  destruct (attrs chn) as [|a l].
  - destruct (protected_attrs (pdata chn)) as [|a l];
      [simpl in Hlen; lia|].
    simpl. split.
    + intros [_ H] n [<- | Hn]; [apply strncmp_eq_refl | auto].
    + intros H. split; [intros n []|]. intros n Hn. apply H. now right.
  - simpl. split.
    + intros [H1 H2] n [<- | Hn]; [apply strncmp_eq_refl|].
      apply in_app_or in Hn as [Hn | Hn]; auto.
    + intros H. split; intros n Hn; apply H; right; apply in_or_app; auto.
Qed.

Lemma first_name_in chn :
  (2 <= List.length (all_names chn))%nat ->
  In (first_name chn) (all_names chn).
Proof.
  unfold first_name, all_names. intros Hlen.
  destruct (attrs chn) as [|a l]; [|now left].
  destruct (protected_attrs (pdata chn)) as [|a l]; [simpl in Hlen; lia|].
  now left.
Qed.

(** An accepted length is the length of a common prefix of the names that
    ends in an underscore, and the other way round. *)
Lemma accepted_length_prefix chn k :
  (2 <= List.length (all_names chn))%nat ->
  accepted_length chn (first_name chn) k ->
  ends_with_underscore (CStr.take (first_name chn) k)
  /\ common_prefix (CStr.take (first_name chn) k) (all_names chn)
  /\ String.length (CStr.take (first_name chn) k) = k.
Proof.
  intros Hlen ((Hk1 & Hk2) & Hus & Hfix).
  split; [|split].
  - exists (CStr.take (first_name chn) (k - 1)).
    replace k with (S (k - 1)) at 1 by lia.
    rewrite take_succ by (unfold CStr.strlen in *; lia).
    now rewrite Hus.
  - intros n Hn. apply strncmp_eq_is_prefix; [exact Hk2|].
    now apply (can_fix_all_names chn k Hlen).
  - now apply take_length.
Qed.

Lemma prefix_accepted_length chn q :
  (2 <= List.length (all_names chn))%nat ->
  ends_with_underscore q ->
  common_prefix q (all_names chn) ->
  accepted_length chn (first_name chn) (String.length q).
Proof.
  intros Hlen [q' ->] Hcommon.
  pose proof (Hcommon _ (first_name_in chn Hlen)) as Hfirst.
  pose proof (is_prefix_length _ _ Hfirst) as Hle.
  pose proof (is_prefix_take _ _ Hfirst) as Htake.
  rewrite append_length in *. simpl in *.
  split; [unfold CStr.strlen; lia|]. split.
  - replace (String.length q' + 1 - 1)%nat with (String.length q') by lia.
    rewrite <- (char_at_take _ (String.length q' + 1)) by lia.
    rewrite <- Htake. apply char_at_append_end.
  - apply (can_fix_all_names chn _ Hlen). intros n Hn.
    apply strncmp_eq_is_prefix; [unfold CStr.strlen; lia|].
    rewrite <- Htake. now apply Hcommon.
Qed.

Lemma append_underscore_inj q q' :
  (q ++ "_")%string = (q' ++ "_")%string -> q = q'.
Proof.
  revert q'. induction q as [|x q IH]; intros [|y q'] H; simpl in H.
  - reflexivity.
  - injection H as _ H. destruct q'; discriminate.
  - injection H as _ H. destruct q; discriminate.
  - injection H as -> H. f_equal. now apply IH.
Qed.

(** Cutting the common prefix off the names and putting it back. *)
Lemma cut_names_back p (l : list iio_channel_attr) :
  (forall a, In a l -> is_prefix p (attr_name a)) ->
  l = map (with_prefix p) (map (cut_name (String.length p)) l).
Proof.
  intros Hp. rewrite map_map. rewrite <- (map_id l) at 1.
  apply map_ext_in. intros a Ha.
  unfold with_prefix, cut_name, CStr.strcut. simpl.
  rewrite <- (is_prefix_advance _ _ (Hp a Ha)). now destruct a.
Qed.

(** The folding step, on a channel with two attributes or more. *)
Lemma set_channel_name_folds (chn : iio_channel) (w : World) :
  (2 <= List.length (all_names chn))%nat ->
  (1 <= heap_budget w)%nat ->
  exists p chn' w',
    set_channel_name chn w = Done (0, chn') w'
    /\ longest_common_underscore_prefix p (all_names chn)
    /\ (p = EmptyString -> chn' = chn)
    /\ (forall q,
          p = (q ++ "_")%string ->
          chn_name chn' = Some q
          /\ attrs chn = map (with_prefix p) (attrs chn')
          /\ protected_attrs (pdata chn)
             = map (with_prefix p) (protected_attrs (pdata chn'))
          /\ enable_fn (pdata chn') = enable_fn (pdata chn)
          /\ chn_id chn' = chn_id chn
          /\ is_output chn' = is_output chn
          /\ is_scan_element chn' = is_scan_element chn
          /\ index chn' = index chn
          /\ format chn' = format chn).
Proof.
  intros Hlen Hheap.
  unfold set_channel_name.
  assert (Hcount : (List.length (attrs chn)
                    + List.length (protected_attrs (pdata chn)) <? 2)%nat
                   = false).
  { apply Nat.ltb_ge. unfold all_names in Hlen.
    rewrite length_app, !length_map in Hlen. exact Hlen. }
  rewrite Hcount.
  change (match attrs chn with
          | a :: _ => attr_name a
          | [] => match protected_attrs (pdata chn) with
                  | a :: _ => attr_name a
                  | [] => EmptyString
                  end
          end) with (first_name chn).
  set (attr0 := first_name chn).
  set (pl := prefix_loop (S (CStr.strlen attr0)) chn attr0 0 0).
  pose proof (prefix_loop_greatest chn attr0 (S (CStr.strlen attr0)) 0 0
                ltac:(lia) ltac:(lia) (or_introl eq_refl)
                ltac:(intros k ((Hk & _) & _) Hk0; lia)) as [Hpl Hmax].
  fold pl in Hpl, Hmax.
  assert (Hlongest : forall q,
             ends_with_underscore q -> common_prefix q (all_names chn) ->
             (String.length q <= pl)%nat).
  { intros q Hq Hc. apply Hmax. now apply prefix_accepted_length. }
  destruct (Nat.eqb_spec pl 0) as [Hz | Hnz]; cbn [negb].
  - exists EmptyString, chn, w.
    split; [reflexivity|]. split; [|split].
    + split; [now left|]. split.
      * intros n _. now exists n.
      * intros q Hq Hc. specialize (Hlongest q Hq Hc). simpl. lia.
    + reflexivity.
    + intros [|x q] Hq; discriminate Hq.
  - destruct Hpl as [Hpl | Hpl]; [contradiction|].
    destruct (accepted_length_prefix chn pl Hlen Hpl) as (Hus & Hcommon & Hplen).
    fold attr0 in Hus, Hcommon, Hplen.
    destruct (heap_budget w) as [|b] eqn:Hb; [lia|].
    unfold bind, alloc. rewrite Hb. cbn [negb].
    exists (CStr.take attr0 pl). do 2 eexists.
    split; [reflexivity|]. split; [|split].
    + split; [now right|]. split; [exact Hcommon|].
      intros q Hq Hc. rewrite Hplen. now apply Hlongest.
    + intros Hempty. rewrite Hempty in Hplen. simpl in Hplen. lia.
    + intros q Hq. cbn [chn_name attrs pdata protected_attrs enable_fn chn_id
                        is_output is_scan_element index format].
      repeat split.
      * f_equal. unfold CStr.iio_strlcpy.
        apply append_underscore_inj. rewrite <- Hq.
        destruct Hpl as ((Hk1 & Hk2) & Hat & _).
        replace pl with (S (pl - 1)) at 2 by lia.
        rewrite take_succ by lia. now rewrite Hat.
      * rewrite <- Hplen at 2. apply cut_names_back.
        intros a Ha. apply Hcommon. unfold all_names.
        apply in_or_app. left. now apply in_map.
      * rewrite <- Hplen at 2. apply cut_names_back.
        intros a Ha. apply Hcommon. unfold all_names.
        apply in_or_app. right. now apply in_map.
Qed.

(** Without a common prefix that ends in an underscore the step changes
    nothing and allocates nothing. *)
Lemma set_channel_name_without_prefix (chn : iio_channel) (w : World) :
  (2 <= List.length (all_names chn))%nat ->
  (forall q, ends_with_underscore q -> ~ common_prefix q (all_names chn)) ->
  set_channel_name chn w = Done (0, chn) w.
Proof.
  intros Hlen Hnone.
  unfold set_channel_name.
  assert (Hcount : (List.length (attrs chn)
                    + List.length (protected_attrs (pdata chn)) <? 2)%nat
                   = false).
  { apply Nat.ltb_ge. unfold all_names in Hlen.
    rewrite length_app, !length_map in Hlen. exact Hlen. }
  rewrite Hcount.
  change (match attrs chn with
          | a :: _ => attr_name a
          | [] => match protected_attrs (pdata chn) with
                  | a :: _ => attr_name a
                  | [] => EmptyString
                  end
          end) with (first_name chn).
  set (attr0 := first_name chn).
  set (pl := prefix_loop (S (CStr.strlen attr0)) chn attr0 0 0).
  pose proof (prefix_loop_greatest chn attr0 (S (CStr.strlen attr0)) 0 0
                ltac:(lia) ltac:(lia) (or_introl eq_refl)
                ltac:(intros k ((Hk & _) & _) Hk0; lia)) as [Hpl _].
  fold pl in Hpl.
  destruct (Nat.eqb_spec pl 0) as [Hz | Hnz]; cbn [negb]; [reflexivity|].
  destruct Hpl as [Hpl | Hpl]; [contradiction|].
  destruct (accepted_length_prefix chn pl Hlen Hpl) as (Hus & Hcommon & _).
  exfalso. exact (Hnone _ Hus Hcommon).
Qed.

(** C8.  For a channel with two attributes or more (the protected ones
    included), when the allocation of the name succeeds, [set_channel_name]
    computes the longest prefix ending in an underscore that all the
    attribute names have; the whole prefix without its last underscore
    becomes the display name, and the prefix is cut off every attribute
    name, the file names and all the rest of the channel unchanged.  In
    particular the channel foo of the attribute files in_foo_bar_raw and
    in_foo_bar_scale, whose attribute names beyond the id are bar_raw and
    bar_scale, gets the display name bar and the attribute names raw and
    scale.  A channel whose attribute names have no common prefix ending in
    an underscore is left as it is: it gets no display name. *)
Theorem C8_common_prefix_becomes_name :
  (forall (chn : iio_channel) (w : World),
     (2 <= List.length (all_names chn))%nat ->
     (1 <= heap_budget w)%nat ->
     exists p chn' w',
       set_channel_name chn w = Done (0, chn') w'
       /\ longest_common_underscore_prefix p (all_names chn)
       /\ (p = EmptyString -> chn' = chn)
       /\ (forall q,
             p = (q ++ "_")%string ->
             chn_name chn' = Some q
             /\ attrs chn = map (with_prefix p) (attrs chn')
             /\ protected_attrs (pdata chn)
                = map (with_prefix p) (protected_attrs (pdata chn'))
             /\ enable_fn (pdata chn') = enable_fn (pdata chn)
             /\ chn_id chn' = chn_id chn
             /\ is_output chn' = is_output chn
             /\ is_scan_element chn' = is_scan_element chn
             /\ index chn' = index chn
             /\ format chn' = format chn))
  /\ (forall w : World,
        (1 <= heap_budget w)%nat ->
        exists chn' w',
          set_channel_name
            (channel_with "foo"
               [{| attr_name := "bar_raw"; attr_filename := "in_foo_bar_raw" |};
                {| attr_name := "bar_scale";
                   attr_filename := "in_foo_bar_scale" |}]) w
          = Done (0, chn') w'
          /\ chn_id chn' = "foo"%string
          /\ chn_name chn' = Some "bar"%string
          /\ attrs chn'
             = [{| attr_name := "raw"; attr_filename := "in_foo_bar_raw" |};
                {| attr_name := "scale";
                   attr_filename := "in_foo_bar_scale" |}])
  /\ (forall (chn : iio_channel) (w : World),
        (2 <= List.length (all_names chn))%nat ->
        (forall q, ends_with_underscore q ->
                   ~ common_prefix q (all_names chn)) ->
        set_channel_name chn w = Done (0, chn) w).
Proof.
  split; [exact set_channel_name_folds|].
  split; [|exact set_channel_name_without_prefix].
  intros w Hheap.
  unfold set_channel_name.
  change (prefix_loop _ _ _ 0 0) with 4%nat.
  cbn [negb Nat.eqb Nat.ltb Nat.leb List.length attrs pdata protected_attrs
       channel_with set_attrs bare_channel Nat.add].
  unfold bind, alloc.
  destruct (heap_budget w); [lia|].
  cbn. do 2 eexists. split; [reflexivity|]. repeat split.
Qed.

Lemma C8_common_prefix_becomes_name_witness :
  exists p chn' w',
    set_channel_name
      (channel_with "voltage0"
         [{| attr_name := "rms_raw"; attr_filename := "in_voltage0_rms_raw" |};
          {| attr_name := "rms_scale";
             attr_filename := "in_voltage0_rms_scale" |}])
      (quiet_world (fun _ => {| tv_sec := 0; tv_nsec := 0 |}) 1)
    = Done (0, chn') w'
    /\ p = "rms_"%string
    /\ chn_name chn' = Some "rms"%string
    /\ map attr_name (attrs chn') = ["raw"%string; "scale"%string].
Proof.
  destruct (proj1 C8_common_prefix_becomes_name
              (channel_with "voltage0"
                 [{| attr_name := "rms_raw";
                     attr_filename := "in_voltage0_rms_raw" |};
                  {| attr_name := "rms_scale";
                     attr_filename := "in_voltage0_rms_scale" |}])
              (quiet_world (fun _ => {| tv_sec := 0; tv_nsec := 0 |}) 1))
    as (p & chn' & w' & E & _).
  - simpl. lia.
  - simpl. lia.
  - exists "rms_"%string, chn', w'. split; [exact E|].
    vm_compute in E. injection E as <- _.
    repeat split.
Defined.

(** The stored names of a channel are the names of its attribute files
    beyond the direction and the id: the files in_foo_bar_raw and
    in_foo_bar_scale make the channel foo with the names bar_raw and
    bar_scale. *)
Example files_of_channel_foo :
  option_map (fun rd => channels (snd rd))
    (value_of
       (('(r, dev) <- @add_channel plain_build
                        (bare_device "iio:device0" 1000)
                        "in_foo_bar_raw" "in_foo_bar_raw" false ;;
         @add_channel plain_build dev "in_foo_bar_scale" "in_foo_bar_scale"
           false)
          (quiet_world (fun _ => {| tv_sec := 0; tv_nsec := 0 |}) 16)))
  = Some
      [channel_with "foo"
         [{| attr_name := "bar_raw"; attr_filename := "in_foo_bar_raw" |};
          {| attr_name := "bar_scale"; attr_filename := "in_foo_bar_scale" |}]].
Proof. reflexivity. Qed.

(** On stored names that carry the id as well the whole common prefix is
    folded: foo_bar_raw and foo_bar_scale give the display name foo_bar. *)
Example names_foo_bar_raw_foo_bar_scale :
  option_map (fun rc => chn_name (snd rc))
    (value_of
       (set_channel_name
          (channel_with "voltage0"
             [{| attr_name := "foo_bar_raw";
                 attr_filename := "in_voltage0_foo_bar_raw" |};
              {| attr_name := "foo_bar_scale";
                 attr_filename := "in_voltage0_foo_bar_scale" |}])
          (quiet_world (fun _ => {| tv_sec := 0; tv_nsec := 0 |}) 1)))
  = Some (Some "foo_bar"%string).
Proof. reflexivity. Qed.

(** The display name "bar" comes from the names bar_raw and bar_scale, which
    a channel foo has for the files in_foo_bar_raw and in_foo_bar_scale. *)
Example names_bar_raw_bar_scale :
  value_of
    (set_channel_name
       (channel_with "foo"
          [{| attr_name := "bar_raw"; attr_filename := "in_foo_bar_raw" |};
           {| attr_name := "bar_scale"; attr_filename := "in_foo_bar_scale" |}])
       (quiet_world (fun _ => {| tv_sec := 0; tv_nsec := 0 |}) 1))
  = Some (0,
          {| chn_id := "foo"; chn_name := Some "bar"%string;
             is_output := false; is_scan_element := false;
             index := - C.ENOENT; format := zero_format;
             attrs :=
               [{| attr_name := "raw"; attr_filename := "in_foo_bar_raw" |};
                {| attr_name := "scale"; attr_filename := "in_foo_bar_scale" |}];
             pdata := {| enable_fn := None; protected_attrs := [] |} |}).
Proof. reflexivity. Qed.

(** * Further properties of [local.c] *)

Lemma to_int_range z : - 2 ^ 31 <= C.to_int z < 2 ^ 31.
Proof.
  unfold C.to_int.
  pose proof (Z.mod_pos_bound (z + 2 ^ 31) (2 ^ 32) ltac:(lia)). lia.
Qed.

(** The remaining timeout stays in the range of the timeout, whatever the
    clock reads. *)
Lemma get_rel_timeout_ms_range
    (start : timespec) (timeout_rel : Z) (w : World) :
  0 <= timeout_rel < 2 ^ 32 ->
  exists r,
    get_rel_timeout_ms start timeout_rel w
    = Done r (if timeout_rel =? 0 then w else tick w)
    /\ (timeout_rel = 0 -> r = -1)
    /\ (timeout_rel <> 0 -> 0 <= r <= Z.min timeout_rel C.INT_MAX).
Proof.
  intros HT. unfold get_rel_timeout_ms.
  destruct (Z.eqb_spec timeout_rel 0) as [E | NE].
  - exists (-1). split; [reflexivity|]. split; [reflexivity | contradiction].
  - unfold bind, clock_gettime.
    set (d := C.to_int (C.to_int ((tv_sec (clock w (ticks w)) - tv_sec start) * 1000)
                        + Z.quot (tv_nsec (clock w (ticks w)) - tv_nsec start)
                            1000000)).
    pose proof (to_int_range
                  (C.to_int ((tv_sec (clock w (ticks w)) - tv_sec start) * 1000)
                   + Z.quot (tv_nsec (clock w (ticks w)) - tv_nsec start)
                       1000000)) as Hd.
    fold d in Hd. unfold C.INT_MAX.
    destruct (Z_lt_le_dec timeout_rel (2 ^ 31)) as [Hsmall | Hlarge].
    + rewrite (to_int_id timeout_rel) by lia.
      destruct (Z.geb_spec d timeout_rel).
      * exists 0. split; [reflexivity|]. split; [contradiction | lia].
      * destruct (Z.gtb_spec d 0).
        -- rewrite to_uint_id by lia.
           destruct (Z.gtb_spec (timeout_rel - d) 2147483647); [lia|].
           rewrite to_int_id by lia.
           eexists. split; [reflexivity|]. split; [contradiction | lia].
        -- destruct (Z.gtb_spec timeout_rel 2147483647); [lia|].
           rewrite to_int_id by lia.
           eexists. split; [reflexivity|]. split; [contradiction | lia].
    + rewrite (to_int_high timeout_rel) by lia.
      destruct (Z.geb_spec d (timeout_rel - 2 ^ 32)).
      * exists 0. split; [reflexivity|]. split; [contradiction | lia].
      * destruct (Z.gtb_spec d 0); [lia|].
        destruct (Z.gtb_spec timeout_rel 2147483647); [|lia].
        eexists. split; [reflexivity|]. split; [contradiction | lia].
Qed.

(** X1.  For a timeout other than 0 that an [unsigned int] holds, and
    whatever the clock reads (also a clock that went back, or so far ahead
    that the difference wraps), the remaining timeout is between 0 and the
    smaller of the timeout and [INT_MAX]: [poll] is never handed a negative
    timeout, which would wait for ever, nor more than was asked for.  The
    clock is read once.  A timeout of 0 gives -1 and the clock is not
    read. *)
Theorem get_rel_timeout_ms_bounded
    (start : timespec) (timeout_rel : Z) (w : World) :
  0 <= timeout_rel < 2 ^ 32 ->
  exists r,
    get_rel_timeout_ms start timeout_rel w
    = Done r (if timeout_rel =? 0 then w else tick w)
    /\ (timeout_rel = 0 -> r = -1)
    /\ (timeout_rel <> 0 -> 0 <= r <= Z.min timeout_rel C.INT_MAX).
Proof. apply get_rel_timeout_ms_range. Qed.

Lemma get_rel_timeout_ms_bounded_witness :
  exists r,
    get_rel_timeout_ms {| tv_sec := 5; tv_nsec := 0 |} 1000
      (world_at 5 250000000)
    = Done r (if 1000 =? 0 then world_at 5 250000000
              else tick (world_at 5 250000000))
    /\ (1000 = 0 -> r = -1)
    /\ (1000 <> 0 -> 0 <= r <= Z.min 1000 C.INT_MAX).
Proof.
  apply (get_rel_timeout_ms_bounded {| tv_sec := 5; tv_nsec := 0 |} 1000
           (world_at 5 250000000)).
  lia.
Defined.

(** X2.  [buffer_check_ready] when no cancellation is signalled, by the
    call of [poll] that ended the wait: a failed call gives minus its
    [errno]; a descriptor that is not open ([POLLNVAL]) gives [-EBADF]; a
    descriptor with events none of which was asked for (an error or a
    hang-up alone) gives [-EIO]; only a descriptor with an event that was
    asked for gives 0. *)
Theorem buffer_check_ready_classifies
    (pdata : iio_buffer_pdata) (fd events : Z) (start : option timespec)
    (w : World) (interruptions : list poll_outcome) (p : poll_outcome)
    (rest : list poll_outcome) :
  polls w = interruptions ++ p :: rest ->
  forallb interrupted interruptions = true ->
  interrupted p = false ->
  Z.land (revents_cancel p) C.POLLIN = 0 ->
  exists r w',
    buffer_check_ready pdata fd events start w = Done r w'
    /\ polls w' = rest
    /\ (poll_ret p < 0 -> r = - poll_errno p)
    /\ (0 < poll_ret p -> Z.land (revents_fd p) C.POLLNVAL <> 0 ->
        r = - C.EBADF)
    /\ (0 < poll_ret p -> Z.land (revents_fd p) C.POLLNVAL = 0 ->
        Z.land (revents_fd p) events = 0 -> r = - C.EIO)
    /\ (0 < poll_ret p -> Z.land (revents_fd p) C.POLLNVAL = 0 ->
        Z.land (revents_fd p) events <> 0 -> r = 0).
Proof.
  intros Hp Hall Hlast Hcancel.
  destruct (buffer_check_ready_ends pdata fd events start w interruptions p
              rest Hp Hall Hlast) as (w' & E & Hp' & _).
  exists (wait_result events start p), w'.
  split; [exact E|]. split; [exact Hp'|].
  unfold wait_result. rewrite Hcancel. change (0 =? 0) with true. cbn [negb].
  destruct (Z.ltb_spec (poll_ret p) 0);
    destruct (Z.eqb_spec (poll_ret p) 0);
    destruct (Z.eqb_spec (Z.land (revents_fd p) C.POLLNVAL) 0);
    destruct (Z.eqb_spec (Z.land (revents_fd p) events) 0);
    cbn [negb]; repeat split; intros; try reflexivity; try lia;
    try contradiction.
Qed.

Lemma buffer_check_ready_classifies_witness :
  exists r w',
    buffer_check_ready (sample_buffer 0 false false) 3 C.POLLIN None
      (polling_world
         [ {| poll_ret := 1; poll_errno := 0; revents_fd := 8;
              revents_cancel := 0 |} ])
    = Done r w'
    /\ polls w' = []
    /\ (1 < 0 -> r = - 0)
    /\ (0 < 1 -> Z.land 8 C.POLLNVAL <> 0 -> r = - C.EBADF)
    /\ (0 < 1 -> Z.land 8 C.POLLNVAL = 0 -> Z.land 8 C.POLLIN = 0 ->
        r = - C.EIO)
    /\ (0 < 1 -> Z.land 8 C.POLLNVAL = 0 -> Z.land 8 C.POLLIN <> 0 -> r = 0).
Proof.
  apply (buffer_check_ready_classifies (sample_buffer 0 false false) 3
           C.POLLIN None
           (polling_world
              [ {| poll_ret := 1; poll_errno := 0; revents_fd := 8;
                   revents_cancel := 0 |} ])
           []
           {| poll_ret := 1; poll_errno := 0; revents_fd := 8;
              revents_cancel := 0 |} []).
  - reflexivity.
  - reflexivity.
  - reflexivity.
  - reflexivity.
Defined.

Lemma poll_loop_calls pdata fd events start :
  0 <= timeout_ms (buf_dev pdata) < 2 ^ 32 ->
  forall interruptions fuel w p rest,
    polls w = interruptions ++ p :: rest ->
    forallb interrupted interruptions = true ->
    interrupted p = false ->
    (List.length interruptions < fuel)%nat ->
    exists w' timeouts,
      poll_loop fuel pdata fd events start w = Done p w'
      /\ trace w'
         = trace w ++ map (APoll fd events (buf_cancel_fd pdata)) timeouts
      /\ List.length timeouts = S (List.length interruptions)
      /\ Forall (timeout_handed_to_poll start (timeout_ms (buf_dev pdata)))
           timeouts
      /\ ticks w'
         = (ticks w
            + clock_readings start (timeout_ms (buf_dev pdata))
                (S (List.length interruptions)))%nat.
Proof.
  intros HT.
  assert (Hwait : forall w,
    exists t w1,
      match start with
      | Some s => get_rel_timeout_ms s (timeout_ms (buf_dev pdata))
      | None => ret 0
      end w = Done t w1
      /\ timeout_handed_to_poll start (timeout_ms (buf_dev pdata)) t
      /\ polls w1 = polls w /\ trace w1 = trace w
      /\ ticks w1
         = (ticks w + clock_readings start (timeout_ms (buf_dev pdata)) 1)%nat).
  { intros w. unfold timeout_handed_to_poll, clock_readings.
    destruct start as [s|].
    - destruct (get_rel_timeout_ms_range s _ w HT) as (r & E & Hz & Hnz).
      rewrite E. exists r.
      destruct (Z.eqb_spec (timeout_ms (buf_dev pdata)) 0) as [Hzero | Hnon].
      + exists w. repeat split; auto; try (simpl; lia).
      + exists (tick w). repeat split; auto; try (apply Hnz; auto);
          try (simpl; lia).
    - exists 0, w. repeat split; auto. }
  induction interruptions as [|i l IH]; intros fuel w p rest Hp Hall Hlast Hfuel;
    (destruct fuel as [|fuel]; [simpl in Hfuel; lia|]);
    simpl poll_loop; unfold bind at 1;
    destruct (Hwait w) as (t & w1 & -> & Ht & Hp1 & Htr1 & Htk1);
    unfold bind at 1, poll, bind, log, next_poll; simpl;
    rewrite Hp1, Hp; simpl.
  - unfold interrupted in Hlast. rewrite Hlast.
    eexists. exists [t]. split; [reflexivity|]. simpl.
    rewrite Htr1. repeat split; auto.
  - simpl in Hall. apply andb_prop in Hall as [Hi Hall].
    unfold interrupted in Hi. rewrite Hi.
    match goal with
    | |- context [poll_loop fuel pdata fd events start ?w0] =>
        destruct (IH fuel w0 p rest eq_refl Hall Hlast
                    ltac:(simpl in Hfuel; lia))
          as (w' & ts & E & Htr & Hlen & Hts & Htk)
    end.
    exists w', (t :: ts). split; [exact E|].
    simpl in Htr, Htk. rewrite Htr, Htr1, Htk, Htk1.
    split; [simpl; rewrite <- app_assoc; reflexivity|].
    split; [simpl; lia|]. split; [constructor; assumption|].
    unfold clock_readings. destruct start; [|lia].
    destruct (timeout_ms (buf_dev pdata) =? 0); lia.
Qed.

(** X3.  The wait calls [poll] once for every interrupted call and once
    more, on the data descriptor and the cancellation descriptor, and does
    nothing else.  The timeout of every call is computed anew: without a
    start time it is 0; with a start time and a timeout configured the clock
    is read once before every call and the call gets between 0 and the
    configured timeout, never a negative value, so that interruptions cannot
    prolong the wait without end. *)
Theorem buffer_check_ready_polls
    (pdata : iio_buffer_pdata) (fd events : Z) (start : option timespec)
    (w : World) (interruptions : list poll_outcome) (p : poll_outcome)
    (rest : list poll_outcome) :
  0 <= timeout_ms (buf_dev pdata) < 2 ^ 32 ->
  polls w = interruptions ++ p :: rest ->
  forallb interrupted interruptions = true ->
  interrupted p = false ->
  exists r w' timeouts,
    buffer_check_ready pdata fd events start w = Done r w'
    /\ trace w'
       = trace w ++ map (APoll fd events (buf_cancel_fd pdata)) timeouts
    /\ List.length timeouts = S (List.length interruptions)
    /\ Forall (timeout_handed_to_poll start (timeout_ms (buf_dev pdata)))
         timeouts
    /\ ticks w'
       = (ticks w
          + clock_readings start (timeout_ms (buf_dev pdata))
              (S (List.length interruptions)))%nat.
Proof.
  intros HT Hp Hall Hlast. unfold buffer_check_ready.
  destruct (poll_loop_calls pdata fd events start HT interruptions
              (S (List.length (polls w))) w p rest Hp Hall Hlast)
    as (w' & ts & E & Htr & Hlen & Hts & Htk).
  { rewrite Hp, length_app. simpl. lia. }
  rewrite (bind_done _ _ _ _ _ E).
  exists (wait_result events start p), w', ts.
  split; [|repeat split; assumption].
  unfold wait_result.
  repeat match goal with
         | |- context [if ?c then _ else _] => destruct c
         end; reflexivity.
Qed.

Lemma buffer_check_ready_polls_witness :
  exists r w' timeouts,
    buffer_check_ready (sample_buffer 0 false false) 3 C.POLLIN
      (Some {| tv_sec := 0; tv_nsec := 0 |})
      (polling_world [again_outcome; expired_outcome; expired_outcome])
    = Done r w'
    /\ trace w'
       = trace (polling_world [again_outcome; expired_outcome; expired_outcome])
         ++ map (APoll 3 C.POLLIN 4) timeouts
    /\ List.length timeouts = 1%nat
    /\ Forall (timeout_handed_to_poll (Some {| tv_sec := 0; tv_nsec := 0 |})
                 1000) timeouts
    /\ ticks w' = 1%nat.
Proof.
  apply (buffer_check_ready_polls (sample_buffer 0 false false) 3 C.POLLIN
           (Some {| tv_sec := 0; tv_nsec := 0 |})
           (polling_world [again_outcome; expired_outcome; expired_outcome])
           [] again_outcome [expired_outcome; expired_outcome]).
  - simpl. lia.
  - reflexivity.
  - reflexivity.
  - reflexivity.
Defined.

(** X4.  Neither [local_read_dev_attr] nor [local_write_dev_attr] ever
    returns 0: a count of 0 (an empty file, nothing written) is turned into
    [-EIO], every other failure is negative, so a caller can tell success by
    a result above 0. *)
Theorem attr_access_never_returns_zero
    (X : Externals) (dev : iio_device) (buf_id : Z) (attr src : string)
    (len : Z) (type : iio_attr_type) (w : World) :
  fopen_sets_errno w ->
  (forall r dst w',
     local_read_dev_attr dev buf_id attr len type w = Done (r, dst) w' ->
     r <> 0)
  /\ (forall r w',
        local_write_dev_attr dev buf_id attr src len type w = Done r w' ->
        r <> 0).
Proof.
  intros Herr. split.
  - intros r dst w'. unfold local_read_dev_attr.
    destruct (buf_id >? 0); [intros [= <- _ _]; discriminate|].
    destruct (attr_path dev buf_id attr type) as [path|];
      [|intros [= <- _ _]; discriminate].
    unfold bind, log, next_file. simpl.
    destruct (files w) as [|f fs] eqn:Hf; [discriminate|].
    destruct f as [e | data n fe]; simpl.
    + intros [= <- _ _]. specialize (Herr e). rewrite Hf in Herr.
      specialize (Herr (or_introl eq_refl)). lia.
    + unfold ret.
      match goal with
      | |- Done (if ?c =? 0 then _ else _, _) _ = _ -> _ =>
          destruct (Z.eqb_spec c 0); intros [= <- _ _]; [discriminate|assumption]
      end.
  - intros r w'. unfold local_write_dev_attr.
    destruct (buf_id >? 0); [intros [= <- _]; discriminate|].
    destruct (attr_path dev buf_id attr type) as [path|];
      [|intros [= <- _]; discriminate].
    unfold bind, log, next_file. simpl.
    destruct (files w) as [|f fs] eqn:Hf; [discriminate|].
    destruct f as [e | data n fe]; simpl.
    + intros [= <- _]. specialize (Herr e). rewrite Hf in Herr.
      specialize (Herr (or_introl eq_refl)). lia.
    + unfold ret.
      match goal with
      | |- Done (if ?c =? 0 then _ else _) _ = _ -> _ =>
          destruct (Z.eqb_spec c 0); intros [= <- _]; [discriminate|assumption]
      end.
Qed.

(** What a read of an attribute file that opens gives, by the size of the
    file. *)
Lemma local_read_dev_attr_reads
    (X : Externals) (dev : iio_device) (attr path : string) (len : Z)
    (type : iio_attr_type) (w : World) (data : string) (n : Z)
    (fs : list stdio_outcome) :
  attr_path dev 0 attr type = Some path ->
  files w = Opened data n None :: fs ->
  0 < len ->
  exists w',
    local_read_dev_attr dev 0 attr len type w
    = Done (if (len <=? Z.of_nat (CStr.strlen data)) then (- C.EFBIG, Some ""%string)
            else if (CStr.strlen data =? 0)%nat then (- C.EIO, Some ""%string)
            else (Z.of_nat (CStr.strlen data), Some (attribute_text data)))
        w'
    /\ files w' = fs
    /\ trace w' = trace w ++ [AFopen path "re"; AFread len; AFclose].
Proof.
  intros Hpath Hf Hlen. unfold local_read_dev_attr.
  change (0 >? 0) with false. cbv iota. rewrite Hpath.
  unfold bind, log, next_file. simpl. rewrite Hf. simpl. unfold ret.
  eexists. split; [f_equal|split; [reflexivity|]].
  - destruct (Z.ltb_spec (Z.of_nat (CStr.strlen data)) len) as [Hlt | Hge];
      destruct (Z.leb_spec len (Z.of_nat (CStr.strlen data))); try lia.
    + rewrite Z.min_r by lia.
      destruct (Nat.eqb_spec (CStr.strlen data) 0) as [E | NE].
      * rewrite E. reflexivity.
      * destruct (Z.eqb_spec (Z.of_nat (CStr.strlen data)) 0); [lia|].
        destruct (Z.gtb_spec (Z.of_nat (CStr.strlen data)) 0); [|lia].
        unfold attribute_text.
        replace (Z.to_nat (Z.of_nat (CStr.strlen data) - 1))
          with (CStr.strlen data - 1)%nat by lia.
        reflexivity.
    + reflexivity.
  - simpl. rewrite <- !app_assoc. reflexivity.
Qed.

(** X5.  Reading an attribute file (index 0, one of the three kinds of
    attribute) that opens without a stream error into a buffer of [len]
    bytes: a file of [len] bytes or more is refused with [-EFBIG] and the
    buffer holds the empty string; an empty file gives [-EIO]; a file of
    fewer bytes gives its size, and the buffer holds its content less the
    last byte (the line feed), up to the first NUL. *)
Theorem local_read_dev_attr_size_limit
    (X : Externals) (dev : iio_device) (attr path : string) (len : Z)
    (type : iio_attr_type) (w : World) (data : string) (n : Z)
    (fs : list stdio_outcome) :
  attr_path dev 0 attr type = Some path ->
  files w = Opened data n None :: fs ->
  0 < len ->
  exists w',
    local_read_dev_attr dev 0 attr len type w
    = Done (if (len <=? Z.of_nat (CStr.strlen data)) then (- C.EFBIG, Some ""%string)
            else if (CStr.strlen data =? 0)%nat then (- C.EIO, Some ""%string)
            else (Z.of_nat (CStr.strlen data), Some (attribute_text data)))
        w'
    /\ files w' = fs
    /\ trace w' = trace w ++ [AFopen path "re"; AFread len; AFclose].
Proof. apply local_read_dev_attr_reads. Qed.

Section AttributeFileExamples.

#[local] Existing Instance plain_build.

Lemma attr_access_never_returns_zero_witness :
  (forall r dst w',
     local_read_dev_attr (bare_device "iio:device0" 1000) 0 "name" 1024
       IIO_ATTR_TYPE_DEVICE (sysfs_world [Opened "" 0 None])
     = Done (r, dst) w' -> r <> 0)
  /\ (forall r w',
        local_write_dev_attr (bare_device "iio:device0" 1000) 0 "name" "" 1024
          IIO_ATTR_TYPE_DEVICE (sysfs_world [Opened "" 0 None])
        = Done r w' -> r <> 0).
Proof.
  apply (attr_access_never_returns_zero plain_build
           (bare_device "iio:device0" 1000) 0 "name" "" 1024
           IIO_ATTR_TYPE_DEVICE (sysfs_world [Opened "" 0 None])).
  intros e [Hin | []]. discriminate Hin.
Defined.

Lemma local_read_dev_attr_size_limit_witness :
  exists w',
    local_read_dev_attr (bare_device "iio:device0" 1000) 0 "sampling_frequency"
      8 IIO_ATTR_TYPE_DEVICE (sysfs_world [Opened (line "48000") 0 None])
    = Done (if (8 <=? Z.of_nat (CStr.strlen (line "48000")))
            then (- C.EFBIG, Some ""%string)
            else if (CStr.strlen (line "48000") =? 0)%nat
                 then (- C.EIO, Some ""%string)
                 else (Z.of_nat (CStr.strlen (line "48000")),
                       Some (attribute_text (line "48000"))))
        w'
    /\ files w' = []
    /\ trace w'
       = trace (sysfs_world [Opened (line "48000") 0 None])
         ++ [AFopen "/sys/bus/iio/devices/iio:device0/sampling_frequency" "re";
             AFread 8; AFclose].
Proof.
  apply (local_read_dev_attr_size_limit plain_build
           (bare_device "iio:device0" 1000) "sampling_frequency"
           "/sys/bus/iio/devices/iio:device0/sampling_frequency" 8
           IIO_ATTR_TYPE_DEVICE (sysfs_world [Opened (line "48000") 0 None])
           (line "48000") 0 []).
  - reflexivity.
  - reflexivity.
  - lia.
Defined.

(** A file of 8 bytes does not fit a buffer of 8: the seven digits and the
    line feed leave no room for the end of file to be seen. *)
Example read_eight_bytes_into_eight :
  value_of
    (local_read_dev_attr (bare_device "iio:device0" 1000) 0
       "sampling_frequency" 8 IIO_ATTR_TYPE_DEVICE
       (sysfs_world [Opened (line "4800000") 0 None]))
  = Some (- C.EFBIG, Some ""%string).
Proof. reflexivity. Qed.

(** A read that ends on an error of the stream after two bytes: the
    end-of-file indicator is clear, the buffer is emptied, and the result
    is minus the [errno]. *)
Example read_ends_on_stream_error :
  value_of
    (local_read_dev_attr (bare_device "iio:device0" 1000) 0 "name" 1024
       IIO_ATTR_TYPE_DEVICE (sysfs_world [Opened "ad" 0 (Some C.EIO)]))
  = Some (- C.EIO, Some ""%string).
Proof. reflexivity. Qed.

End AttributeFileExamples.

(** A write of a buffer attribute, index 0, whose file does not open. *)
Lemma local_write_dev_attr_not_opened `{Externals} dev attr src len w e fs :
  files w = FopenFailed e :: fs ->
  exists w',
    local_write_dev_attr dev 0 attr src len IIO_ATTR_TYPE_BUFFER w
    = Done (- e) w'
    /\ files w' = fs.
Proof.
  intros Hf. unfold local_write_dev_attr. simpl.
  unfold bind, log, next_file. simpl. rewrite Hf.
  eexists. split; reflexivity.
Qed.

(** X6.  Enabling a buffer with a sample count (index 0, no block
    capability), when the length is written and the watermark file does not
    open: with [ENOENT] or [EACCES] (a kernel without the attribute, or one
    that does not let it be written) the failure is passed over and the
    buffer is enabled; with any other error the call returns it and the
    enable attribute is not touched. *)
Theorem local_enable_buffer_watermark_optional
    (X : Externals) (pdata : iio_buffer_pdata) (nb_samples : Z)
    (enable : bool) (w : World) (f1 : stdio_outcome) (e : Z)
    (rest : list stdio_outcome) :
  sized_backend pdata = false ->
  nb_samples <> 0 ->
  buf_idx pdata = 0 ->
  files w = f1 :: FopenFailed e :: rest ->
  write_goes_through f1 = true ->
  0 < e < 2 ^ 31 ->
  (e = C.ENOENT \/ e = C.EACCES ->
   forall f3 fs,
     rest = f3 :: fs ->
     write_goes_through f3 = true ->
     exists w',
       local_enable_buffer pdata nb_samples enable w = Done 0 w'
       /\ files w' = fs)
  /\ (e <> C.ENOENT -> e <> C.EACCES ->
      exists w',
        local_enable_buffer pdata nb_samples enable w = Done (- e) w'
        /\ files w' = rest).
Proof.
  intros Hsized Hnb Hidx Hfiles Hok1 He.
  unfold local_enable_buffer. unfold sized_backend in Hsized.
  rewrite lor_flags, b2z_eqb, Hsized.
  destruct (Z.eqb_spec nb_samples 0) as [|_]; [contradiction|].
  cbn [Bool.eqb negb].
  unfold local_set_buffer_size, local_set_watermark, local_do_enable_buffer.
  rewrite Hidx.
  destruct (local_write_dev_attr_goes_through (buf_dev pdata) "length"
              (CStr.snprintf 32 (CStr.decimal nb_samples))
              (Z.of_nat
                 (CStr.strlen (CStr.snprintf 32 (CStr.decimal nb_samples)))
               + 1) w f1 _ Hfiles Hok1) as (n1 & w1 & E1 & Hn1 & Hw1).
  destruct (local_write_dev_attr_not_opened (buf_dev pdata) "watermark"
              (CStr.snprintf 32 (CStr.decimal nb_samples))
              (Z.of_nat
                 (CStr.strlen (CStr.snprintf 32 (CStr.decimal nb_samples)))
               + 1) w1 e rest Hw1) as (w2 & E2 & Hw2).
  assert (L1 : (n1 <? 0) = false) by (apply Z.ltb_ge; lia).
  assert (L2 : (- e <? 0) = true) by (apply Z.ltb_lt; lia).
  split.
  - intros Hmiss f3 fs -> Hok3.
    destruct (local_write_dev_attr_goes_through (buf_dev pdata) "enable"
                "1" 2 w2 f3 _ Hw2 Hok3) as (n3 & w3 & E3 & Hn3 & Hw3).
    assert (L3 : (n3 <? 0) = false) by (apply Z.ltb_ge; lia).
    exists w3. split; [|exact Hw3].
    erewrite bind_done; cycle 1.
    { erewrite bind_done; cycle 1.
      { erewrite bind_done by exact E1. rewrite L1. reflexivity. }
      cbn [Z.eqb negb].
      erewrite bind_done by exact E2. rewrite L2.
      assert (Hskip : negb (- e =? - C.ENOENT) && negb (- e =? - C.EACCES)
                      = false).
      { destruct Hmiss as [-> | ->]; reflexivity. }
      cbn [andb]. rewrite Hskip. reflexivity. }
    cbn [Z.eqb negb].
    erewrite bind_done by exact E3.
    rewrite to_int_id by lia. rewrite L3. reflexivity.
  - intros Hne1 Hne2.
    exists w2. split; [|exact Hw2].
    assert (Hkeep : negb (- e =? - C.ENOENT) && negb (- e =? - C.EACCES)
                    = true).
    { destruct (Z.eqb_spec (- e) (- C.ENOENT)); [lia|].
      destruct (Z.eqb_spec (- e) (- C.EACCES)); [lia|]. reflexivity. }
    erewrite bind_done; cycle 1.
    { erewrite bind_done; cycle 1.
      { erewrite bind_done by exact E1. rewrite L1. reflexivity. }
      cbn [Z.eqb negb].
      erewrite bind_done by exact E2. rewrite L2.
      cbn [andb]. rewrite Hkeep. rewrite to_int_id by lia. reflexivity. }
    destruct (Z.eqb_spec (- e) 0); [lia|]. reflexivity.
Qed.

(** An attribute write takes at most the next outcome from the script of
    files. *)
Lemma local_write_dev_attr_files `{Externals} dev buf_id attr src len type w r w' :
  local_write_dev_attr dev buf_id attr src len type w = Done r w' ->
  forall f, In f (files w') -> In f (files w).
Proof.
  unfold local_write_dev_attr.
  destruct (buf_id >? 0); [intros [= _ <-]; auto|].
  destruct (attr_path dev buf_id attr type); [|intros [= _ <-]; auto].
  unfold bind, log, next_file. simpl.
  destruct (files w) as [|f0 fs]; [discriminate|].
  destruct f0; simpl; intros [= _ <-] f Hin; simpl in *; auto.
Qed.

(** The write of the enable attribute that returns 0 went through the
    file. *)
Lemma local_do_enable_buffer_trace `{Externals} pdata enable w w' :
  fopen_sets_errno w ->
  local_do_enable_buffer pdata enable w = Done 0 w' ->
  trace w'
  = trace w ++ [AFopen (enable_path (buf_dev pdata)) "we";
                AFwrite (if enable then "1" else "0")%string 2; AFclose].
Proof.
  intros Herr. unfold local_do_enable_buffer, local_write_dev_attr.
  destruct (Z.gtb_spec (buf_idx pdata) 0) as [Hpos | Hzero].
  - unfold bind, ret. change (C.to_int (- C.ENOSYS) <? 0) with true.
    cbv iota. discriminate.
  - unfold attr_path.
    destruct (Z.gtb_spec (buf_idx pdata) 0) as [|_]; [lia|].
    unfold bind, log, next_file. simpl.
    destruct (files w) as [|f fs] eqn:Hf; [discriminate|].
    destruct f as [e | data n fe]; simpl.
    + assert (He : 0 < e <= C.INT_MAX).
      { apply Herr. rewrite Hf. left. reflexivity. }
      unfold C.INT_MAX in He. rewrite to_int_id by lia.
      destruct (Z.ltb_spec (- e) 0); [|lia].
      unfold ret. intros [= E _]. lia.
    + match goal with
      | |- (if ?c then _ else _) _ = _ -> _ => destruct c
      end; unfold ret; intros E; inversion E; subst; simpl;
        rewrite <- !app_assoc; reflexivity.
Qed.

(** X7.  [local_enable_buffer] does not look at its argument [enable]: a
    call that returns 0 has ended with the write of "1" to the enable
    attribute of the buffer, also when it was called with [enable] false.
    (The buffer is disabled by [local_free_buffer] only.) *)
Theorem local_enable_buffer_always_enables
    (X : Externals) (pdata : iio_buffer_pdata) (nb_samples : Z)
    (enable : bool) (w w' : World) :
  fopen_sets_errno w ->
  local_enable_buffer pdata nb_samples enable w = Done 0 w' ->
  exists before,
    trace w'
    = before ++ [AFopen (enable_path (buf_dev pdata)) "we"; AFwrite "1" 2;
                 AFclose].
Proof.
  intros Herr. unfold local_enable_buffer.
  destruct (negb _); [intros [= E _]; discriminate E|].
  unfold bind at 1.
  destruct ((if negb (nb_samples =? 0)
             then
               r <- local_set_buffer_size pdata nb_samples ;;
               (if negb (r =? 0) then ret r
                else local_set_watermark pdata nb_samples)
             else ret 0) w) as [r w1 | |] eqn:Einner; try discriminate.
  assert (Hsub : forall f, In f (files w1) -> In f (files w)).
  { destruct (negb (nb_samples =? 0)).
    - revert Einner. unfold bind at 1.
      destruct (local_set_buffer_size pdata nb_samples w) as [r1 w2 | |] eqn:E1;
        try discriminate.
      assert (H2 : forall f, In f (files w2) -> In f (files w)).
      { revert E1. unfold local_set_buffer_size, bind.
        destruct (local_write_dev_attr _ _ _ _ _ _ w) as [n wn | |] eqn:En;
          try discriminate.
        pose proof (local_write_dev_attr_files _ _ _ _ _ _ _ _ _ En) as Hn.
        destruct (n <? 0); intros [= _ <-]; exact Hn. }
      destruct (negb (r1 =? 0)).
      + intros [= _ <-]. exact H2.
      + unfold local_set_watermark, bind.
        destruct (local_write_dev_attr _ _ _ _ _ _ w2) as [n wn | |] eqn:En;
          try discriminate.
        pose proof (local_write_dev_attr_files _ _ _ _ _ _ _ _ _ En) as Hn.
        destruct (_ && _); intros [= _ <-]; auto.
    - injection Einner as _ <-. auto. }
  destruct (Z.eqb_spec r 0) as [-> | Hr]; cbn [negb].
  - intros E. eexists.
    apply (local_do_enable_buffer_trace pdata true w1 w'); [|exact E].
    intros e He. apply Herr. auto.
  - intros [= E _]. contradiction.
Qed.

Section EnableExamples.

#[local] Existing Instance plain_build.

Lemma local_enable_buffer_watermark_optional_witness :
  (C.ENOENT = C.ENOENT \/ C.ENOENT = C.EACCES ->
   forall f3 fs,
     [Opened "" 2 None] = f3 :: fs ->
     write_goes_through f3 = true ->
     exists w',
       local_enable_buffer (sample_buffer 0 false false) 4 true
         (sysfs_world [Opened "" 2 None; FopenFailed C.ENOENT;
                       Opened "" 2 None])
       = Done 0 w'
       /\ files w' = fs)
  /\ (C.ENOENT <> C.ENOENT -> C.ENOENT <> C.EACCES ->
      exists w',
        local_enable_buffer (sample_buffer 0 false false) 4 true
          (sysfs_world [Opened "" 2 None; FopenFailed C.ENOENT;
                        Opened "" 2 None])
        = Done (- C.ENOENT) w'
        /\ files w' = [Opened "" 2 None]).
Proof.
  apply (local_enable_buffer_watermark_optional plain_build
           (sample_buffer 0 false false) 4 true
           (sysfs_world [Opened "" 2 None; FopenFailed C.ENOENT;
                         Opened "" 2 None])
           (Opened "" 2 None) C.ENOENT [Opened "" 2 None]).
  - reflexivity.
  - lia.
  - reflexivity.
  - reflexivity.
  - reflexivity.
  - unfold C.ENOENT. lia.
Defined.

Lemma local_enable_buffer_always_enables_witness :
  exists before,
    trace
      {| clock := fun _ => {| tv_sec := 0; tv_nsec := 0 |}; ticks := 0;
         polls := []; xfers := []; files := []; heap_budget := 0;
         trace :=
           [AFopen "/sys/bus/iio/devices/iio:device0/buffer/enable" "we";
            AFwrite "1" 2; AFclose] |}
    = before
      ++ [AFopen (enable_path (buf_dev (sample_buffer 0 false true))) "we";
          AFwrite "1" 2; AFclose].
Proof.
  apply (local_enable_buffer_always_enables plain_build
           (sample_buffer 0 false true) 0 false
           (sysfs_world [Opened "" 2 None])).
  - intros e [Hin | []]. discriminate Hin.
  - reflexivity.
Defined.

End EnableExamples.

Lemma starts_with_in attr :
  CStr.strncmp_eq attr "in_" 3 = true -> exists r, attr = ("in_" ++ r)%string.
Proof.
  destruct attr as [|a [|b [|c r]]]; simpl; try discriminate;
    try (destruct (Ascii.eqb a "i"); discriminate);
    try (destruct (Ascii.eqb a "i"); [destruct (Ascii.eqb b "n")|]; discriminate).
  destruct (Ascii.eqb_spec a "i"); [|discriminate].
  destruct (Ascii.eqb_spec b "n"); [|discriminate].
  destruct (Ascii.eqb_spec c "_"); [|discriminate].
  subst. intros _. exists r. reflexivity.
Qed.

Lemma starts_with_out attr :
  CStr.strncmp_eq attr "out_" 4 = true -> exists r, attr = ("out_" ++ r)%string.
Proof.
  destruct attr as [|a [|b [|c [|d r]]]]; simpl; try discriminate;
    repeat match goal with
           | |- context [Ascii.eqb ?x ?y] => destruct (Ascii.eqb_spec x y)
           end; try discriminate.
  subst. intros _. exists r. reflexivity.
Qed.

(** The shape of a name [is_channel] accepts outside hwmon: a direction, a
    first underscore, and a second one further on. *)
Lemma is_channel_shape `{Externals} dev attr strict :
  WITH_HWMON && iio_device_is_hwmon (dev_id dev) = false ->
  is_channel dev attr strict = true ->
  exists dir rest q,
    attr = (dir ++ rest)%string
    /\ (dir = "in_"%string \/ dir = "out_"%string)
    /\ CStr.strchr rest "_" = Some q.
Proof.
  intros Hhw. unfold is_channel. rewrite Hhw.
  destruct (CStr.strncmp_eq attr "in_timestamp_" 13) eqn:Hts.
  - intros _.
    destruct attr
      as [|t1 [|t2 [|t3 [|t4 [|t5 [|t6 [|t7 [|t8 [|t9 [|t10 [|t11 [|t12
          [|t13 r]]]]]]]]]]]]];
      simpl in Hts;
      repeat match type of Hts with
             | context [Ascii.eqb ?x ?y] =>
                 destruct (Ascii.eqb_spec x y); simpl in Hts;
                 try discriminate Hts
             end; try discriminate Hts.
    subst. exists "in_"%string, ("timestamp_" ++ r)%string, 9%nat.
    split; [reflexivity|]. split; [auto|]. reflexivity.
  - destruct (CStr.strncmp_eq attr "in_" 3) eqn:Hin.
    + destruct (starts_with_in attr Hin) as [r ->].
      change (CStr.advance ("in_" ++ r) 3) with r.
      destruct (CStr.strchr r "_") as [q|] eqn:Hq; [|discriminate].
      intros _. exists "in_"%string, r, q. auto.
    + destruct (CStr.strncmp_eq attr "out_" 4) eqn:Hout; [|discriminate].
      destruct (starts_with_out attr Hout) as [r ->].
      change (CStr.advance ("out_" ++ r) 4) with r.
      destruct (CStr.strchr r "_") as [q|] eqn:Hq; [|discriminate].
      intros _. exists "out_"%string, r, q. auto.
Qed.

Lemma alloc_done w : exists ok w', alloc w = Done ok w'.
Proof. unfold alloc. destruct (heap_budget w); eauto. Qed.

Lemma iio_strdup_done s w : exists r w', iio_strdup s w = Done r w'.
Proof.
  unfold iio_strdup, bind. destruct (alloc_done w) as (ok & w' & ->).
  eauto.
Qed.

(** X8.  Outside hwmon, a name that [is_channel] accepts (strictly or not)
    has the two underscores [get_channel_id] and [get_short_attr_name] look
    for, so neither goes through the null pointer that [strchr] gives for a
    name without them, and [get_channel_id] returns.  [get_short_attr_name]
    returns when the name does not end in a modifier; when it does (as
    in_accel_x), the function moves its pointer beyond the terminator and
    reads from there, which is outside defined behaviour.  (A modifier the
    table finds at the start of a string is taken to be no longer than the
    string.) *)
Theorem short_name_needs_more_than_a_modifier
    (X : Externals) (dev : iio_device) (chn : iio_channel) (attr : string)
    (strict : bool) (w : World) :
  WITH_HWMON && iio_device_is_hwmon (dev_id dev) = false ->
  is_channel dev attr strict = true ->
  (forall s len, find_channel_modifier s = Some len ->
                 (len <= CStr.strlen s)%nat) ->
  (exists id w', get_channel_id dev attr w = Done id w')
  /\ (ends_in_modifier attr = false ->
      exists name w', get_short_attr_name dev chn attr w = Done name w')
  /\ (ends_in_modifier attr = true ->
      get_short_attr_name dev chn attr w = Undefined).
Proof.
  intros Hhw Hchn Hmod.
  destruct (is_channel_shape dev attr strict Hhw Hchn)
    as (dir & rest & q & -> & Hdir & Hq).
  assert (Hhw' : negb WITH_HWMON || negb (iio_device_is_hwmon (dev_id dev))
                 = true).
  { destruct WITH_HWMON, (iio_device_is_hwmon (dev_id dev));
      simpl in *; congruence. }
  destruct (strchr_some _ _ _ Hq) as (Hqlt & _ & _).
  assert (Hadv : CStr.strlen (CStr.advance rest (q + 1))
                 = (CStr.strlen rest - (q + 1))%nat)
    by apply advance_length.
  split; [|split].
  - unfold get_channel_id. rewrite Hhw'.
    destruct Hdir as [-> | ->]; cbn [CStr.strchr String.append Ascii.eqb
      Bool.eqb Nat.add CStr.advance option_map]; rewrite Hq;
      (destruct (find_channel_modifier (CStr.advance rest (q + 1)))
         as [len|] eqn:Em;
       [apply Hmod in Em;
        destruct (Nat.ltb_spec (CStr.strlen rest) (q + (len + 1))); [lia|]
       |destruct (Nat.ltb_spec (CStr.strlen rest) q); [lia|]]);
      unfold bind; destruct (alloc_done w) as (ok & w' & ->); eauto.
  - unfold ends_in_modifier, get_short_attr_name. rewrite Hhw.
    destruct Hdir as [-> | ->]; cbn [CStr.strchr String.append Ascii.eqb
      Bool.eqb Nat.add CStr.advance option_map]; rewrite Hq;
      (destruct (find_channel_modifier (CStr.advance rest (q + 1)))
         as [len|] eqn:Em;
       [intros Hend; apply Nat.leb_gt in Hend;
        destruct (Nat.ltb_spec (CStr.strlen (CStr.advance rest (q + 1)))
                    (len + 1)); [lia|]
       |intros _]);
      apply iio_strdup_done.
  - unfold ends_in_modifier, get_short_attr_name. rewrite Hhw.
    destruct Hdir as [-> | ->]; cbn [CStr.strchr String.append Ascii.eqb
      Bool.eqb Nat.add CStr.advance option_map]; rewrite Hq;
      (destruct (find_channel_modifier (CStr.advance rest (q + 1)))
         as [len|] eqn:Em; [|discriminate]);
      intros Hend; apply Nat.leb_le in Hend;
      (destruct (Nat.ltb_spec (CStr.strlen (CStr.advance rest (q + 1)))
                  (len + 1)); [reflexivity | lia]).
Qed.

Lemma advance_advance s a b :
  CStr.advance (CStr.advance s a) b = CStr.advance s (a + b).
Proof.
  revert s. induction a as [|a IH]; intros [|c s]; simpl; auto.
  destruct b; reflexivity.
Qed.

Lemma advance_cons s k :
  (k < CStr.strlen s)%nat ->
  CStr.advance s k = String (CStr.char_at s k) (CStr.advance s (S k)).
Proof.
  revert s. induction k as [|k IH]; intros [|c s] Hk; simpl in *; try lia.
  - reflexivity.
  - apply IH. lia.
Qed.

Lemma string_app_assoc (a b c : string) :
  ((a ++ b) ++ c)%string = (a ++ (b ++ c))%string.
Proof. induction a as [|x a IH]; simpl; [reflexivity | now rewrite IH]. Qed.

Lemma take_all s : CStr.take s (CStr.strlen s) = s.
Proof. induction s as [|c s IH]; simpl; [reflexivity | now rewrite IH]. Qed.

Lemma char_at_append_at p r :
  CStr.char_at (p ++ r) (String.length p) = CStr.char_at r 0.
Proof.
  induction p as [|c p IH]; simpl; [reflexivity | exact IH].
Qed.

(** X9.  Outside hwmon, the id [get_channel_id] gives and the short name
    [get_short_attr_name] gives take a channel attribute name apart without
    loss: the name is the direction, the id, one separator, then (when the
    channel has a display name that stands there before an underscore) that
    name and the underscore, and the short name.  This is for a name that
    does not end in a modifier (something follows the modifier, as in
    in_accel_x_raw). *)
Theorem channel_id_and_short_name_split
    (X : Externals) (dev : iio_device) (chn : iio_channel) (attr : string)
    (strict : bool) (w : World) :
  WITH_HWMON && iio_device_is_hwmon (dev_id dev) = false ->
  is_channel dev attr strict = true ->
  ends_in_modifier attr = false ->
  (1 <= heap_budget w)%nat ->
  exists dir id sep folded short w1 w2,
    get_channel_id dev attr w = Done (Some id) w1
    /\ get_short_attr_name dev chn attr w = Done (Some short) w2
    /\ (dir = "in_" \/ dir = "out_")%string
    /\ attr = (dir ++ id ++ String sep (folded ++ short))%string
    /\ (folded = EmptyString
        \/ exists name, chn_name chn = Some name
                        /\ folded = (name ++ "_")%string).
Proof.
  intros Hhw Hchn Hend Hheap.
  destruct (is_channel_shape dev attr strict Hhw Hchn)
    as (dir & rest & q & -> & Hdir & Hq).
  assert (Hhw' : negb WITH_HWMON || negb (iio_device_is_hwmon (dev_id dev))
                 = true).
  { destruct WITH_HWMON, (iio_device_is_hwmon (dev_id dev));
      simpl in *; congruence. }
  destruct (strchr_some _ _ _ Hq) as (Hqlt & _ & _).
  set (m := find_channel_modifier (CStr.advance rest (q + 1))).
  assert (Hmod : forall len, m = Some len ->
                   (len < CStr.strlen (CStr.advance rest (q + 1)))%nat).
  { intros len Em. unfold ends_in_modifier in Hend.
    destruct Hdir as [-> | ->];
      cbn [CStr.strchr String.append Ascii.eqb Bool.eqb Nat.add CStr.advance
           option_map] in Hend;
      rewrite Hq in Hend; fold m in Hend; rewrite Em in Hend;
      apply Nat.leb_gt in Hend; exact Hend. }
  set (q' := match m with Some len => (q + (len + 1))%nat | None => q end).
  assert (Hq' : (q' < CStr.strlen rest)%nat).
  { unfold q'. destruct m as [len|] eqn:Em; [|exact Hqlt].
    specialize (Hmod len eq_refl). rewrite advance_length in Hmod. lia. }
  set (ptr1 := CStr.advance rest (S q')).
  assert (Hptr1 :
    match m with
    | Some len => CStr.advance (CStr.advance rest (q + 1)) (len + 1)
    | None => CStr.advance rest (q + 1)
    end = ptr1).
  { unfold ptr1, q'. destruct m as [len|]; [rewrite advance_advance|];
      f_equal; lia. }
  assert (Hrest :
    rest = (CStr.take rest q' ++ String (CStr.char_at rest q') ptr1)%string).
  { rewrite <- (take_advance rest q') at 1. f_equal.
    apply advance_cons. exact Hq'. }
  assert (Hfold : exists folded short,
    match chn_name chn with
    | Some name =>
        if CStr.strncmp_eq name ptr1 (CStr.strlen name)
           && Ascii.eqb (CStr.char_at ptr1 (CStr.strlen name)) "_"
        then CStr.advance ptr1 (CStr.strlen name + 1)
        else ptr1
    | None => ptr1
    end = short
    /\ ptr1 = (folded ++ short)%string
    /\ (folded = EmptyString
        \/ exists name, chn_name chn = Some name
                        /\ folded = (name ++ "_")%string)).
  { destruct (chn_name chn) as [name|].
    - destruct (CStr.strncmp_eq name ptr1 (CStr.strlen name)) eqn:Hcmp;
        [|exists EmptyString, ptr1; auto].
      destruct (Ascii.eqb_spec (CStr.char_at ptr1 (CStr.strlen name)) "_")
        as [Hus | Hno]; [|exists EmptyString, ptr1; auto].
      apply strncmp_eq_is_prefix in Hcmp; [|unfold CStr.strlen; lia].
      rewrite take_all in Hcmp. destruct Hcmp as [r Hr].
      rewrite Hr in Hus. unfold CStr.strlen in Hus.
      rewrite char_at_append_at in Hus.
      destruct r as [|c r]; simpl in Hus; [discriminate Hus|]. subst c.
      exists (name ++ "_")%string, r. simpl andb. cbv iota.
      split; [|split; [|right; exists name; auto]].
      + rewrite Hr. replace (CStr.strlen name + 1)%nat
          with (String.length (name ++ "_")) by (rewrite append_length; simpl; reflexivity).
        replace (name ++ String "_" r)%string with ((name ++ "_") ++ r)%string.
        * apply advance_append.
        * rewrite string_app_assoc. reflexivity.
      + rewrite Hr, string_app_assoc. reflexivity.
    - exists EmptyString, ptr1. auto. }
  destruct Hfold as (folded & short & Hshort & Hsplit & Hfolded).
  destruct (heap_budget w) as [|budget] eqn:Hb; [lia|].
  exists dir, (CStr.take rest q'), (CStr.char_at rest q'), folded, short.
  assert (Eid : exists w1,
    get_channel_id dev (dir ++ rest) w = Done (Some (CStr.take rest q')) w1).
  { unfold get_channel_id. rewrite Hhw'.
    destruct Hdir as [-> | ->];
      cbn [CStr.strchr String.append Ascii.eqb Bool.eqb Nat.add CStr.advance
           option_map];
      rewrite Hq; fold m; fold q';
      (destruct (Nat.ltb_spec (CStr.strlen rest) q'); [lia|]);
      unfold bind, alloc; rewrite Hb; eexists; reflexivity. }
  assert (Eshort : exists w2,
    get_short_attr_name dev chn (dir ++ rest) w = Done (Some short) w2).
  { assert (Hstep :
      match m with
      | Some len =>
          if (CStr.strlen (CStr.advance rest (q + 1)) <? len + 1)%nat
          then None
          else Some (CStr.advance (CStr.advance rest (q + 1)) (len + 1))
      | None => Some (CStr.advance rest (q + 1))
      end = Some ptr1).
    { rewrite <- Hptr1. destruct m as [len|] eqn:Em; [|reflexivity].
      specialize (Hmod len eq_refl).
      destruct (Nat.ltb_spec (CStr.strlen (CStr.advance rest (q + 1)))
                  (len + 1)); [lia | reflexivity]. }
    unfold get_short_attr_name. rewrite Hhw.
    destruct Hdir as [-> | ->];
      cbn [CStr.strchr String.append Ascii.eqb Bool.eqb Nat.add CStr.advance
           option_map];
      rewrite Hq; fold m; rewrite Hstep;
      rewrite Hshort; unfold iio_strdup, bind, alloc; rewrite Hb;
      eexists; reflexivity. }
  destruct Eid as [w1 Eid]. destruct Eshort as [w2 Eshort].
  exists w1, w2. split; [exact Eid|]. split; [exact Eshort|].
  split; [exact Hdir|]. split; [|exact Hfolded].
  rewrite <- Hsplit. f_equal. exact Hrest.
Qed.

Section NameExamples.

#[local] Existing Instance plain_build.

Lemma short_name_needs_more_than_a_modifier_witness :
  (exists id w',
     @get_channel_id axis_build (bare_device "iio:device0" 1000) "in_accel_x"
       (quiet_world (fun _ => {| tv_sec := 0; tv_nsec := 0 |}) 1)
     = Done id w')
  /\ (@ends_in_modifier axis_build "in_accel_x" = false ->
      exists name w',
        @get_short_attr_name axis_build (bare_device "iio:device0" 1000)
          (bare_channel "accel_x" false None) "in_accel_x"
          (quiet_world (fun _ => {| tv_sec := 0; tv_nsec := 0 |}) 1)
        = Done name w')
  /\ (@ends_in_modifier axis_build "in_accel_x" = true ->
      @get_short_attr_name axis_build (bare_device "iio:device0" 1000)
        (bare_channel "accel_x" false None) "in_accel_x"
        (quiet_world (fun _ => {| tv_sec := 0; tv_nsec := 0 |}) 1)
      = Undefined).
Proof.
  apply (short_name_needs_more_than_a_modifier axis_build
           (bare_device "iio:device0" 1000)
           (bare_channel "accel_x" false None) "in_accel_x" true
           (quiet_world (fun _ => {| tv_sec := 0; tv_nsec := 0 |}) 1)).
  - reflexivity.
  - reflexivity.
  - intros s len. cbn [find_channel_modifier axis_build].
    destruct s as [|c s]; [discriminate|].
    destruct (_ && _); [|discriminate].
    intros [= <-]. simpl. lia.
Defined.

Lemma channel_id_and_short_name_split_witness :
  exists dir id sep folded short w1 w2,
    get_channel_id (bare_device "iio:device0" 1000) "in_voltage0_rms_raw"
      (quiet_world (fun _ => {| tv_sec := 0; tv_nsec := 0 |}) 1)
    = Done (Some id) w1
    /\ get_short_attr_name (bare_device "iio:device0" 1000)
         {| chn_id := "voltage0"; chn_name := Some "rms"%string;
            is_output := false; is_scan_element := false;
            index := - C.ENOENT; format := zero_format; attrs := [];
            pdata := {| enable_fn := None; protected_attrs := [] |} |}
         "in_voltage0_rms_raw"
         (quiet_world (fun _ => {| tv_sec := 0; tv_nsec := 0 |}) 1)
       = Done (Some short) w2
    /\ (dir = "in_" \/ dir = "out_")%string
    /\ "in_voltage0_rms_raw"%string
       = (dir ++ id ++ String sep (folded ++ short))%string
    /\ (folded = EmptyString
        \/ exists name, Some "rms"%string = Some name
                        /\ folded = (name ++ "_")%string).
Proof.
  apply (channel_id_and_short_name_split plain_build
           (bare_device "iio:device0" 1000)
           {| chn_id := "voltage0"; chn_name := Some "rms"%string;
              is_output := false; is_scan_element := false;
              index := - C.ENOENT; format := zero_format; attrs := [];
              pdata := {| enable_fn := None; protected_attrs := [] |} |}
           "in_voltage0_rms_raw" true
           (quiet_world (fun _ => {| tv_sec := 0; tv_nsec := 0 |}) 1)).
  - reflexivity.
  - reflexivity.
  - reflexivity.
  - simpl. lia.
Defined.

(** in_voltage0_rms_raw of the channel voltage0 named rms: the id is
    voltage0, the short name raw. *)
Example in_voltage0_rms_raw_parts :
  value_of
    (get_channel_id (bare_device "iio:device0" 1000) "in_voltage0_rms_raw"
       (quiet_world (fun _ => {| tv_sec := 0; tv_nsec := 0 |}) 1))
  = Some (Some "voltage0"%string)
  /\ value_of
       (get_short_attr_name (bare_device "iio:device0" 1000)
          {| chn_id := "voltage0"; chn_name := Some "rms"%string;
             is_output := false; is_scan_element := false;
             index := - C.ENOENT; format := zero_format; attrs := [];
             pdata := {| enable_fn := None; protected_attrs := [] |} |}
          "in_voltage0_rms_raw"
          (quiet_world (fun _ => {| tv_sec := 0; tv_nsec := 0 |}) 1))
     = Some (Some "raw"%string).
Proof. split; reflexivity. Qed.

(** With x in the table of modifiers: in_accel_x, which [is_channel]
    accepts, ends in the modifier, and its short name is read from beyond
    the terminator; in_accel_x_raw has the id accel_x and the short name
    raw. *)
Example in_accel_x_has_no_short_name :
  @is_channel axis_build (bare_device "iio:device0" 1000) "in_accel_x" true
  = true
  /\ @ends_in_modifier axis_build "in_accel_x" = true
  /\ @get_short_attr_name axis_build (bare_device "iio:device0" 1000)
       (bare_channel "accel_x" false None) "in_accel_x"
       (quiet_world (fun _ => {| tv_sec := 0; tv_nsec := 0 |}) 1)
     = Undefined
  /\ value_of
       (@get_channel_id axis_build (bare_device "iio:device0" 1000)
          "in_accel_x_raw"
          (quiet_world (fun _ => {| tv_sec := 0; tv_nsec := 0 |}) 1))
     = Some (Some "accel_x"%string)
  /\ value_of
       (@get_short_attr_name axis_build (bare_device "iio:device0" 1000)
          (bare_channel "accel_x" false None) "in_accel_x_raw"
          (quiet_world (fun _ => {| tv_sec := 0; tv_nsec := 0 |}) 1))
     = Some (Some "raw"%string).
Proof. repeat split; reflexivity. Qed.

End NameExamples.

(** What a call of [add_attr_to_channel] that returns leaves. *)
Lemma add_attr_to_channel_inv
    (X : Externals) (dev : iio_device) (chn : iio_channel)
    (attr path : string) (scan : bool) (w w' : World) (r : Z)
    (chn' : iio_channel) :
  add_attr_to_channel dev chn attr path scan w = Done (r, chn') w' ->
  (r = - C.ENOMEM /\ chn' = chn)
  \/ (r = 0
      /\ exists name,
           value_of (get_short_attr_name dev chn attr w) = Some (Some name)
           /\ chn'
              = if scan
                then set_pdata chn
                       {| enable_fn := enable_fn (pdata chn);
                          protected_attrs :=
                            protected_attrs (pdata chn)
                            ++ [{| attr_name := name;
                                   attr_filename := path |}] |}
                else set_attrs chn
                       (attrs chn
                        ++ [{| attr_name := name; attr_filename := path |}])).
Proof.
  unfold add_attr_to_channel. intros E.
  apply bind_inv in E as (name & w1 & Ename & E).
  rewrite Ename. simpl.
  destruct name as [name|]; [|injection E as <- <- _; auto].
  apply bind_inv in E as (fn & w2 & Efn & E).
  unfold iio_strdup in Efn.
  apply bind_inv in Efn as (ok & w3 & _ & Efn).
  destruct ok; injection Efn as <- <-;
    [|injection E as <- <- _; auto].
  destruct scan.
  - apply bind_inv in E as ([r1 chn1] & w4 & Eadd & E).
    unfold add_protected_attr in Eadd.
    apply bind_inv in Eadd as (ok & w5 & _ & Eadd).
    destruct ok; simpl in Eadd; injection Eadd as <- <- <-; simpl in E;
      injection E as <- <- _; [right | left]; eauto.
  - apply bind_inv in E as (ok & w4 & _ & E).
    destruct ok; simpl in E; injection E as <- <- _; [right | left]; eauto.
Qed.

(** An allocation takes one from the budget of the heap, or fails when the
    budget is 0. *)
Lemma alloc_inv w ok w1 :
  alloc w = Done ok w1 ->
  (ok = false /\ heap_budget w = O /\ w1 = w)
  \/ (ok = true /\ heap_budget w = S (heap_budget w1)).
Proof.
  unfold alloc. destruct (heap_budget w) eqn:Hb; intros [= <- <-]; auto.
Qed.

Lemma iio_strdup_inv s w r w1 :
  iio_strdup s w = Done r w1 ->
  (r = None /\ heap_budget w = O /\ w1 = w)
  \/ (r = Some s /\ heap_budget w = S (heap_budget w1)).
Proof.
  unfold iio_strdup. intros E. apply bind_inv in E as (ok & w2 & Ea & E).
  apply alloc_inv in Ea as [(-> & Hb & ->) | (-> & Hb)];
    injection E as <- <-; auto.
Qed.

(** [get_short_attr_name] ends with one allocation. *)
Lemma get_short_attr_name_inv `{Externals} dev chn attr w r w1 :
  get_short_attr_name dev chn attr w = Done r w1 ->
  (r = None /\ heap_budget w = O /\ w1 = w)
  \/ (exists name, r = Some name /\ heap_budget w = S (heap_budget w1)).
Proof.
  unfold get_short_attr_name.
  repeat match goal with
         | |- context [match ?x with _ => _ end] =>
             match x with
             | context [match _ with _ => _ end] => fail 1
             | _ => destruct x
             end
         end;
    try discriminate;
    intros E; apply iio_strdup_inv in E as [E | (-> & Hb)]; eauto.
Qed.

(** X10.  A call of [add_attr_to_channel] that returns makes three
    allocations at most.  It fails with [-ENOMEM], the channel as it was,
    exactly when the heap has room for fewer than three.  Otherwise it
    returns 0 and the channel has one entry more, the short name of the
    attribute with the path as its file: at the end of the protected
    attributes for a scan element, at the end of the attributes otherwise;
    the other list and all the rest of the channel are as they were. *)
Theorem add_attr_to_channel_appends_one
    (X : Externals) (dev : iio_device) (chn : iio_channel)
    (attr path : string) (scan : bool) (w w' : World) (r : Z)
    (chn' : iio_channel) :
  add_attr_to_channel dev chn attr path scan w = Done (r, chn') w' ->
  (r = - C.ENOMEM /\ chn' = chn /\ (heap_budget w < 3)%nat)
  \/ (r = 0
      /\ heap_budget w = (3 + heap_budget w')%nat
      /\ exists name,
           value_of (get_short_attr_name dev chn attr w) = Some (Some name)
           /\ attrs chn'
              = (if scan then attrs chn
                 else attrs chn
                      ++ [{| attr_name := name; attr_filename := path |}])
           /\ protected_attrs (pdata chn')
              = (if scan
                 then protected_attrs (pdata chn)
                      ++ [{| attr_name := name; attr_filename := path |}]
                 else protected_attrs (pdata chn))
           /\ enable_fn (pdata chn') = enable_fn (pdata chn)
           /\ chn_id chn' = chn_id chn
           /\ chn_name chn' = chn_name chn
           /\ is_output chn' = is_output chn
           /\ is_scan_element chn' = is_scan_element chn
           /\ index chn' = index chn
           /\ format chn' = format chn).
Proof.
  unfold add_attr_to_channel. intros E.
  apply bind_inv in E as (name & w1 & Ename & E).
  rewrite Ename. cbn [value_of].
  apply get_short_attr_name_inv in Ename
    as [(-> & Hb1 & ->) | (name0 & -> & Hb1)].
  { injection E as <- <- <-. left. repeat split; lia. }
  apply bind_inv in E as (fn & w2 & Efn & E).
  apply iio_strdup_inv in Efn as [(-> & Hb2 & ->) | (-> & Hb2)].
  { injection E as <- <- <-. left. repeat split; lia. }
  destruct scan.
  - apply bind_inv in E as ([r1 chn1] & w4 & Eadd & E).
    unfold add_protected_attr in Eadd.
    apply bind_inv in Eadd as (ok & w5 & Ea & Eadd).
    apply alloc_inv in Ea as [(-> & Hb3 & ->) | (-> & Hb3)];
      cbn [negb] in Eadd; injection Eadd as <- <- <-; simpl in E;
      injection E as <- <- <-.
    + left. repeat split; lia.
    + right. split; [reflexivity|]. split; [lia|].
      exists name0. repeat split.
  - apply bind_inv in E as (ok & w4 & Ea & E).
    apply alloc_inv in Ea as [(-> & Hb3 & ->) | (-> & Hb3)];
      cbn [negb] in E; injection E as <- <- <-.
    + left. repeat split; lia.
    + right. split; [reflexivity|]. split; [lia|].
      exists name0. repeat split.
Qed.

Lemma add_attr_to_channel_key `{Externals} dev chn attr path scan w r chn' w' :
  add_attr_to_channel dev chn attr path scan w = Done (r, chn') w' ->
  channel_key chn' = channel_key chn.
Proof.
  unfold add_attr_to_channel. intros E.
  apply bind_inv in E as (name & w1 & _ & E).
  destruct name as [name|]; [|injection E as _ <- _; reflexivity].
  apply bind_inv in E as (fn & w2 & Efn & E).
  destruct fn as [fn|]; [|injection E as _ <- _; reflexivity].
  destruct scan.
  - apply bind_inv in E as ([r1 chn1] & w4 & Eadd & E).
    unfold add_protected_attr in Eadd.
    apply bind_inv in Eadd as (ok & w5 & _ & Eadd).
    destruct ok; simpl in Eadd; injection Eadd as <- <- <-; simpl in E;
      injection E as _ <- _; reflexivity.
  - apply bind_inv in E as (ok & w4 & _ & E).
    destruct ok; simpl in E; injection E as _ <- _; reflexivity.
Qed.

(** The channel that takes the attribute keeps its place, its id and its
    direction. *)
Lemma add_to_known_channel_keys `{Externals} dev channel_id name path scan :
  forall l c w r l' w',
    add_to_known_channel dev l channel_id name path scan = Some c ->
    c w = Done (r, l') w' ->
    map channel_key l' = map channel_key l.
Proof.
  induction l as [|chn l IH]; intros c w r l' w'; simpl; [discriminate|].
  destruct (CStr.strcmp_eq (chn_id chn) channel_id
            && Bool.eqb (is_output chn) (Ascii.eqb (CStr.char_at name 0) "o")).
  - intros [= <-] E.
    apply bind_inv in E as ([r1 chn1] & w1 & Eadd & E).
    injection E as _ <- _. simpl. f_equal.
    apply add_attr_to_channel_key in Eadd. exact Eadd.
  - destruct (add_to_known_channel dev l channel_id name path scan)
      as [c0|] eqn:E0; [|discriminate].
    intros [= <-] E.
    apply bind_inv in E as ([r1 l1] & w1 & Ec & E).
    injection E as _ <- _. simpl. f_equal. eapply IH; eauto.
Qed.

Lemma add_to_known_channel_none `{Externals} dev channel_id name path scan :
  forall l,
    add_to_known_channel dev l channel_id name path scan = None ->
    ~ In (channel_id, Ascii.eqb (CStr.char_at name 0) "o")
         (map channel_key l).
Proof.
  induction l as [|chn l IH]; simpl; [auto|].
  destruct (CStr.strcmp_eq (chn_id chn) channel_id
            && Bool.eqb (is_output chn) (Ascii.eqb (CStr.char_at name 0) "o"))
    eqn:Hmatch; [discriminate|].
  destruct (add_to_known_channel dev l channel_id name path scan);
    [discriminate|].
  intros _ [Hhere | Hthere]; [|apply IH; auto].
  unfold channel_key in Hhere. injection Hhere as Hid Hdir.
  unfold CStr.strcmp_eq in Hmatch.
  rewrite Hid, Hdir, String.eqb_refl, Bool.eqb_reflx in Hmatch.
  discriminate Hmatch.
Qed.

Lemma add_to_known_channel_some `{Externals} dev channel_id name path scan :
  forall l c,
    add_to_known_channel dev l channel_id name path scan = Some c ->
    In (channel_id, Ascii.eqb (CStr.char_at name 0) "o") (map channel_key l).
Proof.
  induction l as [|chn l IH]; intros c; simpl; [discriminate|].
  destruct (CStr.strcmp_eq (chn_id chn) channel_id
            && Bool.eqb (is_output chn) (Ascii.eqb (CStr.char_at name 0) "o"))
    eqn:Hmatch.
  - intros _. left. apply andb_prop in Hmatch as [Hid Hdir].
    unfold CStr.strcmp_eq in Hid. apply String.eqb_eq in Hid.
    apply Bool.eqb_prop in Hdir. unfold channel_key. congruence.
  - destruct (add_to_known_channel dev l channel_id name path scan)
      as [c0|] eqn:E0; [|discriminate].
    intros _. right. eapply IH; eauto.
Qed.

(** A new channel has the id it was created for and, outside hwmon, the
    direction its first attribute starts with. *)
Lemma create_channel_key `{Externals} dev id attr path scan w chn w' :
  WITH_HWMON && iio_device_is_hwmon (dev_id dev) = false ->
  create_channel dev id attr path scan w = Done (inr chn) w' ->
  channel_key chn = (id, Ascii.eqb (CStr.char_at attr 0) "o").
Proof.
  intros Hhw. unfold create_channel. intros E.
  assert (Hhw' : negb WITH_HWMON || negb (iio_device_is_hwmon (dev_id dev))
                 = true).
  { destruct WITH_HWMON, (iio_device_is_hwmon (dev_id dev));
      simpl in *; congruence. }
  rewrite Hhw' in E.
  apply bind_inv in E as (ok1 & w1 & _ & E).
  destruct ok1; [|discriminate E]. cbn [negb] in E.
  apply bind_inv in E as (ok2 & w2 & _ & E).
  destruct ok2; [|discriminate E]. cbn [negb] in E.
  destruct (CStr.strncmp_eq attr "out_" 4) eqn:Hout.
  - apply bind_inv in E as ([err chn1] & w3 & Eadd & E).
    apply add_attr_to_channel_key in Eadd.
    destruct (negb (err =? 0)); [discriminate E|].
    injection E as <- _. rewrite Eadd. unfold channel_key. simpl.
    destruct (starts_with_out attr Hout) as [r0 ->]. reflexivity.
  - destruct (CStr.strncmp_eq attr "in_" 3) eqn:Hin; [|discriminate E].
    cbn [negb] in E.
    apply bind_inv in E as ([err chn1] & w3 & Eadd & E).
    apply add_attr_to_channel_key in Eadd.
    destruct (negb (err =? 0)); [discriminate E|].
    injection E as <- _. rewrite Eadd. unfold channel_key. simpl.
    destruct (starts_with_in attr Hin) as [r0 ->]. reflexivity.
Qed.

Lemma NoDup_snoc {A} (l : list A) (x : A) :
  NoDup l -> ~ In x l -> NoDup (l ++ [x]).
Proof.
  induction 1 as [|y l Hy Hl IH]; simpl; intros Hx.
  - constructor; [auto | constructor].
  - constructor.
    + rewrite in_app_iff. simpl. intuition congruence.
    + apply IH. auto.
Qed.

(** X11.  Outside hwmon, [add_channel] keeps the channels of a device
    distinct by id and direction: the attribute goes to the channel that has
    the id and the direction of its name, and a channel is created only when
    there is none.  The channels that were there keep their places, at most
    one is added, at the end; and after a call that returns 0 the device has
    the channel of the name.  (The initialisation a new channel goes through
    is taken to leave its id and direction alone.) *)
Theorem add_channel_keeps_channels_distinct
    (X : Externals) (dev : iio_device) (name path : string) (scan : bool)
    (w w' : World) (r : Z) (dev' : iio_device) :
  WITH_HWMON && iio_device_is_hwmon (dev_id dev) = false ->
  (forall c, channel_key (iio_channel_init_finalize c) = channel_key c) ->
  NoDup (map channel_key (channels dev)) ->
  add_channel dev name path scan w = Done (r, dev') w' ->
  NoDup (map channel_key (channels dev'))
  /\ (exists added,
        map channel_key (channels dev')
        = map channel_key (channels dev) ++ added
        /\ (List.length added <= 1)%nat)
  /\ (r = 0 ->
      exists id,
        value_of (get_channel_id dev name w) = Some (Some id)
        /\ In (id, Ascii.eqb (CStr.char_at name 0) "o")
              (map channel_key (channels dev'))).
Proof.
  intros Hhw Hinit Hnodup E. unfold add_channel in E.
  apply bind_inv in E as (channel_id & w1 & Eid & E).
  rewrite Eid. simpl.
  destruct channel_id as [channel_id|].
  2:{ injection E as <- <- _. split; [exact Hnodup|].
      split; [exists []; rewrite app_nil_r; auto|].
      unfold C.ENOMEM. discriminate. }
  destruct (add_to_known_channel dev (channels dev) channel_id name path scan)
    as [c|] eqn:Eknown.
  - apply bind_inv in E as ([r1 l1] & w2 & Ec & E).
    injection E as <- <- _. simpl.
    pose proof (add_to_known_channel_keys _ _ _ _ _ _ _ _ _ _ _ Eknown Ec)
      as Hkeys.
    rewrite Hkeys. split; [exact Hnodup|].
    split; [exists []; rewrite app_nil_r; auto|].
    intros _. exists channel_id. split; [reflexivity|].
    eapply add_to_known_channel_some; eauto.
  - apply add_to_known_channel_none in Eknown.
    apply bind_inv in E as (chn & w2 & Ecreate & E).
    destruct chn as [err | chn].
    + injection E as <- <- _. split; [exact Hnodup|].
      split; [exists []; rewrite app_nil_r; auto|].
      intros ->.
      (* a creation that fails does not return 0 *)
      exfalso. revert Ecreate. unfold create_channel. intros Ecreate.
      apply bind_inv in Ecreate as (ok1 & w3 & _ & Ecreate).
      destruct ok1; [|discriminate Ecreate]. cbn [negb] in Ecreate.
      apply bind_inv in Ecreate as (ok2 & w4 & _ & Ecreate).
      destruct ok2; [|discriminate Ecreate]. cbn [negb] in Ecreate.
      destruct (if negb WITH_HWMON || negb (iio_device_is_hwmon (dev_id dev))
                then
                  if CStr.strncmp_eq name "out_" 4 then inr true
                  else if negb (CStr.strncmp_eq name "in_" 3)
                       then inl (- C.EINVAL) else inr false
                else inr false) as [e | out] eqn:Hd.
      * destruct (negb WITH_HWMON || negb (iio_device_is_hwmon (dev_id dev)));
          [|discriminate Hd].
        destruct (CStr.strncmp_eq name "out_" 4); [discriminate Hd|].
        destruct (negb (CStr.strncmp_eq name "in_" 3)); [|discriminate Hd].
        injection Hd as <-. discriminate Ecreate.
      * apply bind_inv in Ecreate as ([err chn1] & w5 & _ & Ecreate).
        destruct (Z.eqb_spec err 0) as [-> | Hne]; simpl in Ecreate;
          [discriminate Ecreate|].
        injection Ecreate as Herr. congruence.
    + apply create_channel_key in Ecreate; [|exact Hhw].
      unfold add_channel_to_device in E.
      apply bind_inv in E as (ok & w3 & _ & E).
      destruct ok; simpl in E; injection E as <- <- _.
      * simpl. rewrite map_app. simpl. rewrite Hinit, Ecreate.
        split.
        -- apply NoDup_snoc; assumption.
        -- split; [eexists; split; [reflexivity | simpl; lia]|].
           intros _. exists channel_id. split; [reflexivity|].
           apply in_or_app. right. left. reflexivity.
      * split; [exact Hnodup|].
        split; [exists []; rewrite app_nil_r; auto|].
        unfold C.ENOMEM. discriminate.
Qed.

Section ChannelExamples.

#[local] Existing Instance plain_build.

Lemma add_attr_to_channel_appends_one_witness :
  (0 = - C.ENOMEM
   /\ set_attrs (bare_channel "voltage0" false None)
        [{| attr_name := "raw"; attr_filename := "in_voltage0_raw" |}]
      = bare_channel "voltage0" false None
   /\ (heap_budget (quiet_world (fun _ => {| tv_sec := 0; tv_nsec := 0 |}) 3)
       < 3)%nat)
  \/ (0 = 0
      /\ heap_budget (quiet_world (fun _ => {| tv_sec := 0; tv_nsec := 0 |}) 3)
         = (3 + heap_budget
                  (quiet_world (fun _ => {| tv_sec := 0; tv_nsec := 0 |}) 0))%nat
      /\ exists name,
           value_of
             (get_short_attr_name (bare_device "iio:device0" 1000)
                (bare_channel "voltage0" false None) "in_voltage0_raw"
                (quiet_world (fun _ => {| tv_sec := 0; tv_nsec := 0 |}) 3))
           = Some (Some name)
           /\ attrs (set_attrs (bare_channel "voltage0" false None)
                       [{| attr_name := "raw";
                           attr_filename := "in_voltage0_raw" |}])
              = (if false then attrs (bare_channel "voltage0" false None)
                 else attrs (bare_channel "voltage0" false None)
                      ++ [{| attr_name := name;
                             attr_filename := "in_voltage0_raw" |}])
           /\ protected_attrs
                (pdata (set_attrs (bare_channel "voltage0" false None)
                          [{| attr_name := "raw";
                              attr_filename := "in_voltage0_raw" |}]))
              = (if false
                 then protected_attrs
                        (pdata (bare_channel "voltage0" false None))
                      ++ [{| attr_name := name;
                             attr_filename := "in_voltage0_raw" |}]
                 else protected_attrs
                        (pdata (bare_channel "voltage0" false None)))
           /\ enable_fn
                (pdata (set_attrs (bare_channel "voltage0" false None)
                          [{| attr_name := "raw";
                              attr_filename := "in_voltage0_raw" |}]))
              = enable_fn (pdata (bare_channel "voltage0" false None))
           /\ chn_id (set_attrs (bare_channel "voltage0" false None)
                        [{| attr_name := "raw";
                            attr_filename := "in_voltage0_raw" |}])
              = chn_id (bare_channel "voltage0" false None)
           /\ chn_name (set_attrs (bare_channel "voltage0" false None)
                          [{| attr_name := "raw";
                              attr_filename := "in_voltage0_raw" |}])
              = chn_name (bare_channel "voltage0" false None)
           /\ is_output (set_attrs (bare_channel "voltage0" false None)
                           [{| attr_name := "raw";
                               attr_filename := "in_voltage0_raw" |}])
              = is_output (bare_channel "voltage0" false None)
           /\ is_scan_element
                (set_attrs (bare_channel "voltage0" false None)
                   [{| attr_name := "raw";
                       attr_filename := "in_voltage0_raw" |}])
              = is_scan_element (bare_channel "voltage0" false None)
           /\ index (set_attrs (bare_channel "voltage0" false None)
                       [{| attr_name := "raw";
                           attr_filename := "in_voltage0_raw" |}])
              = index (bare_channel "voltage0" false None)
           /\ format (set_attrs (bare_channel "voltage0" false None)
                        [{| attr_name := "raw";
                            attr_filename := "in_voltage0_raw" |}])
              = format (bare_channel "voltage0" false None)).
Proof.
  apply (add_attr_to_channel_appends_one plain_build
           (bare_device "iio:device0" 1000)
           (bare_channel "voltage0" false None)
           "in_voltage0_raw" "in_voltage0_raw" false
           (quiet_world (fun _ => {| tv_sec := 0; tv_nsec := 0 |}) 3)
           (quiet_world (fun _ => {| tv_sec := 0; tv_nsec := 0 |}) 0)).
  reflexivity.
Defined.

Lemma add_channel_keeps_channels_distinct_witness :
  NoDup
    (map channel_key
       (channels
          (device_with "iio:device0"
             [bare_channel "voltage0" false None;
              channel_with "voltage1"
                [{| attr_name := "raw";
                    attr_filename := "in_voltage1_raw" |}]] [])))
  /\ (exists added,
        map channel_key
          (channels
             (device_with "iio:device0"
                [bare_channel "voltage0" false None;
                 channel_with "voltage1"
                   [{| attr_name := "raw";
                       attr_filename := "in_voltage1_raw" |}]] []))
        = map channel_key
            (channels
               (device_with "iio:device0"
                  [bare_channel "voltage0" false None] []))
          ++ added
        /\ (List.length added <= 1)%nat)
  /\ (0 = 0 ->
      exists id,
        value_of
          (get_channel_id
             (device_with "iio:device0"
                [bare_channel "voltage0" false None] [])
             "in_voltage1_raw"
             (quiet_world (fun _ => {| tv_sec := 0; tv_nsec := 0 |}) 10))
        = Some (Some id)
        /\ In (id, Ascii.eqb (CStr.char_at "in_voltage1_raw" 0) "o")
              (map channel_key
                 (channels
                    (device_with "iio:device0"
                       [bare_channel "voltage0" false None;
                        channel_with "voltage1"
                          [{| attr_name := "raw";
                              attr_filename := "in_voltage1_raw" |}]] [])))).
Proof.
  apply (add_channel_keeps_channels_distinct plain_build
           (device_with "iio:device0" [bare_channel "voltage0" false None] [])
           "in_voltage1_raw" "in_voltage1_raw" false
           (quiet_world (fun _ => {| tv_sec := 0; tv_nsec := 0 |}) 10)
           (quiet_world (fun _ => {| tv_sec := 0; tv_nsec := 0 |}) 3)).
  - reflexivity.
  - intros c. reflexivity.
  - simpl. constructor; [simpl; tauto | constructor].
  - reflexivity.
Defined.

End ChannelExamples.

Lemma subsequence_refl {A} (l : list A) : subsequence l l.
Proof.
  induction l; [apply subsequence_nil | apply subsequence_keep; auto].
Qed.

Lemma subsequence_trans {A} (l1 l2 l3 : list A) :
  subsequence l1 l2 -> subsequence l2 l3 -> subsequence l1 l3.
Proof.
  intros H12 H23. revert l1 H12.
  induction H23 as [|x l2 l3 H IH|x l2 l3 H IH]; intros l1 H12.
  - exact H12.
  - apply subsequence_skip. apply IH. exact H12.
  - inversion H12; subst.
    + apply subsequence_skip. apply IH. assumption.
    + apply subsequence_keep. apply IH. assumption.
Qed.

Lemma compact_some (l : list string) : compact (map Some l) = l.
Proof. induction l as [|a l IH]; simpl; [reflexivity | now rewrite IH]. Qed.

Lemma detect_global_attr_in_keys `{Externals} dev attr level :
  forall l matched w r m l' w',
    detect_global_attr_in dev l attr level matched w = Done (r, m, l') w' ->
    map channel_key l' = map channel_key l.
Proof.
  induction l as [|chn l IH]; intros matched w r m l' w'; simpl.
  - intros [= _ _ <- _]. reflexivity.
  - destruct (is_global_attr chn attr =? level).
    + intros E. apply bind_inv in E as ([r1 chn1] & w1 & Eadd & E).
      apply add_attr_to_channel_key in Eadd.
      destruct (negb (r1 =? 0)).
      * injection E as _ _ <- _. simpl. now rewrite Eadd.
      * apply bind_inv in E as ([[r2 m2] l2] & w2 & Erec & E).
        injection E as _ _ <- _. simpl. rewrite Eadd. f_equal.
        eapply IH; eauto.
    + intros E. apply bind_inv in E as ([[r2 m2] l2] & w2 & Erec & E).
      injection E as _ _ <- _. simpl. f_equal. eapply IH; eauto.
Qed.

Lemma detect_global_attr_keys `{Externals} dev attr level w r m dev' w' :
  detect_global_attr dev attr level w = Done (r, m, dev') w' ->
  map channel_key (channels dev') = map channel_key (channels dev).
Proof.
  unfold detect_global_attr. intros E.
  apply bind_inv in E as ([[r1 m1] l1] & w1 & Ein & E).
  injection E as _ _ <- _. simpl.
  eapply detect_global_attr_in_keys; eauto.
Qed.

Lemma move_global_attrs_keeps `{Externals} :
  forall names dev w r dev' opts w',
    move_global_attrs dev names w = Done (r, dev', opts) w' ->
    subsequence (compact opts) names
    /\ map channel_key (channels dev') = map channel_key (channels dev).
Proof.
  induction names as [|attr names IH]; intros dev w r dev' opts w'.
  - intros [= _ <- <- _]. split; [apply subsequence_nil | reflexivity].
  - cbn [move_global_attrs]. intros E.
    apply bind_inv in E as ([[r1 m1] dev1] & w1 & E1 & E).
    apply detect_global_attr_keys in E1.
    destruct (negb (r1 =? 0)).
    { injection E as _ <- <- _.
      change (Some attr :: map Some names) with (map Some (attr :: names)).
      rewrite compact_some.
      split; [apply subsequence_refl | exact E1]. }
    apply bind_inv in E as ([[r2 m2] dev2] & w2 & E2 & E).
    assert (K2 : map channel_key (channels dev2)
                 = map channel_key (channels dev1)).
    { destruct (negb m1).
      - eapply detect_global_attr_keys; eauto.
      - injection E2 as _ _ <- _. reflexivity. }
    destruct (negb (r2 =? 0)).
    { injection E as _ <- <- _.
      change (Some attr :: map Some names) with (map Some (attr :: names)).
      rewrite compact_some.
      split; [apply subsequence_refl | congruence]. }
    apply bind_inv in E as ([[r3 dev3] rest] & w3 & E3 & E).
    apply IH in E3 as [Hsub K3].
    injection E as _ <- <- _.
    split; [|congruence].
    destruct m2; simpl;
      [apply subsequence_skip | apply subsequence_keep]; exact Hsub.
Qed.

Lemma add_channel_appends `{Externals} dev name path scan w r dev' w' :
  add_channel dev name path scan w = Done (r, dev') w' ->
  exists added,
    map channel_key (channels dev') = map channel_key (channels dev) ++ added.
Proof.
  unfold add_channel. intros E.
  apply bind_inv in E as (channel_id & w1 & _ & E).
  destruct channel_id as [channel_id|];
    [|injection E as _ <- _; exists []; now rewrite app_nil_r].
  destruct (add_to_known_channel dev (channels dev) channel_id name path scan)
    as [c|] eqn:Eknown.
  - apply bind_inv in E as ([r1 l1] & w2 & Ec & E).
    injection E as _ <- _. simpl.
    rewrite (add_to_known_channel_keys _ _ _ _ _ _ _ _ _ _ _ Eknown Ec).
    exists []. now rewrite app_nil_r.
  - apply bind_inv in E as (chn & w2 & _ & E).
    destruct chn as [err | chn];
      [injection E as _ <- _; exists []; now rewrite app_nil_r|].
    unfold add_channel_to_device in E.
    apply bind_inv in E as (ok & w3 & _ & E).
    destruct ok; simpl in E; injection E as _ <- _.
    + simpl. rewrite map_app. eexists. reflexivity.
    + exists []. now rewrite app_nil_r.
Qed.

Lemma move_bare_channels_keeps `{Externals} :
  forall opts dev w r dev' opts' w',
    move_bare_channels dev opts w = Done (r, dev', opts') w' ->
    subsequence (compact opts') (compact opts)
    /\ exists added,
         map channel_key (channels dev')
         = map channel_key (channels dev) ++ added.
Proof.
  induction opts as [|o opts IH]; intros dev w r dev' opts' w'.
  - intros [= _ <- <- _]. split; [apply subsequence_nil|].
    exists []. now rewrite app_nil_r.
  - cbn [move_bare_channels]. destruct o as [attr|].
    + destruct (is_channel dev attr false).
      * intros E. apply bind_inv in E as ([r1 dev1] & w1 & Eadd & E).
        apply add_channel_appends in Eadd as [added1 K1].
        destruct (negb (r1 =? 0)).
        { injection E as _ <- <- _. split; [apply subsequence_refl|].
          eauto. }
        apply bind_inv in E as ([[r2 dev2] rest] & w2 & Erec & E).
        apply IH in Erec as [Hsub [added2 K2]].
        injection E as _ <- <- _. simpl.
        split; [apply subsequence_skip; exact Hsub|].
        exists (added1 ++ added2). rewrite K2, K1, app_assoc. reflexivity.
      * intros E. apply bind_inv in E as ([[r2 dev2] rest] & w2 & Erec & E).
        apply IH in Erec as [Hsub K2].
        injection E as _ <- <- _. simpl.
        split; [apply subsequence_keep; exact Hsub|].
        exact K2.
    + intros E. apply bind_inv in E as ([[r2 dev2] rest] & w2 & Erec & E).
      apply IH in Erec as [Hsub K2].
      injection E as _ <- <- _. simpl. split; assumption.
Qed.

(** X13.  [detect_and_move_global_attrs] only takes names out of the list
    of device attributes: what it leaves is the list it found with some
    names left out, in the order they had.  The channels that were there
    keep their places, ids and directions; the channels it creates come
    after them. *)
Theorem detect_and_move_global_attrs_keeps_order
    (X : Externals) (dev : iio_device) (w w' : World) (r : Z)
    (dev' : iio_device) :
  detect_and_move_global_attrs dev w = Done (r, dev') w' ->
  subsequence (dev_attrs dev') (dev_attrs dev)
  /\ exists added,
       map channel_key (channels dev')
       = map channel_key (channels dev) ++ added.
Proof.
  unfold detect_and_move_global_attrs. intros E.
  apply bind_inv in E as ([[r1 dev1] opts1] & w1 & E1 & E).
  apply move_global_attrs_keeps in E1 as [Hsub1 K1].
  destruct (negb (r1 =? 0)).
  { injection E as _ <- _. simpl. split; [exact Hsub1|].
    exists []. rewrite app_nil_r. exact K1. }
  apply bind_inv in E as ([[r2 dev2] opts2] & w2 & E2 & E).
  apply move_bare_channels_keeps in E2 as [Hsub2 [added K2]].
  assert (Hsub : subsequence (compact opts2) (dev_attrs dev))
    by (eapply subsequence_trans; eauto).
  destruct (negb (r2 =? 0)); injection E as _ <- _; simpl;
    (split; [exact Hsub|]); exists added; congruence.
Qed.

Section MoveExamples.

#[local] Existing Instance plain_build.

Lemma detect_and_move_global_attrs_keeps_order_witness :
  subsequence
    (dev_attrs
       (device_with "iio:device0"
          [channel_with "voltage0"
             [{| attr_name := "scale"; attr_filename := "in_voltage_scale" |}]]
          ["sampling_frequency"%string]))
    (dev_attrs
       (device_with "iio:device0" [bare_channel "voltage0" false None]
          ["in_voltage_scale"%string; "sampling_frequency"%string]))
  /\ exists added,
       map channel_key
         (channels
            (device_with "iio:device0"
               [channel_with "voltage0"
                  [{| attr_name := "scale";
                      attr_filename := "in_voltage_scale" |}]]
               ["sampling_frequency"%string]))
       = map channel_key
           (channels
              (device_with "iio:device0" [bare_channel "voltage0" false None]
                 ["in_voltage_scale"%string; "sampling_frequency"%string]))
         ++ added.
Proof.
  apply (detect_and_move_global_attrs_keeps_order plain_build
           (device_with "iio:device0" [bare_channel "voltage0" false None]
              ["in_voltage_scale"%string; "sampling_frequency"%string])
           (quiet_world (fun _ => {| tv_sec := 0; tv_nsec := 0 |}) 5)
           (quiet_world (fun _ => {| tv_sec := 0; tv_nsec := 0 |}) 2) 0).
  reflexivity.
Defined.

End MoveExamples.

Lemma strchr_append_found base c r :
  CStr.strchr base c = None ->
  CStr.strchr (base ++ String c r) c = Some (String.length base).
Proof.
  induction base as [|x base IH]; simpl.
  - intros _. now rewrite Ascii.eqb_refl.
  - destruct (Ascii.eqb x c); [discriminate|].
    destruct (CStr.strchr base c); [discriminate|].
    intros _. now rewrite IH.
Qed.

Lemma strchr_append_beyond base c r i :
  CStr.strchr base c = None ->
  CStr.strchr (base ++ r) c = Some i -> (String.length base <= i)%nat.
Proof.
  revert i. induction base as [|x base IH]; simpl; intros i Hnone Hsome.
  - lia.
  - destruct (Ascii.eqb x c); [discriminate|].
    destruct (CStr.strchr base c) eqn:Hb; [discriminate|].
    destruct (CStr.strchr (base ++ r) c) as [k|] eqn:Hk; [|discriminate].
    injection Hsome as <-. specialize (IH k eq_refl eq_refl). lia.
Qed.

Lemma strncmp_eq_append base x y :
  CStr.strncmp_eq (base ++ x) (base ++ y) (String.length base) = true.
Proof.
  induction base as [|c base IH]; simpl; [reflexivity|].
  now rewrite Ascii.eqb_refl.
Qed.

Lemma char_at_append_plus base r i :
  CStr.char_at (base ++ r) (String.length base + i) = CStr.char_at r i.
Proof. induction base as [|c base IH]; simpl; auto. Qed.

Lemma advance_append_plus base r k :
  CStr.advance (base ++ r) (String.length base + k) = CStr.advance r k.
Proof. induction base as [|c base IH]; simpl; auto. Qed.

(** X12.  A device attribute "<dir>_<type>_<rest>" and a channel whose id
    is <type> followed by a digit, where <type> holds no underscore and no
    dash: with the prefix of the direction of the channel the attribute is a
    global attribute of it, a private one (2) when the display name of the
    channel stands in <rest> before an underscore, a shared one (1)
    otherwise; with the prefix of the other direction it is none (0). *)
Theorem indexed_channel_takes_attr_of_its_type
    (X : Externals) (chn : iio_channel) (base tail rest : string)
    (digit : ascii) :
  chn_id chn = (base ++ String digit tail)%string ->
  CStr.is_digit digit = true ->
  CStr.strchr base "_" = None ->
  CStr.strchr base "-" = None ->
  is_global_attr chn
    (direction_prefix (is_output chn) ++ base ++ String "_" rest)
  = match chn_name chn with
    | Some name =>
        if CStr.strncmp_eq name rest (CStr.strlen name)
           && Ascii.eqb (CStr.char_at rest (CStr.strlen name)) "_"
        then 2 else 1
    | None => 1
    end
  /\ is_global_attr chn
       (direction_prefix (negb (is_output chn)) ++ base ++ String "_" rest)
     = 0.
Proof.
  intros Hid Hdigit Hus Hdash. split.
  - assert (Hstrip :
      (if negb (is_output chn)
          && CStr.strncmp_eq
               (direction_prefix (is_output chn) ++ base ++ String "_" rest)
               "in_" 3
       then Some (CStr.advance
                    (direction_prefix (is_output chn) ++ base
                     ++ String "_" rest) 3)
       else if is_output chn
               && CStr.strncmp_eq
                    (direction_prefix (is_output chn) ++ base
                     ++ String "_" rest) "out_" 4
            then Some (CStr.advance
                         (direction_prefix (is_output chn) ++ base
                          ++ String "_" rest) 4)
            else None)
      = Some (base ++ String "_" rest)%string).
    { destruct (is_output chn); reflexivity. }
    unfold is_global_attr. rewrite Hstrip. clear Hstrip.
    rewrite (strchr_append_found base "_" rest Hus).
    assert (Hnodiff :
      match CStr.strchr (base ++ String "_" rest) "-" with
      | Some dashptr =>
          if (0 <? dashptr)%nat && (dashptr <? String.length base)%nat
          then
            match CStr.strchr (chn_id chn) "-" with
            | Some iddashptr =>
                (String.length base - dashptr - 1
                 <? CStr.strlen (CStr.advance (chn_id chn) (iddashptr + 1)))%nat
                && (dashptr <? iddashptr)%nat
                && CStr.is_digit (CStr.char_at (chn_id chn) dashptr)
                && CStr.strncmp_eq (chn_id chn) (base ++ String "_" rest)
                     dashptr
                && CStr.is_digit
                     (CStr.char_at (CStr.advance (chn_id chn) iddashptr)
                        (String.length base - dashptr - 1 + 1))
                && CStr.strncmp_eq (CStr.advance (chn_id chn) (iddashptr + 1))
                     (CStr.advance (base ++ String "_" rest) (dashptr + 1))
                     (String.length base - dashptr - 1)
            | None => false
            end
          else false
      | None => false
      end = false).
    { destruct (CStr.strchr (base ++ String "_" rest) "-") as [d|] eqn:Hd;
        [|reflexivity].
      pose proof (strchr_append_beyond _ _ _ _ Hdash Hd) as Hle.
      destruct (Nat.ltb_spec d (String.length base)); [lia|].
      now rewrite andb_false_r. }
    rewrite Hnodiff. clear Hnodiff.
    rewrite Hid, strncmp_eq_append. cbn [negb].
    replace (String.length base) with (String.length base + 0)%nat at 1
      by lia.
    rewrite char_at_append_plus. cbn [CStr.char_at]. rewrite Hdigit.
    destruct (chn_name chn) as [name|]; [|reflexivity].
    replace (String.length base + 1)%nat with (String.length base + 1)%nat
      by reflexivity.
    rewrite advance_append_plus. cbn [CStr.advance].
    replace (String.length base + 1 + CStr.strlen name)%nat
      with (String.length base + S (CStr.strlen name))%nat by lia.
    rewrite char_at_append_plus. cbn [CStr.char_at]. reflexivity.
  - unfold is_global_attr.
    destruct (is_output chn); reflexivity.
Qed.

Section SharedAttrExamples.

#[local] Existing Instance plain_build.

Lemma indexed_channel_takes_attr_of_its_type_witness :
  is_global_attr (bare_channel "voltage12" false None)
    (direction_prefix false ++ "voltage" ++ String "_" "scale")
  = match chn_name (bare_channel "voltage12" false None) with
    | Some name =>
        if CStr.strncmp_eq name "scale" (CStr.strlen name)
           && Ascii.eqb (CStr.char_at "scale" (CStr.strlen name)) "_"
        then 2 else 1
    | None => 1
    end
  /\ is_global_attr (bare_channel "voltage12" false None)
       (direction_prefix (negb false) ++ "voltage" ++ String "_" "scale")
     = 0.
Proof.
  apply (indexed_channel_takes_attr_of_its_type plain_build
           (bare_channel "voltage12" false None) "voltage" "2" "scale" "1").
  - reflexivity.
  - reflexivity.
  - reflexivity.
  - reflexivity.
Defined.

End SharedAttrExamples.

Lemma get_filename_in_absent l attr :
  ~ In attr (map attr_name l) -> get_filename_in l attr = attr.
Proof.
  induction l as [|a l IH]; simpl; [reflexivity|]. intros Hnot.
  unfold CStr.strcmp_eq.
  destruct (String.eqb_spec attr (attr_name a)) as [E | NE].
  - exfalso. apply Hnot. left. congruence.
  - apply IH. tauto.
Qed.

Lemma get_filename_in_snoc l a attr :
  get_filename_in (l ++ [a]) attr
  = if existsb (fun b => CStr.strcmp_eq attr (attr_name b)) l
    then get_filename_in l attr
    else if CStr.strcmp_eq attr (attr_name a) then attr_filename a else attr.
Proof.
  induction l as [|b l IH]; simpl; [reflexivity|].
  destruct (CStr.strcmp_eq attr (attr_name b)); [reflexivity | exact IH].
Qed.

Lemma existsb_absent l attr :
  ~ In attr (map attr_name l) ->
  existsb (fun b => CStr.strcmp_eq attr (attr_name b)) l = false.
Proof.
  induction l as [|b l IH]; simpl; [reflexivity|]. intros Hnot.
  unfold CStr.strcmp_eq at 1.
  destruct (String.eqb_spec attr (attr_name b)) as [E | NE].
  - exfalso. apply Hnot. left. congruence.
  - apply IH. tauto.
Qed.

(** X14.  An attribute that [add_attr_to_channel] has added (not as a scan
    element) is found by [get_filename] under its short name, with the path
    it was added with, when no attribute of the channel had that short name
    before; the other names are looked up as before.  A read of the channel
    attribute by the short name then opens that file in the directory of
    the device. *)
Theorem added_attr_is_found_by_short_name
    (X : Externals) (dev : iio_device) (chn chn' : iio_channel)
    (attr path name : string) (w w' : World) :
  add_attr_to_channel dev chn attr path false w = Done (0, chn') w' ->
  value_of (get_short_attr_name dev chn attr w) = Some (Some name) ->
  ~ In name (map attr_name (attrs chn)) ->
  get_filename chn' name = path
  /\ (forall other, other <> name ->
                    get_filename chn' other = get_filename chn other)
  /\ (forall len w0,
        local_read_chn_attr dev chn' name len w0
        = local_read_dev_attr dev 0 path len IIO_ATTR_TYPE_DEVICE w0).
Proof.
  intros Eadd Ename Hnew.
  destruct (add_attr_to_channel_inv _ _ _ _ _ _ _ _ _ _ Eadd)
    as [[Hr _] | (_ & name' & Ename' & ->)].
  { unfold C.ENOMEM in Hr. discriminate Hr. }
  rewrite Ename in Ename'. injection Ename' as <-.
  assert (Hfound : get_filename
                     (set_attrs chn
                        (attrs chn
                         ++ [{| attr_name := name; attr_filename := path |}]))
                     name = path).
  { unfold get_filename. simpl. rewrite get_filename_in_snoc.
    rewrite existsb_absent by exact Hnew. simpl.
    unfold CStr.strcmp_eq. now rewrite String.eqb_refl. }
  split; [exact Hfound|]. split.
  - intros other Hother. unfold get_filename. simpl.
    rewrite get_filename_in_snoc. simpl.
    destruct (existsb _ (attrs chn)) eqn:Hex; [reflexivity|].
    unfold CStr.strcmp_eq.
    destruct (String.eqb_spec other name); [contradiction|].
    symmetry. apply get_filename_in_absent.
    intros Hin. apply in_map_iff in Hin as (b & Hb & Hinb).
    assert (Hex' : existsb
                     (fun b0 => CStr.strcmp_eq other (attr_name b0))
                     (attrs chn) = true).
    { apply existsb_exists. exists b. split; [exact Hinb|].
      unfold CStr.strcmp_eq. rewrite Hb. apply String.eqb_refl. }
    congruence.
  - intros len w0. unfold local_read_chn_attr. now rewrite Hfound.
Qed.

Lemma first_char_of_text data :
  Ascii.eqb (CStr.char_at (attribute_text data) 0) "1"
  = (2 <=? CStr.strlen data)%nat && Ascii.eqb (CStr.char_at data 0) "1".
Proof.
  unfold attribute_text.
  destruct data as [|c [|c' data]]; try reflexivity.
  change (CStr.strlen (String c (String c' data)) - 1)%nat
    with (S (String.length data)).
  simpl. destruct (Ascii.eqb_spec c CStr.NUL) as [-> | Hc]; reflexivity.
Qed.

(** X15.  The state of a channel (index 0) is read from its enable file
    into a buffer of 8 bytes: a file of 8 bytes or more gives [-EFBIG], an
    empty file [-EIO]; otherwise the state is 1 when the file starts with
    the character 1 and holds one more byte at least (the last byte read is
    always cut off), and 0 if not. *)
Theorem channel_read_state_of_enable_file
    (X : Externals) (dev : iio_device) (chn : iio_channel) (fn : string)
    (w : World) (data : string) (n : Z) (fs : list stdio_outcome) :
  enable_fn (pdata chn) = Some fn ->
  files w = Opened data n None :: fs ->
  value_of (channel_read_state dev chn 0 w)
  = Some (if (8 <=? CStr.strlen data)%nat then - C.EFBIG
          else if (CStr.strlen data =? 0)%nat then - C.EIO
          else Z.b2z ((2 <=? CStr.strlen data)%nat
                      && Ascii.eqb (CStr.char_at data 0) "1")).
Proof.
  intros Hfn Hf. unfold channel_read_state. rewrite Hfn.
  change (negb (0 =? 0)) with false. cbv iota.
  assert (Hpath : exists path,
    attr_path dev 0 fn IIO_ATTR_TYPE_DEVICE = Some path).
  { unfold attr_path.
    destruct (WITH_HWMON && iio_device_is_hwmon (dev_id dev)); eauto. }
  destruct Hpath as [path Hpath].
  destruct (local_read_dev_attr_reads X dev fn path 8 IIO_ATTR_TYPE_DEVICE w
              data n fs Hpath Hf ltac:(lia)) as (w' & E & _).
  rewrite (bind_done _ _ _ _ _ E).
  destruct (Z.leb_spec 8 (Z.of_nat (CStr.strlen data)));
    destruct (Nat.leb_spec 8 (CStr.strlen data)); try lia; [reflexivity|].
  destruct (Nat.eqb_spec (CStr.strlen data) 0); [reflexivity|].
  rewrite to_int_id by lia.
  destruct (Z.ltb_spec (Z.of_nat (CStr.strlen data)) 0); [lia|].
  unfold ret. simpl. do 2 f_equal. apply first_char_of_text.
Qed.

Section StateExamples.

#[local] Existing Instance plain_build.

Lemma added_attr_is_found_by_short_name_witness :
  get_filename
    (channel_with "voltage0"
       [{| attr_name := "raw"; attr_filename := "in_voltage0_raw" |}]) "raw"
  = "in_voltage0_raw"%string
  /\ (forall other, other <> "raw"%string ->
        get_filename
          (channel_with "voltage0"
             [{| attr_name := "raw"; attr_filename := "in_voltage0_raw" |}])
          other
        = get_filename (bare_channel "voltage0" false None) other)
  /\ (forall len w0,
        local_read_chn_attr (bare_device "iio:device0" 1000)
          (channel_with "voltage0"
             [{| attr_name := "raw"; attr_filename := "in_voltage0_raw" |}])
          "raw" len w0
        = local_read_dev_attr (bare_device "iio:device0" 1000) 0
            "in_voltage0_raw" len IIO_ATTR_TYPE_DEVICE w0).
Proof.
  apply (added_attr_is_found_by_short_name plain_build
           (bare_device "iio:device0" 1000)
           (bare_channel "voltage0" false None)
           (channel_with "voltage0"
              [{| attr_name := "raw"; attr_filename := "in_voltage0_raw" |}])
           "in_voltage0_raw" "in_voltage0_raw" "raw"
           (quiet_world (fun _ => {| tv_sec := 0; tv_nsec := 0 |}) 3)
           (quiet_world (fun _ => {| tv_sec := 0; tv_nsec := 0 |}) 0)).
  - reflexivity.
  - reflexivity.
  - simpl. tauto.
Defined.

Lemma channel_read_state_of_enable_file_witness :
  value_of
    (channel_read_state (bare_device "iio:device0" 1000)
       (bare_channel "voltage0" false
          (Some "scan_elements/in_voltage0_en"%string)) 0
       (sysfs_world [Opened (line "1") 0 None]))
  = Some (if (8 <=? CStr.strlen (line "1"))%nat then - C.EFBIG
          else if (CStr.strlen (line "1") =? 0)%nat then - C.EIO
          else Z.b2z ((2 <=? CStr.strlen (line "1"))%nat
                      && Ascii.eqb (CStr.char_at (line "1") 0) "1")).
Proof.
  apply (channel_read_state_of_enable_file plain_build
           (bare_device "iio:device0" 1000)
           (bare_channel "voltage0" false
              (Some "scan_elements/in_voltage0_en"%string))
           "scan_elements/in_voltage0_en"
           (sysfs_world [Opened (line "1") 0 None]) (line "1") 0 []).
  - reflexivity.
  - reflexivity.
Defined.

(** A file that holds the character 1 and nothing after it reads as 0. *)
Example enable_file_without_line_feed :
  value_of
    (channel_read_state (bare_device "iio:device0" 1000)
       (bare_channel "voltage0" false
          (Some "scan_elements/in_voltage0_en"%string)) 0
       (sysfs_world [Opened "1" 0 None]))
  = Some 0.
Proof. reflexivity. Qed.

End StateExamples.

Lemma find_device_named_none devices name :
  (forall cur, In cur devices -> dev_name cur <> Some name) ->
  find_device_named devices name = None.
Proof.
  induction devices as [|d l IH]; simpl; [reflexivity|]. intros Hnone.
  destruct (dev_name d) as [n|] eqn:Hn.
  - unfold CStr.strcmp_eq. destruct (String.eqb_spec n name) as [-> | NE].
    + exfalso. apply (Hnone d); auto.
    + apply IH. intros cur Hcur. apply Hnone. auto.
  - apply IH. intros cur Hcur. apply Hnone. auto.
Qed.

Lemma find_device_named_first before cur after name :
  dev_name cur = Some name ->
  (forall d, In d before -> dev_name d <> Some name) ->
  find_device_named (before ++ cur :: after) name = Some cur.
Proof.
  intros Hcur. induction before as [|d l IH]; simpl; intros Hnone.
  - rewrite Hcur. unfold CStr.strcmp_eq. now rewrite String.eqb_refl.
  - destruct (dev_name d) as [n|] eqn:Hn.
    + unfold CStr.strcmp_eq. destruct (String.eqb_spec n name) as [-> | NE].
      * exfalso. apply (Hnone d); auto.
      * apply IH. intros x Hx. apply Hnone. auto.
    + apply IH. intros x Hx. apply Hnone. auto.
Qed.

Lemma char_at_c_str_nul s :
  CStr.char_at (CStr.c_str s) 0 = CStr.NUL -> CStr.c_str s = EmptyString.
Proof.
  destruct s as [|c s]; simpl; [reflexivity|].
  destruct (Ascii.eqb_spec c CStr.NUL) as [-> | Hc]; [reflexivity|].
  simpl. intros ->. contradiction.
Qed.

(** X16.  [local_get_trigger], when the file [trigger/current_trigger]
    reads as [text]: an empty text means no trigger (0, and the result is
    [NULL]); otherwise the trigger is the first device of the context whose
    name is [text]; when no device has that name the call returns [-ENXIO]
    and leaves the result as it found it. *)
Theorem local_get_trigger_finds_device_by_name
    (X : Externals) (devices : list iio_device) (dev : iio_device)
    (trigger0 : option iio_device) (w : World) (data : string) (n : Z)
    (fs : list stdio_outcome) :
  files w = Opened data n None :: fs ->
  (0 < CStr.strlen data < 1024)%nat ->
  exists r trigger w',
    local_get_trigger devices dev trigger0 w = Done (r, trigger) w'
    /\ (attribute_text data = EmptyString -> r = 0 /\ trigger = None)
    /\ (attribute_text data <> EmptyString ->
        (forall cur, In cur devices ->
                     dev_name cur <> Some (attribute_text data)) ->
        r = - C.ENXIO /\ trigger = trigger0)
    /\ (attribute_text data <> EmptyString ->
        forall before cur after,
          devices = before ++ cur :: after ->
          dev_name cur = Some (attribute_text data) ->
          (forall d, In d before ->
                     dev_name d <> Some (attribute_text data)) ->
          r = 0 /\ trigger = Some cur).
Proof.
  intros Hf Hlen. unfold local_get_trigger.
  destruct (local_read_dev_attr_text dev "trigger/current_trigger" w data n fs
              Hf Hlen) as (w' & E).
  rewrite (bind_done _ _ _ _ _ E).
  destruct (Z.ltb_spec (Z.of_nat (CStr.strlen data)) 0); [lia|].
  destruct (Ascii.eqb_spec (CStr.char_at (attribute_text data) 0) CStr.NUL)
    as [Hnul | Hchar].
  - apply char_at_c_str_nul in Hnul. fold (attribute_text data) in Hnul.
    exists 0, None, w'. split; [reflexivity|].
    split; [auto|]. split; intros Hne; contradiction.
  - assert (Hne : attribute_text data <> EmptyString).
    { intros Hempty. rewrite Hempty in Hchar. apply Hchar. reflexivity. }
    destruct (find_device_named devices (attribute_text data)) as [cur|] eqn:Hfind.
    + exists 0, (Some cur), w'. split; [reflexivity|].
      split; [intros; contradiction|]. split.
      * intros _ Hnone. rewrite find_device_named_none in Hfind by exact Hnone.
        discriminate Hfind.
      * intros _ before cur' after -> Hcur Hnone.
        rewrite (find_device_named_first _ _ _ _ Hcur Hnone) in Hfind.
        injection Hfind as ->. auto.
    + exists (- C.ENXIO), trigger0, w'. split; [reflexivity|].
      split; [intros; contradiction|]. split; [auto|].
      intros _ before cur' after -> Hcur Hnone.
      rewrite (find_device_named_first _ _ _ _ Hcur Hnone) in Hfind.
      discriminate Hfind.
Qed.

Lemma strrchr_append dir c name :
  CStr.strchr name c = None ->
  CStr.strrchr (dir ++ String c name) c = Some (String.length dir).
Proof.
  intros Hnone.
  assert (Hname : CStr.strrchr name c = None).
  { revert Hnone. induction name as [|x name IH]; simpl; [reflexivity|].
    destruct (Ascii.eqb x c); [discriminate|].
    destruct (CStr.strchr name c); [discriminate|].
    intros _. now rewrite IH. }
  induction dir as [|x dir IH]; simpl.
  - rewrite Hname. now rewrite Ascii.eqb_refl.
  - now rewrite IH.
Qed.

Lemma advance_past dir c name :
  CStr.advance (dir ++ String c name) (String.length dir + 1) = name.
Proof. induction dir as [|x dir IH]; simpl; auto. Qed.

(** X17.  Of the files of a device directory (outside hwmon): [dev] and
    [uevent] are passed over, nothing is read and the device stays as it
    is; [name] is not kept as an attribute either: the file is read, its
    text is the name of the device afterwards, and the list of attributes
    and the rest of the device are as they were; when the file cannot be
    opened the error is returned and the device stays as it is. *)
Theorem dev_uevent_and_name_are_no_attributes
    (X : Externals) (A : AttrExternals) (dev : iio_device) (dir : string)
    (w : World) :
  WITH_HWMON && iio_device_is_hwmon (dev_id dev) = false ->
  add_attr_or_channel dev (dir ++ "/dev") w = Done (0, dev) w
  /\ add_attr_or_channel dev (dir ++ "/uevent") w = Done (0, dev) w
  /\ (forall data n fs,
        files w = Opened data n None :: fs ->
        (0 < CStr.strlen data < 1024)%nat ->
        (1 <= heap_budget w)%nat ->
        exists dev' w',
          add_attr_or_channel dev (dir ++ "/name") w = Done (0, dev') w'
          /\ dev_name dev' = Some (attribute_text data)
          /\ dev_attrs dev' = dev_attrs dev
          /\ dev_id dev' = dev_id dev
          /\ dev_label dev' = dev_label dev
          /\ channels dev' = channels dev
          /\ timeout_ms dev' = timeout_ms dev)
  /\ (forall e fs,
        files w = FopenFailed e :: fs ->
        0 < e <= C.INT_MAX ->
        exists w',
          add_attr_or_channel dev (dir ++ "/name") w = Done (- e, dev) w').
Proof.
  intros Hhw.
  assert (Hplain : forall name,
    CStr.strchr name "/" = None ->
    is_channel dev name true = false ->
    add_attr_or_channel dev (dir ++ String "/" name) w
    = add_attr_to_device dev name w).
  { intros name Hslash Hno.
    unfold add_attr_or_channel, add_attr_or_channel_helper.
    rewrite (strrchr_append dir "/" name Hslash), advance_past, Hno.
    reflexivity. }
  assert (Hno : forall name,
    CStr.strncmp_eq name "in_" 3 = false ->
    CStr.strncmp_eq name "out_" 4 = false ->
    is_channel dev name true = false).
  { intros name H1 H2. apply is_channel_needs_prefix; assumption. }
  split; [|split; [|split]].
  - rewrite (Hplain "dev"%string eq_refl (Hno "dev"%string eq_refl eq_refl)).
    reflexivity.
  - rewrite (Hplain "uevent"%string eq_refl (Hno "uevent"%string eq_refl eq_refl)).
    reflexivity.
  - intros data n fs Hf Hlen Hheap.
    rewrite (Hplain "name"%string eq_refl (Hno "name"%string eq_refl eq_refl)).
    unfold add_attr_to_device.
    change (existsb (fun denied => CStr.strcmp_eq denied "name")
              device_attrs_denylist) with false. cbv iota.
    change (CStr.strcmp_eq "name" "name") with true. cbv iota.
    unfold read_device_name.
    destruct (local_read_dev_attr_text dev "name" w data n fs Hf Hlen)
      as (w1 & E).
    rewrite (bind_done _ _ _ _ _ E).
    destruct (Z.ltb_spec (Z.of_nat (CStr.strlen data)) 0); [lia|].
    destruct (Z.eqb_spec (Z.of_nat (CStr.strlen data)) 0); [lia|].
    assert (Hb : heap_budget w1 = heap_budget w).
    { revert E. unfold local_read_dev_attr, attr_path. simpl.
      destruct (WITH_HWMON && iio_device_is_hwmon (dev_id dev));
        unfold bind, log, next_file; simpl; rewrite Hf; simpl;
        intros [= _ _ <-]; reflexivity. }
    unfold iio_strdup, bind, alloc. rewrite Hb.
    destruct (heap_budget w) as [|b]; [lia|].
    do 2 eexists. split; [reflexivity|]. repeat split.
  - intros e fs Hf He.
    rewrite (Hplain "name"%string eq_refl (Hno "name"%string eq_refl eq_refl)).
    unfold add_attr_to_device.
    change (existsb (fun denied => CStr.strcmp_eq denied "name")
              device_attrs_denylist) with false. cbv iota.
    change (CStr.strcmp_eq "name" "name") with true. cbv iota.
    unfold read_device_name, local_read_dev_attr, attr_path. simpl.
    rewrite Hhw. unfold bind, log, next_file. simpl. rewrite Hf. simpl.
    destruct (Z.ltb_spec (- e) 0); [|lia].
    unfold C.INT_MAX in He. rewrite to_int_id by lia.
    eexists. reflexivity.
Qed.

(** What a call of [handle_protected_scan_element_attr] that does not fail
    was for: the index or the type, and the bookkeeping of the channel is
    as it was; or the enable file, which the channel did not have yet and
    has now. *)
Lemma handle_protected_scan_element_attr_inv `{Externals} dev chn name path
    endian0 sign0 w r chn' w' :
  handle_protected_scan_element_attr dev chn name path endian0 sign0 w
  = Done (r, chn') w' ->
  (r <? 0) = false ->
  ((name = "index" \/ name = "type")%string /\ pdata chn' = pdata chn)
  \/ (name = "en"%string
      /\ enable_fn (pdata chn) = None
      /\ enable_fn (pdata chn') = Some path).
Proof.
  unfold handle_protected_scan_element_attr, CStr.strcmp_eq.
  destruct (String.eqb_spec name "index") as [-> | Hni].
  { intros E Hr. left. split; [auto|].
    apply bind_inv in E as ([r1 buf] & w1 & _ & E).
    destruct buf as [buf|]; [|injection E as _ <- _; reflexivity].
    destruct (C.to_int r1 >? 0); [|injection E as _ <- _; reflexivity].
    destruct (strtoll buf 0) as [[value consumed] erange].
    destruct ((consumed =? 0)%nat || (value <? 0) || erange);
      injection E as _ <- _; reflexivity. }
  destruct (String.eqb_spec name "type") as [-> | Hnt].
  { intros E Hr. left. split; [auto|].
    apply bind_inv in E as ([r1 buf] & w1 & _ & E).
    destruct buf as [buf|]; [|injection E as _ <- _; reflexivity].
    destruct (C.to_int r1 >? 0); [|injection E as _ <- _; reflexivity].
    destruct (CStr.strchr buf "X"); injection E as _ <- _; reflexivity. }
  destruct (String.eqb_spec name "en") as [-> | Hne].
  { intros E Hr. right. split; [reflexivity|].
    destruct (enable_fn (pdata chn)) as [fn0|].
    - injection E as <- _ _. discriminate Hr.
    - split; [reflexivity|].
      apply bind_inv in E as (fn & w1 & Efn & E).
      unfold iio_strdup in Efn.
      apply bind_inv in Efn as (ok & w2 & _ & Efn).
      destruct ok; injection Efn as <- _.
      + injection E as _ <- _. reflexivity.
      + injection E as <- _ _. discriminate Hr. }
  intros [= <- _ _] Hr. discriminate Hr.
Qed.

Lemma handle_scan_elements_from_inv `{Externals} dev stack :
  forall l chn i w chn' w',
    handle_scan_elements_from dev chn l i stack w = Done (0, chn') w' ->
    Forall (fun a => In (attr_name a) scan_element_names) l
    /\ match enable_fn (pdata chn) with
       | Some fn0 =>
           enable_fn (pdata chn') = Some fn0
           /\ forall a, In a l -> attr_name a <> "en"%string
       | None =>
           (forall a, In a l -> attr_name a = "en"%string ->
                      enable_fn (pdata chn') = Some (attr_filename a))
           /\ ((forall a, In a l -> attr_name a <> "en"%string) ->
               enable_fn (pdata chn') = None)
       end.
Proof.
  induction l as [|a l IH]; intros chn i w chn' w'.
  - intros [= <- _]. split; [constructor|].
    destruct (enable_fn (pdata chn)); [split|split]; auto;
      intros ? [].
  - cbn [handle_scan_elements_from]. intros E.
    apply bind_inv in E as ([r1 chn1] & w1 & E1 & E).
    destruct (r1 <? 0) eqn:Hr1; [injection E as -> _ _; discriminate Hr1|].
    apply IH in E as [Hall Hen].
    destruct (handle_protected_scan_element_attr_inv _ _ _ _ _ _ _ _ _ _
                E1 Hr1) as [[Hname Hpd] | (Hname & Hnone & Hsome)].
    + split.
      { constructor; [|exact Hall]. unfold scan_element_names.
        destruct Hname as [-> | ->]; simpl; auto. }
      rewrite Hpd in Hen.
      assert (Hnot : attr_name a <> "en"%string)
        by (destruct Hname as [-> | ->]; discriminate).
      destruct (enable_fn (pdata chn)) as [fn0|].
      * destruct Hen as [Hkeep Hno]. split; [exact Hkeep|].
        intros b [<- | Hb]; auto.
      * destruct Hen as [Hset Hnone]. split.
        -- intros b [<- | Hb] Hb'; [contradiction | auto].
        -- intros Hno. apply Hnone. intros b Hb. apply Hno. right. exact Hb.
    + split.
      { constructor; [|exact Hall]. unfold scan_element_names.
        rewrite Hname. simpl. auto. }
      rewrite Hnone. rewrite Hsome in Hen. destruct Hen as [Hkeep Hno].
      split.
      * intros b [<- | Hb] Hb'; [exact Hkeep|].
        exfalso. apply (Hno b Hb Hb').
      * intros Hno'. exfalso. apply (Hno' a); [left; reflexivity | exact Hname].
Qed.

(** X18.  [handle_scan_elements] on a channel without an enable file:
    when it returns 0, every protected attribute of the channel was named
    index, type or en (any other name ends the pass with [-EINVAL]); the
    enable file of the channel is then the file of the attribute named en,
    so there is one such attribute at most; and a channel without that
    attribute is left without an enable file. *)
Theorem handle_scan_elements_knows_three_names
    (X : Externals) (dev : iio_device) (chn chn' : iio_channel)
    (stack : nat -> ascii * ascii) (w w' : World) :
  enable_fn (pdata chn) = None ->
  handle_scan_elements dev chn stack w = Done (0, chn') w' ->
  Forall (fun a => In (attr_name a) scan_element_names)
    (protected_attrs (pdata chn))
  /\ (forall a, In a (protected_attrs (pdata chn)) ->
                attr_name a = "en"%string ->
                enable_fn (pdata chn') = Some (attr_filename a))
  /\ ((forall a, In a (protected_attrs (pdata chn)) ->
                 attr_name a <> "en"%string) ->
      enable_fn (pdata chn') = None).
Proof.
  intros Hnone E. unfold handle_scan_elements in E.
  apply handle_scan_elements_from_inv in E. rewrite Hnone in E.
  destruct E as (Hall & Hset & Hno). auto.
Qed.

Section DeviceExamples.

#[local] Existing Instance plain_build.
#[local] Existing Instance appending_attrs.

Lemma local_get_trigger_finds_device_by_name_witness :
  exists r trigger w',
    local_get_trigger
      [named_device "iio:device0" "adc"; named_device "trigger0" "sysfstrig0"]
      (named_device "iio:device0" "adc") None
      (sysfs_world [Opened (line "sysfstrig0") 0 None])
    = Done (r, trigger) w'
    /\ (attribute_text (line "sysfstrig0") = EmptyString ->
        r = 0 /\ trigger = None)
    /\ (attribute_text (line "sysfstrig0") <> EmptyString ->
        (forall cur,
           In cur [named_device "iio:device0" "adc";
                   named_device "trigger0" "sysfstrig0"] ->
           dev_name cur <> Some (attribute_text (line "sysfstrig0"))) ->
        r = - C.ENXIO /\ trigger = None)
    /\ (attribute_text (line "sysfstrig0") <> EmptyString ->
        forall before cur after,
          [named_device "iio:device0" "adc";
           named_device "trigger0" "sysfstrig0"]
          = before ++ cur :: after ->
          dev_name cur = Some (attribute_text (line "sysfstrig0")) ->
          (forall d, In d before ->
                     dev_name d <> Some (attribute_text (line "sysfstrig0"))) ->
          r = 0 /\ trigger = Some cur).
Proof.
  apply (local_get_trigger_finds_device_by_name plain_build
           [named_device "iio:device0" "adc";
            named_device "trigger0" "sysfstrig0"]
           (named_device "iio:device0" "adc") None
           (sysfs_world [Opened (line "sysfstrig0") 0 None])
           (line "sysfstrig0") 0 []).
  - reflexivity.
  - simpl. lia.
Defined.

Example trigger_of_adc :
  value_of
    (local_get_trigger
       [named_device "iio:device0" "adc"; named_device "trigger0" "sysfstrig0"]
       (named_device "iio:device0" "adc") None
       (sysfs_world [Opened (line "sysfstrig0") 0 None]))
  = Some (0, Some (named_device "trigger0" "sysfstrig0")).
Proof. reflexivity. Qed.

Lemma dev_uevent_and_name_are_no_attributes_witness :
  (exists dev' w',
     add_attr_or_channel (bare_device "iio:device0" 1000)
       ("/sys/bus/iio/devices/iio:device0" ++ "/name")
       (named_world [Opened (line "adc") 0 None])
     = Done (0, dev') w'
     /\ dev_name dev' = Some "adc"%string
     /\ dev_attrs dev' = [])
  /\ add_attr_or_channel (bare_device "iio:device0" 1000)
       ("/sys/bus/iio/devices/iio:device0" ++ "/uevent")
       (named_world [Opened (line "adc") 0 None])
     = Done (0, bare_device "iio:device0" 1000)
         (named_world [Opened (line "adc") 0 None])
  /\ exists w',
       add_attr_or_channel (bare_device "iio:device0" 1000)
         ("/sys/bus/iio/devices/iio:device0" ++ "/name")
         (named_world [FopenFailed C.EACCES])
       = Done (- C.EACCES, bare_device "iio:device0" 1000) w'.
Proof.
  destruct (dev_uevent_and_name_are_no_attributes plain_build appending_attrs
              (bare_device "iio:device0" 1000)
              "/sys/bus/iio/devices/iio:device0"
              (named_world [Opened (line "adc") 0 None]) eq_refl)
    as (_ & Huevent & Hname & _).
  destruct (dev_uevent_and_name_are_no_attributes plain_build appending_attrs
              (bare_device "iio:device0" 1000)
              "/sys/bus/iio/devices/iio:device0"
              (named_world [FopenFailed C.EACCES]) eq_refl)
    as (_ & _ & _ & Hfail).
  split; [|split].
  - destruct (Hname (line "adc") 0 [] eq_refl) as (dev' & w' & E & Hn & Ha & _).
    + simpl. lia.
    + simpl. lia.
    + exists dev', w'. split; [exact E|]. split; [exact Hn | exact Ha].
  - exact Huevent.
  - apply (Hfail C.EACCES [] eq_refl). unfold C.EACCES, C.INT_MAX. lia.
Defined.

(** The name file of a device that is called adc. *)
Example name_file_names_the_device :
  value_of
    (add_attr_or_channel (bare_device "iio:device0" 1000)
       "/sys/bus/iio/devices/iio:device0/name"
       {| clock := fun _ => {| tv_sec := 0; tv_nsec := 0 |}; ticks := 0;
          polls := []; xfers := []; files := [Opened (line "adc") 0 None];
          heap_budget := 1; trace := [] |})
  = Some (0, named_device "iio:device0" "adc").
Proof. reflexivity. Qed.

Lemma handle_scan_elements_knows_three_names_witness :
  Forall (fun a => In (attr_name a) scan_element_names)
    (protected_attrs
       (pdata
          (scan_channel "voltage0"
             [{| attr_name := "en";
                 attr_filename := "scan_elements/in_voltage0_en" |}])))
  /\ (forall a,
        In a (protected_attrs
                (pdata
                   (scan_channel "voltage0"
                      [{| attr_name := "en";
                          attr_filename := "scan_elements/in_voltage0_en" |}]))) ->
        attr_name a = "en"%string ->
        enable_fn
          (pdata
             {| chn_id := "voltage0"; chn_name := None; is_output := false;
                is_scan_element := true; index := - C.ENOENT;
                format := zero_format; attrs := [];
                pdata :=
                  {| enable_fn := Some "scan_elements/in_voltage0_en"%string;
                     protected_attrs :=
                       [{| attr_name := "en";
                           attr_filename :=
                             "scan_elements/in_voltage0_en" |}] |} |})
        = Some (attr_filename a))
  /\ ((forall a,
         In a (protected_attrs
                 (pdata
                    (scan_channel "voltage0"
                       [{| attr_name := "en";
                           attr_filename :=
                             "scan_elements/in_voltage0_en" |}]))) ->
         attr_name a <> "en"%string) ->
      enable_fn
        (pdata
           {| chn_id := "voltage0"; chn_name := None; is_output := false;
              is_scan_element := true; index := - C.ENOENT;
              format := zero_format; attrs := [];
              pdata :=
                {| enable_fn := Some "scan_elements/in_voltage0_en"%string;
                   protected_attrs :=
                     [{| attr_name := "en";
                         attr_filename :=
                           "scan_elements/in_voltage0_en" |}] |} |})
      = None).
Proof.
  apply (handle_scan_elements_knows_three_names plain_build
           (bare_device "iio:device0" 1000)
           (scan_channel "voltage0"
              [{| attr_name := "en";
                  attr_filename := "scan_elements/in_voltage0_en" |}])
           _ (fun _ => ("x"%char, "x"%char))
           (quiet_world (fun _ => {| tv_sec := 0; tv_nsec := 0 |}) 1)
           (quiet_world (fun _ => {| tv_sec := 0; tv_nsec := 0 |}) 0)).
  - reflexivity.
  - reflexivity.
Defined.

(** A protected attribute with any other name ends the pass. *)
Example unknown_scan_element_attribute :
  value_of
    (handle_scan_elements (bare_device "iio:device0" 1000)
       (scan_channel "voltage0"
          [{| attr_name := "offset";
              attr_filename := "scan_elements/in_voltage0_offset" |}])
       (fun _ => ("x"%char, "x"%char))
       (quiet_world (fun _ => {| tv_sec := 0; tv_nsec := 0 |}) 1))
  = Some (- C.EINVAL,
          scan_channel "voltage0"
            [{| attr_name := "offset";
                attr_filename := "scan_elements/in_voltage0_offset" |}]).
Proof. reflexivity. Qed.

End DeviceExamples.

Lemma foreach_entry_passes_over {D : Type} path is_dir
    (callback : D -> string -> M (Z * D)) e after :
  passed_over is_dir e = true ->
  forall before d r w,
    foreach_entry d path is_dir callback (before ++ e :: after) r w
    = foreach_entry d path is_dir callback (before ++ after) r w.
Proof.
  intros He. induction before as [|b before IH]; intros d r w.
  - simpl. destruct e as [errno | d_name [errno | dir reg]];
      simpl in He; try discriminate He.
    apply negb_true_iff in He. rewrite He. reflexivity.
  - simpl. destruct b as [errno | d_name [errno | dir reg]]; try reflexivity.
    destruct (_ || _); [|apply IH].
    unfold bind. destruct (callback d _ w) as [[r1 d1] w1 | |]; try reflexivity.
    destruct (r1 <? 0); [reflexivity | apply IH].
Qed.

(** X19.  The walk of a directory passes over the entries of the wrong
    kind: a walk for directories never hands the callback a regular file,
    nor a directory whose name starts with a dot (so neither "." nor "..");
    a walk for files hands it regular files only.  Such an entry can be
    taken out of the directory without a change to what the walk does. *)
Theorem foreach_in_dir_passes_over
    (D : Type) (d : D) (path : string) (is_dir : bool)
    (callback : D -> string -> M (Z * D))
    (before after : list readdir_outcome) (e : readdir_outcome) (w : World) :
  passed_over is_dir e = true ->
  foreach_in_dir (DirOpened (before ++ e :: after)) d path is_dir callback w
  = foreach_in_dir (DirOpened (before ++ after)) d path is_dir callback w.
Proof.
  intros He. unfold foreach_in_dir. now apply foreach_entry_passes_over.
Qed.



Lemma foreach_in_dir_passes_over_witness :
  foreach_in_dir
    (DirOpened ([DirEntry "." (StatMode true false)]
                ++ DirEntry ".." (StatMode true false)
                   :: [DirEntry "iio:device0" (StatMode true false)]))
    [] "/sys/bus/iio/devices" true (record_paths "")
    (sysfs_world [])
  = foreach_in_dir
      (DirOpened ([DirEntry "." (StatMode true false)]
                  ++ [DirEntry "iio:device0" (StatMode true false)]))
      [] "/sys/bus/iio/devices" true (record_paths "")
      (sysfs_world []).
Proof.
  apply (foreach_in_dir_passes_over (list string) [] "/sys/bus/iio/devices"
           true (record_paths "")
           [DirEntry "." (StatMode true false)]
           [DirEntry "iio:device0" (StatMode true false)]
           (DirEntry ".." (StatMode true false)) (sysfs_world [])).
  reflexivity.
Defined.


(** The directories of a walk for directories: the hidden ones and the
    files are passed over, the others are visited in order. *)
Example walk_of_devices :
  value_of
    (foreach_in_dir
       (DirOpened [DirEntry "." (StatMode true false);
                   DirEntry ".." (StatMode true false);
                   DirEntry "iio:device0" (StatMode true false);
                   DirEntry "uevent" (StatMode false true);
                   DirEntry "trigger0" (StatMode true false)])
       [] "/sys/bus/iio/devices" true (record_paths "") (sysfs_world []))
  = Some (0, ["/sys/bus/iio/devices/iio:device0";
              "/sys/bus/iio/devices/trigger0"]%string).
Proof. reflexivity. Qed.

Lemma c_str_length s : (CStr.strlen (CStr.c_str s) <= CStr.strlen s)%nat.
Proof.
  induction s as [|c s IH]; simpl; [lia|].
  destruct (Ascii.eqb c CStr.NUL); simpl; unfold CStr.strlen in *; lia.
Qed.

Lemma take_length_le s k : (CStr.strlen (CStr.take s k) <= k)%nat.
Proof.
  revert s. induction k as [|k IH]; intros [|c s]; simpl; try lia.
  specialize (IH s). unfold CStr.strlen in *. lia.
Qed.

Lemma take_beyond s k : (CStr.strlen s <= k)%nat -> CStr.take s k = s.
Proof.
  revert s. induction k as [|k IH]; intros [|c s] H; simpl in *;
    try reflexivity; try lia.
  f_equal. apply IH. lia.
Qed.

(** What [cat_file] gives for a file that opens. *)
Lemma cat_file_opened path w data n fe fs :
  files w = Opened data n fe :: fs ->
  exists w1,
    cat_file path w
    = (if (0 <? Nat.min 127 (CStr.strlen data))%nat
       then
         ok <- alloc ;;
         ret (if ok
              then Some (CStr.c_str
                           (CStr.take data
                              (Nat.min 127 (CStr.strlen data) - 1)))
              else None)
       else ret None) w1
    /\ heap_budget w1 = heap_budget w /\ files w1 = fs.
Proof.
  intros Hf. unfold cat_file, bind at 1, log at 1.
  unfold bind at 1, next_file. simpl. rewrite Hf.
  unfold bind at 1, log at 1. unfold bind at 1, log at 1.
  eexists. split; [reflexivity|]. split; reflexivity.
Qed.

(** X21.  [cat_file] on a file that opens: an empty file gives a null
    pointer; otherwise the result holds 126 characters at most, whatever
    the size of the file; and of a file that holds a text of 126 characters
    at most and a line feed, the result is the text. *)
Theorem cat_file_cuts_the_line_feed
    (path : string) (w : World) (data : string) (n : Z) (fe : option Z)
    (fs : list stdio_outcome) :
  files w = Opened data n fe :: fs ->
  (1 <= heap_budget w)%nat ->
  exists res w',
    cat_file path w = Done res w'
    /\ (data = EmptyString -> res = None)
    /\ (data <> EmptyString ->
        exists text, res = Some text /\ (CStr.strlen text <= 126)%nat)
    /\ (forall text,
          data = line text -> (CStr.strlen text <= 126)%nat ->
          CStr.c_str text = text -> res = Some text).
Proof.
  intros Hf Hheap.
  destruct (cat_file_opened path w data n fe fs Hf) as (w1 & -> & Hb & _).
  destruct (Nat.ltb_spec 0 (Nat.min 127 (CStr.strlen data))) as [Hpos | Hzero].
  - unfold bind, alloc. rewrite Hb.
    destruct (heap_budget w) as [|b]; [lia|].
    eexists. eexists. split; [reflexivity|]. split; [|split].
    + intros ->. simpl in Hpos. lia.
    + intros _. eexists. split; [reflexivity|].
      pose proof (c_str_length
                    (CStr.take data (Nat.min 127 (CStr.strlen data) - 1))).
      pose proof (take_length_le data (Nat.min 127 (CStr.strlen data) - 1)).
      lia.
    + intros text -> Hlen Hnul. f_equal.
      assert (Hl : CStr.strlen (line text) = S (String.length text)).
      { unfold line, CStr.strlen. rewrite append_length. simpl. lia. }
      rewrite Hl.
      replace (Nat.min 127 (S (String.length text)) - 1)%nat
        with (String.length text) by (unfold CStr.strlen in Hlen; lia).
      unfold line. rewrite take_append. exact Hnul.
  - exists None. eexists. split; [reflexivity|].
    assert (Hempty : data = EmptyString).
    { destruct data; [reflexivity | simpl in Hzero; lia]. }
    split; [auto|]. split; [contradiction|].
    intros text Hline. rewrite Hline in Hempty. unfold line in Hempty.
    destruct text; discriminate Hempty.
Qed.

Lemma cat_file_cuts_the_line_feed_witness :
  exists res w',
    cat_file "/sys/bus/iio/devices/iio:device0/name"
      {| clock := fun _ => {| tv_sec := 0; tv_nsec := 0 |}; ticks := 0;
         polls := []; xfers := []; files := [Opened (line "ad9361") 0 None];
         heap_budget := 1; trace := [] |}
    = Done res w'
    /\ (line "ad9361" = EmptyString -> res = None)
    /\ (line "ad9361" <> EmptyString ->
        exists text, res = Some text /\ (CStr.strlen text <= 126)%nat)
    /\ (forall text,
          line "ad9361" = line text -> (CStr.strlen text <= 126)%nat ->
          CStr.c_str text = text -> res = Some text).
Proof.
  apply (cat_file_cuts_the_line_feed "/sys/bus/iio/devices/iio:device0/name"
           {| clock := fun _ => {| tv_sec := 0; tv_nsec := 0 |}; ticks := 0;
              polls := []; xfers := [];
              files := [Opened (line "ad9361") 0 None];
              heap_budget := 1; trace := [] |}
           (line "ad9361") 0 None []).
  - reflexivity.
  - simpl. lia.
Defined.

(** X22.  [build_names] keeps the list of names within its array of 128
    bytes: a list of 126 characters at most stays one, whatever the name
    files hold.  The call always returns 0 and only adds at the end; for a
    path of a device whose name file gives a name that fits, it adds the
    name and a comma. *)
Theorem build_names_stays_in_bounds
    (X : Externals) (names path : string) (w w' : World) (r : Z)
    (names' : string) :
  (CStr.strlen names <= 126)%nat ->
  build_names names path w = Done (r, names') w' ->
  r = 0
  /\ (CStr.strlen names' <= 126)%nat
  /\ is_prefix names names'
  /\ (forall dst,
        CStr.contains path "iio:device" = true ->
        value_of (cat_file (CStr.snprintf BUF_SIZE (path ++ "/name")) w)
        = Some (Some dst) ->
        (CStr.strlen names + CStr.strlen dst + 1 <= 126)%nat ->
        names' = (names ++ dst ++ ",")%string).
Proof.
  intros Hlen. unfold build_names.
  destruct (negb (CStr.contains path "iio:device")
            && negb (WITH_HWMON && CStr.contains path "class/hwmon")) eqn:Hm.
  - intros [= <- <- _]. split; [reflexivity|]. split; [exact Hlen|].
    split; [exists EmptyString; clear; induction names; simpl; congruence|].
    intros dst Hc. rewrite Hc in Hm. discriminate Hm.
  - intros E. apply bind_inv in E as (dst & w1 & Ecat & E).
    rewrite Ecat. cbn [value_of].
    destruct dst as [dst|].
    2:{ injection E as <- <- _. split; [reflexivity|]. split; [exact Hlen|].
        split; [exists EmptyString; clear; induction names; simpl; congruence|].
        intros dst _ Hd. discriminate Hd. }
    assert (Hn : CStr.strnlen names BUF_SIZE = CStr.strlen names).
    { unfold CStr.strnlen, BUF_SIZE, CStr.strlen in *. lia. }
    assert (Hsize :
      Z.to_nat (C.to_size_t (Z.of_nat BUF_SIZE - Z.of_nat (CStr.strlen names) - 1))
      = (127 - CStr.strlen names)%nat).
    { unfold C.to_size_t, BUF_SIZE. rewrite Z.mod_small; lia. }
    cbv zeta in E. rewrite Hn, Hsize, take_all in E.
    unfold CStr.snprintf, ret in E.
    set (added := CStr.take (dst ++ ",") (127 - CStr.strlen names - 1)) in E.
    assert (Hr : r = 0) by congruence.
    assert (Hnames : names' = (names ++ added)%string) by congruence.
    subst r names'. clear E.
    split; [reflexivity|]. split; [|split].
    + unfold CStr.strlen. rewrite append_length.
      pose proof (take_length_le (dst ++ ",") (127 - CStr.strlen names - 1)).
      fold added in H. unfold CStr.strlen in *. lia.
    + eexists. reflexivity.
    + intros dst' _ [= <-] Hfit. f_equal. unfold added. apply take_beyond.
      unfold CStr.strlen. rewrite append_length.
      change (String.length ",") with 1%nat.
      unfold CStr.strlen in Hfit. lia.
Qed.

Section ScanExamples.

#[local] Existing Instance plain_build.

Lemma build_names_stays_in_bounds_witness :
  0 = 0
  /\ (CStr.strlen "ad9361,xadc," <= 126)%nat
  /\ is_prefix "ad9361," "ad9361,xadc,"
  /\ (forall dst,
        CStr.contains "/sys/bus/iio/devices/iio:device1" "iio:device" = true ->
        value_of
          (cat_file
             (CStr.snprintf BUF_SIZE
                ("/sys/bus/iio/devices/iio:device1" ++ "/name"))
             {| clock := fun _ => {| tv_sec := 0; tv_nsec := 0 |}; ticks := 0;
                polls := []; xfers := [];
                files := [Opened (line "xadc") 0 None];
                heap_budget := 1; trace := [] |})
        = Some (Some dst) ->
        (CStr.strlen "ad9361," + CStr.strlen dst + 1 <= 126)%nat ->
        "ad9361,xadc,"%string = ("ad9361," ++ dst ++ ",")%string).
Proof.
  apply (build_names_stays_in_bounds plain_build "ad9361,"
           "/sys/bus/iio/devices/iio:device1"
           {| clock := fun _ => {| tv_sec := 0; tv_nsec := 0 |}; ticks := 0;
              polls := []; xfers := [];
              files := [Opened (line "xadc") 0 None];
              heap_budget := 1; trace := [] |}
           {| clock := fun _ => {| tv_sec := 0; tv_nsec := 0 |}; ticks := 0;
              polls := []; xfers := []; files := [];
              heap_budget := 0;
              trace :=
                [AFopen "/sys/bus/iio/devices/iio:device1/name" "re";
                 AFread 127; AFclose] |}).
  - simpl. lia.
  - reflexivity.
Defined.

End ScanExamples.

Lemma length_five a b c d e :
  String.length (a ++ " " ++ b ++ " " ++ c ++ " " ++ d ++ " " ++ e)
  = (String.length a + String.length b + String.length c + String.length d
     + String.length e + 4)%nat.
Proof.
  repeat (rewrite append_length; cbn [String.length String.append]). lia.
Qed.

(** X23.  The description of the local context is the five fields of
    [uname] with one space between them; the buffer it is formatted into
    has the room for all of it, so that nothing is cut off (for fields whose
    lengths an [unsigned int] can add up).  It is a null pointer when the
    allocation fails. *)
Theorem local_get_description_is_not_cut
    (uts : utsname) (w : World) :
  Z.of_nat (CStr.strlen (sysname uts) + CStr.strlen (nodename uts)
            + CStr.strlen (release uts) + CStr.strlen (version uts)
            + CStr.strlen (machine uts)) + 5 < 2 ^ 32 ->
  value_of (local_get_description uts w)
  = Some (if (heap_budget w =? 0)%nat then None
          else Some (sysname uts ++ " " ++ nodename uts ++ " " ++ release uts
                     ++ " " ++ version uts ++ " " ++ machine uts)%string).
Proof.
  intros Hlen. unfold local_get_description, bind, alloc.
  destruct (heap_budget w) as [|b]; [reflexivity|].
  cbn [negb Nat.eqb]. unfold ret, value_of. do 2 f_equal.
  rewrite (to_uint_id (Z.of_nat _)) by lia.
  rewrite to_uint_id by lia.
  unfold CStr.snprintf. apply take_beyond.
  unfold CStr.strlen in *. rewrite length_five. lia.
Qed.

Lemma local_get_description_is_not_cut_witness :
  value_of
    (local_get_description
       {| sysname := "Linux"; nodename := "analog"; release := "6.1.0";
          version := "#1 SMP"; machine := "armv7l" |}
       (quiet_world (fun _ => {| tv_sec := 0; tv_nsec := 0 |}) 1))
  = Some (if (heap_budget
                (quiet_world (fun _ => {| tv_sec := 0; tv_nsec := 0 |}) 1)
              =? 0)%nat
          then None
          else Some ("Linux" ++ " " ++ "analog" ++ " " ++ "6.1.0" ++ " "
                     ++ "#1 SMP" ++ " " ++ "armv7l")%string).
Proof.
  apply (local_get_description_is_not_cut
           {| sysname := "Linux"; nodename := "analog"; release := "6.1.0";
              version := "#1 SMP"; machine := "armv7l" |}
           (quiet_world (fun _ => {| tv_sec := 0; tv_nsec := 0 |}) 1)).
  simpl. lia.
Defined.

(** X24.  A buffer with an index above 0 cannot be created: the call gives
    an error code in the place of the buffer and leaves the mask as it was;
    it opens no attribute file, and all it does is close descriptors and
    free allocations.  Once [eventfd] and [open] have succeeded the code is
    [-ENOSYS] when [ioctl] gave a descriptor for the index (the write that
    disables the buffer is refused, as every attribute access with an index
    above 0 is), and what [ioctl_nointr] returned when it did not.  The code
    is negative when failures are reported the usual way. *)
Theorem local_create_buffer_needs_index_0
    (X : Externals) (B : BufferExternals) (dev : iio_device) (idx : Z)
    (mask mask' : iio_channels_mask) (setup : buffer_setup) (w w' : World)
    (res : Z + iio_buffer_pdata) :
  0 < idx ->
  local_create_buffer dev idx mask setup w = Done (res, mask') w' ->
  mask' = mask
  /\ files w' = files w
  /\ (exists l, trace w' = trace w ++ l /\ forallb is_release l = true)
  /\ exists err,
       res = inl err
       /\ (reaches_ioctl w setup ->
           (ioctl_gave_fd setup = true -> err = - C.ENOSYS)
           /\ (ioctl_gave_fd setup = false ->
               ioctl_nointr (ioctl_outcomes setup) = Some err))
       /\ (usual_failures setup -> err < 0).
Proof. apply local_create_buffer_indexed. Qed.

Lemma trace_grows_ret {A} (a : A) : trace_grows (ret a).
Proof. intros w a' w' [= _ <-]. exists []. now rewrite app_nil_r. Qed.

Lemma trace_grows_bind {A B} (c : M A) (k : A -> M B) :
  trace_grows c -> (forall a, trace_grows (k a)) -> trace_grows (bind c k).
Proof.
  intros Hc Hk w b w' E. apply bind_inv in E as (a & w1 & E1 & E2).
  apply Hc in E1 as [l1 H1]. apply Hk in E2 as [l2 H2].
  exists (l1 ++ l2). rewrite H2, H1, app_assoc. reflexivity.
Qed.

Lemma trace_grows_log a : trace_grows (log a).
Proof. intros w u w' [= _ <-]. simpl. eauto. Qed.

Lemma trace_grows_next_file : trace_grows next_file.
Proof.
  intros w f w'. unfold next_file. destruct (files w); [discriminate|].
  intros [= _ <-]. exists []. simpl. now rewrite app_nil_r.
Qed.

Lemma trace_grows_undefined {A} : trace_grows (@undefined A).
Proof. intros w a w'. discriminate. Qed.

Ltac grows :=
  repeat first
    [ apply trace_grows_ret
    | apply trace_grows_log
    | apply trace_grows_next_file
    | apply trace_grows_undefined
    | apply trace_grows_bind
    | progress intros
    | match goal with
      | |- trace_grows (match ?x with _ => _ end) => destruct x
      | |- trace_grows (let (_, _) := ?x in _) => destruct x
      end ].

Lemma trace_grows_write `{Externals} dev buf_id attr src len type :
  trace_grows (local_write_dev_attr dev buf_id attr src len type).
Proof. unfold local_write_dev_attr. grows. Qed.

Lemma trace_grows_read `{Externals} dev buf_id attr len type :
  trace_grows (local_read_dev_attr dev buf_id attr len type).
Proof. unfold local_read_dev_attr. grows. Qed.

Lemma trace_grows_channel_write_state `{Externals} dev chn idx en :
  trace_grows (channel_write_state dev chn idx en).
Proof.
  unfold channel_write_state. grows. apply trace_grows_write.
Qed.

Lemma trace_grows_channel_read_state `{Externals} dev chn idx :
  trace_grows (channel_read_state dev chn idx).
Proof.
  unfold channel_read_state. apply trace_grows_bind.
  - destruct (enable_fn (pdata chn)); [apply trace_grows_read|]. grows.
  - grows.
Qed.

Lemma trace_grows_write_states `{Externals} dev idx en selected :
  forall l err, trace_grows (write_states dev l idx en selected err).
Proof.
  induction l as [|chn l IH]; intros err; simpl; [apply trace_grows_ret|].
  destruct (_ && _); [|apply IH].
  apply trace_grows_bind; [apply trace_grows_channel_write_state|].
  intros e. destruct (e <? 0); [apply trace_grows_ret | apply IH].
Qed.

Lemma trace_grows_read_states `{Externals} `{BufferExternals} dev idx :
  forall l mask err, trace_grows (read_states dev l idx mask err).
Proof.
  induction l as [|chn l IH]; intros mask err; simpl; [apply trace_grows_ret|].
  destruct (index chn >=? 0); [|apply IH].
  apply trace_grows_bind; [apply trace_grows_channel_read_state|].
  intros e. destruct (e <? 0); [apply trace_grows_ret | apply IH].
Qed.

Lemma trace_grows_do_enable `{Externals} pdata enable :
  trace_grows (local_do_enable_buffer pdata enable).
Proof.
  unfold local_do_enable_buffer.
  apply trace_grows_bind; [apply trace_grows_write|]. grows.
Qed.

(** The failures on the way from the device node to the buffer all leave
    through [err_close]. *)
Lemma setup_fails_through_err_close `{Externals} `{BufferExternals}
    dev idx mask fd cancel_fd multi w1 e mask' w' :
  (let pdata :=
     {| buf_dev := dev; buf_fd := fd; buf_cancel_fd := cancel_fd;
        buf_idx := idx; dmabuf_supported := false;
        mmap_supported := false; multi_buffer := multi |} in
   err <- local_do_enable_buffer pdata false ;;
   if err <? 0 then r <- err_close fd cancel_fd err ;; ret (r, mask)
   else
     err <- write_states dev (channels dev) idx false (fun _ => true) err ;;
     if err <? 0 then r <- err_close fd cancel_fd err ;; ret (r, mask)
     else
       err <- write_states dev (channels dev) idx true
                (fun chn => iio_channel_is_enabled chn mask) err ;;
       if err <? 0 then r <- err_close fd cancel_fd err ;; ret (r, mask)
       else
         '(err, mask) <- read_states dev (channels dev) idx mask err ;;
         if err <? 0 then r <- err_close fd cancel_fd err ;; ret (r, mask)
         else ret (inr pdata, mask)) w1
  = Done (inl e, mask') w' ->
  exists l,
    trace w'
    = trace w1 ++ l ++ [AClose fd; AClose cancel_fd; AFree BackendPrivate;
                        AFree BufferPdata].
Proof.
  cbv zeta. intros E.
  assert (Hclose : forall err m w2 l2,
    trace w2 = trace w1 ++ l2 ->
    (r <- err_close fd cancel_fd err ;; ret (r, m)) w2
    = Done (@inl Z iio_buffer_pdata e, mask') w' ->
    exists l,
      trace w'
      = trace w1 ++ l ++ [AClose fd; AClose cancel_fd; AFree BackendPrivate;
                          AFree BufferPdata]).
  { intros err m w2 l2 Hw2 Ec.
    apply bind_inv in Ec as (r & w3 & Eclose & Ec).
    rewrite err_close_done in Eclose. injection Eclose as <- <-.
    injection Ec as _ _ <-. simpl. rewrite Hw2.
    exists l2. rewrite <- app_assoc. reflexivity. }
  apply bind_inv in E as (e1 & w2 & E1 & E).
  apply trace_grows_do_enable in E1 as [l1 H1].
  destruct (e1 <? 0); [eapply Hclose; eauto|].
  apply bind_inv in E as (e2 & w3 & E2 & E).
  apply trace_grows_write_states in E2 as [l2 H2].
  rewrite H1, <- app_assoc in H2.
  destruct (e2 <? 0); [eapply Hclose; eauto|].
  apply bind_inv in E as (e3 & w4 & E3 & E).
  apply trace_grows_write_states in E3 as [l3 H3].
  rewrite H2, <- app_assoc in H3.
  destruct (e3 <? 0); [eapply Hclose; eauto|].
  apply bind_inv in E as ([e4 m4] & w5 & E4 & E).
  apply trace_grows_read_states in E4 as [l4 H4].
  rewrite H3, <- app_assoc in H4.
  destruct (e4 <? 0); [eapply Hclose; eauto|].
  discriminate E.
Qed.

(** X25.  [local_create_buffer] leaves no descriptor open when it fails
    once the cancellation descriptor and the device node are open: the
    device node is closed when [ioctl] gives a descriptor in its place, and
    the call ends by closing the data descriptor in use and the
    cancellation descriptor and by freeing the two allocations, whichever
    of the later steps (the call of [ioctl], the write that disables the
    buffer, a write or a read of the state of a channel) has failed. *)
Theorem local_create_buffer_closes_on_failure
    (X : Externals) (B : BufferExternals) (dev : iio_device) (idx : Z)
    (mask mask' : iio_channels_mask) (setup : buffer_setup) (w w' : World)
    (e : Z) :
  (1 <= heap_budget w)%nat ->
  WITH_LOCAL_MMAP_API && negb (mmap_impl_err setup =? 0) = false ->
  call_ret (eventfd_outcome setup) <> -1 ->
  call_ret (open_outcome setup) <> -1 ->
  local_create_buffer dev idx mask setup w = Done (inl e, mask') w' ->
  exists l,
    trace w'
    = trace w
      ++ (if ioctl_gave_fd setup
          then [AClose (call_ret (open_outcome setup))] else [])
      ++ l
      ++ [AClose (data_fd setup); AClose (call_ret (eventfd_outcome setup));
          AFree BackendPrivate; AFree BufferPdata].
Proof.
  intros Hheap Hmmap Hev Hop E.
  destruct (local_create_buffer_opened dev idx mask setup w _ mask' w' E
              Hheap Hmmap Hev Hop)
    as (err & w1 & fd & Hioctl & Hfd & Htrace & _ & E1).
  unfold data_fd, ioctl_gave_fd. rewrite Hioctl. rewrite <- Hfd.
  assert (Hend : exists l,
    trace w'
    = trace w1 ++ l ++ [AClose fd; AClose (call_ret (eventfd_outcome setup));
                        AFree BackendPrivate; AFree BufferPdata]).
  { destruct (negb (err =? 0) && (idx >? 0)).
    - apply bind_inv in E1 as (r & w3 & Eclose & E1).
      rewrite err_close_done in Eclose. injection Eclose as <- <-.
      injection E1 as _ _ <-. simpl. exists []. reflexivity.
    - eapply setup_fails_through_err_close. exact E1. }
  destruct Hend as [l Hend]. exists l.
  rewrite Hend, Htrace, <- app_assoc. reflexivity.
Qed.

Section CreateExamples.

#[local] Existing Instance plain_build.
#[local] Existing Instance list_masks.

Lemma local_create_buffer_needs_index_0_witness :
  @nil string = []
  /\ files
       {| clock := fun _ => {| tv_sec := 0; tv_nsec := 0 |}; ticks := 0;
          polls := []; xfers := []; files := []; heap_budget := 0;
          trace := [AClose 3; AClose 5; AClose 4; AFree BackendPrivate;
                    AFree BufferPdata] |}
     = files (quiet_world (fun _ => {| tv_sec := 0; tv_nsec := 0 |}) 1)
  /\ (exists l,
        trace
          {| clock := fun _ => {| tv_sec := 0; tv_nsec := 0 |}; ticks := 0;
             polls := []; xfers := []; files := []; heap_budget := 0;
             trace := [AClose 3; AClose 5; AClose 4; AFree BackendPrivate;
                       AFree BufferPdata] |}
        = trace (quiet_world (fun _ => {| tv_sec := 0; tv_nsec := 0 |}) 1)
          ++ l
        /\ forallb is_release l = true)
  /\ exists err,
       @inl Z iio_buffer_pdata (- C.ENOSYS) = inl err
       /\ (reaches_ioctl
             (quiet_world (fun _ => {| tv_sec := 0; tv_nsec := 0 |}) 1)
             multi_buffer_setup ->
           (ioctl_gave_fd multi_buffer_setup = true -> err = - C.ENOSYS)
           /\ (ioctl_gave_fd multi_buffer_setup = false ->
               ioctl_nointr (ioctl_outcomes multi_buffer_setup) = Some err))
       /\ (usual_failures multi_buffer_setup -> err < 0).
Proof.
  apply (local_create_buffer_needs_index_0 plain_build list_masks
           (bare_device "iio:device0" 1000) 1 [] [] multi_buffer_setup
           (quiet_world (fun _ => {| tv_sec := 0; tv_nsec := 0 |}) 1)
           {| clock := fun _ => {| tv_sec := 0; tv_nsec := 0 |}; ticks := 0;
              polls := []; xfers := []; files := []; heap_budget := 0;
              trace := [AClose 3; AClose 5; AClose 4; AFree BackendPrivate;
                        AFree BufferPdata] |}).
  - lia.
  - reflexivity.
Defined.

(** With index 1, on a kernel that gives a descriptor for the index, and on
    one whose [ioctl] fails with [ENOTTY]. *)
Example create_buffer_with_index_1 :
  value_of
    (local_create_buffer (bare_device "iio:device0" 1000) 1 []
       multi_buffer_setup
       (quiet_world (fun _ => {| tv_sec := 0; tv_nsec := 0 |}) 1))
  = Some (inl (- C.ENOSYS), [])
  /\ value_of
       (local_create_buffer (bare_device "iio:device0" 1000) 1 []
          {| mmap_impl_err := 0;
             eventfd_outcome := {| call_ret := 4; call_errno := 0 |};
             open_outcome := {| call_ret := 3; call_errno := 0 |};
             ioctl_outcomes := [{| call_ret := -1; call_errno := 25 |}];
             ioctl_fd := 1 |}
          (quiet_world (fun _ => {| tv_sec := 0; tv_nsec := 0 |}) 1))
     = Some (inl (- 25), []).
Proof. split; reflexivity. Qed.

Lemma local_create_buffer_closes_on_failure_witness :
  exists l,
    trace
      {| clock := fun _ => {| tv_sec := 0; tv_nsec := 0 |}; ticks := 0;
         polls := []; xfers := []; files := []; heap_budget := 0;
         trace := [AClose 3; AClose 5; AClose 4; AFree BackendPrivate;
                   AFree BufferPdata] |}
    = trace (quiet_world (fun _ => {| tv_sec := 0; tv_nsec := 0 |}) 1)
      ++ (if ioctl_gave_fd multi_buffer_setup
          then [AClose (call_ret (open_outcome multi_buffer_setup))] else [])
      ++ l
      ++ [AClose (data_fd multi_buffer_setup);
          AClose (call_ret (eventfd_outcome multi_buffer_setup));
          AFree BackendPrivate; AFree BufferPdata].
Proof.
  apply (local_create_buffer_closes_on_failure plain_build list_masks
           (bare_device "iio:device0" 1000) 1 [] [] multi_buffer_setup
           (quiet_world (fun _ => {| tv_sec := 0; tv_nsec := 0 |}) 1)
           _ (- C.ENOSYS)).
  - simpl. lia.
  - reflexivity.
  - discriminate.
  - discriminate.
  - reflexivity.
Defined.

End CreateExamples.










(** The length the loop of [set_channel_name] ends with. *)
Lemma prefix_len_greatest chn :
  (prefix_loop (S (CStr.strlen (first_name chn))) chn (first_name chn) 0 0 = O
   \/ accepted_length chn (first_name chn)
        (prefix_loop (S (CStr.strlen (first_name chn))) chn (first_name chn)
           0 0))
  /\ forall k, accepted_length chn (first_name chn) k ->
               (k <= prefix_loop (S (CStr.strlen (first_name chn))) chn
                       (first_name chn) 0 0)%nat.
Proof.
  apply prefix_loop_greatest; try lia; auto;
    intros k ((Hk & _) & _) Hk0; lia.
Qed.

Lemma all_names_cut chn k chn' :
  attrs chn' = map (cut_name k) (attrs chn) ->
  protected_attrs (pdata chn')
  = map (cut_name k) (protected_attrs (pdata chn)) ->
  all_names chn' = map (fun n => CStr.advance n k) (all_names chn).
Proof.
  intros Ha Hp. unfold all_names. rewrite Ha, Hp, map_app, !map_map.
  reflexivity.
Qed.

(** X27.  [set_channel_name] is done in one pass: on the channel it gives
    back after a call that returned 0, a second call finds no prefix to fold
    and leaves the channel as it is (the display name is not replaced, no
    attribute name is cut again). *)
Theorem set_channel_name_twice
    (chn chn' : iio_channel) (w w' w2 : World) :
  set_channel_name chn w = Done (0, chn') w' ->
  set_channel_name chn' w2 = Done (0, chn') w2.
Proof.
  unfold set_channel_name at 1.
  destruct (List.length (attrs chn)
            + List.length (protected_attrs (pdata chn)) <? 2)%nat eqn:Hcount.
  { intros [= <- _]. unfold set_channel_name. now rewrite Hcount. }
  change (match attrs chn with
          | a :: _ => attr_name a
          | [] => match protected_attrs (pdata chn) with
                  | a :: _ => attr_name a
                  | [] => EmptyString
                  end
          end) with (first_name chn).
  set (pl := prefix_loop (S (CStr.strlen (first_name chn))) chn
               (first_name chn) 0 0).
  destruct (Nat.eqb_spec pl 0) as [Hz | Hnz]; cbn [negb].
  { intros [= <- _]. unfold set_channel_name. rewrite Hcount.
    change (match attrs chn with
            | a :: _ => attr_name a
            | [] => match protected_attrs (pdata chn) with
                    | a :: _ => attr_name a
                    | [] => EmptyString
                    end
            end) with (first_name chn).
    fold pl. rewrite Hz. reflexivity. }
  intros E. apply bind_inv in E as (ok & w1 & _ & E).
  destruct ok; cbn [negb] in E; [|discriminate E].
  injection E as <- _.
  assert (Hlen : (2 <= List.length (all_names chn))%nat).
  { apply Nat.ltb_ge in Hcount. unfold all_names.
    rewrite length_app, !length_map. exact Hcount. }
  set (chn' :=
    {| chn_id := chn_id chn;
       chn_name := Some (CStr.iio_strlcpy (first_name chn) pl);
       is_output := is_output chn; is_scan_element := is_scan_element chn;
       index := index chn; format := format chn;
       attrs := map (cut_name pl) (attrs chn);
       pdata :=
         {| enable_fn := enable_fn (pdata chn);
            protected_attrs :=
              map (cut_name pl) (protected_attrs (pdata chn)) |} |}).
  assert (Hnames : all_names chn'
                   = map (fun n => CStr.advance n pl) (all_names chn))
    by (apply all_names_cut; reflexivity).
  assert (Hlen' : (2 <= List.length (all_names chn'))%nat)
    by (rewrite Hnames, length_map; exact Hlen).
  destruct (prefix_len_greatest chn) as [Hpl Hmax]. fold pl in Hpl, Hmax.
  destruct Hpl as [Hpl | Hpl]; [contradiction|].
  destruct (accepted_length_prefix chn pl Hlen Hpl) as (Hus & Hcommon & Hplen).
  (* no prefix is left to fold *)
  assert (Hnone : prefix_loop (S (CStr.strlen (first_name chn'))) chn'
                    (first_name chn') 0 0 = O).
  { destruct (prefix_len_greatest chn') as [[Hz' | Hacc] _]; [exact Hz'|].
    exfalso.
    set (k' := prefix_loop (S (CStr.strlen (first_name chn'))) chn'
                 (first_name chn') 0 0) in *.
    destruct (accepted_length_prefix chn' k' Hlen' Hacc)
      as (Hus' & Hcommon' & Hk').
    set (p := CStr.take (first_name chn) pl) in *.
    set (q := CStr.take (first_name chn') k') in *.
    assert (Hboth : common_prefix (p ++ q) (all_names chn)).
    { intros n Hn.
      pose proof (is_prefix_advance _ _ (Hcommon n Hn)) as Hn'.
      rewrite Hplen in Hn'.
      assert (Hin : In (CStr.advance n pl) (all_names chn')).
      { rewrite Hnames. apply in_map_iff. exists n. auto. }
      destruct (Hcommon' _ Hin) as [r Hr].
      exists r. rewrite Hn', Hr. symmetry. apply string_app_assoc. }
    assert (Hends : ends_with_underscore (p ++ q)).
    { destruct Hus' as [q' Hq']. exists (p ++ q')%string.
      rewrite Hq'. symmetry. apply string_app_assoc. }
    pose proof (prefix_accepted_length chn (p ++ q) Hlen Hends Hboth) as Hacc2.
    apply Hmax in Hacc2. rewrite append_length, Hplen, Hk' in Hacc2.
    destruct Hacc as ((Hk1 & _) & _). lia. }
  unfold set_channel_name.
  assert (Hcount' : (List.length (attrs chn')
                     + List.length (protected_attrs (pdata chn')) <? 2)%nat
                    = false).
  { apply Nat.ltb_ge. unfold all_names in Hlen'.
    rewrite length_app, !length_map in Hlen'. exact Hlen'. }
  rewrite Hcount'.
  change (match attrs chn' with
          | a :: _ => attr_name a
          | [] => match protected_attrs (pdata chn') with
                  | a :: _ => attr_name a
                  | [] => EmptyString
                  end
          end) with (first_name chn').
  rewrite Hnone. reflexivity.
Qed.

Lemma set_channel_name_twice_witness :
  set_channel_name
    {| chn_id := "voltage0"; chn_name := Some "rms"%string;
       is_output := false; is_scan_element := false;
       index := - C.ENOENT; format := zero_format;
       attrs :=
         [{| attr_name := "raw"; attr_filename := "in_voltage0_rms_raw" |};
          {| attr_name := "scale"; attr_filename := "in_voltage0_rms_scale" |}];
       pdata := {| enable_fn := None; protected_attrs := [] |} |}
    (quiet_world (fun _ => {| tv_sec := 0; tv_nsec := 0 |}) 0)
  = Done (0,
          {| chn_id := "voltage0"; chn_name := Some "rms"%string;
             is_output := false; is_scan_element := false;
             index := - C.ENOENT; format := zero_format;
             attrs :=
               [{| attr_name := "raw";
                   attr_filename := "in_voltage0_rms_raw" |};
                {| attr_name := "scale";
                   attr_filename := "in_voltage0_rms_scale" |}];
             pdata := {| enable_fn := None; protected_attrs := [] |} |})
      (quiet_world (fun _ => {| tv_sec := 0; tv_nsec := 0 |}) 0).
Proof.
  apply (set_channel_name_twice
           (channel_with "voltage0"
              [{| attr_name := "rms_raw";
                  attr_filename := "in_voltage0_rms_raw" |};
               {| attr_name := "rms_scale";
                  attr_filename := "in_voltage0_rms_scale" |}])
           _
           (quiet_world (fun _ => {| tv_sec := 0; tv_nsec := 0 |}) 1)
           (quiet_world (fun _ => {| tv_sec := 0; tv_nsec := 0 |}) 0)
           (quiet_world (fun _ => {| tv_sec := 0; tv_nsec := 0 |}) 0)).
  reflexivity.
Defined.

(** [sscanf] on a text that ends, or goes on otherwise, after its first
    character: the first conversion is the only one that stores. *)
Lemma sscanf_first_only c rest tail :
  CStr.char_at rest 0 <> "e"%char ->
  Scanf.sscanf (String c rest) (Scanf.DChar :: Scanf.DLit "e" :: tail)
  = [Scanf.VChar c].
Proof.
  intros Hne. simpl. destruct rest as [|x rest]; [reflexivity|].
  simpl in Hne. destruct (Ascii.eqb_spec x "e"); [contradiction | reflexivity].
Qed.

(** X28.  When the index file or the type file of a scan element cannot be
    opened, the handler returns 0 and leaves the channel as it was: the
    failure is not reported to the caller. *)
Theorem scan_element_read_failure_is_passed_over
    (X : Externals) (dev : iio_device) (chn : iio_channel)
    (name path : string) (endian0 sign0 : ascii) (w : World) (e : Z)
    (fs : list stdio_outcome) :
  name = "index"%string \/ name = "type"%string ->
  files w = FopenFailed e :: fs ->
  0 < e <= C.INT_MAX ->
  exists w',
    handle_protected_scan_element_attr dev chn name path endian0 sign0 w
    = Done (0, chn) w'.
Proof.
  intros Hname Hf He.
  assert (Hread : exists w',
    local_read_dev_attr dev 0 path 1024 IIO_ATTR_TYPE_DEVICE w
    = Done (- e, None) w').
  { unfold local_read_dev_attr, attr_path. simpl.
    destruct (WITH_HWMON && iio_device_is_hwmon (dev_id dev));
      unfold bind, log, next_file; simpl; rewrite Hf; eexists; reflexivity. }
  destruct Hread as [w' Hread].
  unfold handle_protected_scan_element_attr.
  destruct Hname as [-> | ->].
  - change (CStr.strcmp_eq "index" "index") with true. cbv iota.
    rewrite (bind_done _ _ _ _ _ Hread). eexists. reflexivity.
  - change (CStr.strcmp_eq "type" "index") with false.
    change (CStr.strcmp_eq "type" "type") with true. cbv iota.
    rewrite (bind_done _ _ _ _ _ Hread). eexists. reflexivity.
Qed.

(** X29.  The text of the type file is not validated.  When it holds no
    "X" and stops after its first character (or goes on with something
    other than "e"), the handler still returns 0 and stores a format in the
    channel, the rest of which is left as it was: in that format the first
    character decides the endianness, the bits, the length and the shift
    are as they were, the repeat count is 1, and the signedness comes from
    the sign letter the local variable held before the call, so the file
    does not define it. *)
Theorem scan_element_type_without_sign_letter
    (X : Externals) (dev : iio_device) (chn : iio_channel) (path : string)
    (endian0 sign0 : ascii) (w : World) (data : string) (n : Z)
    (fs : list stdio_outcome) (c : ascii) (rest : string) :
  files w = Opened data n None :: fs ->
  (0 < CStr.strlen data < 1024)%nat ->
  attribute_text data = String c rest ->
  CStr.strchr (String c rest) "X" = None ->
  CStr.char_at rest 0 <> "e"%char ->
  exists chn' w',
    handle_protected_scan_element_attr dev chn "type" path endian0 sign0 w
    = Done (0, chn') w'
    /\ same_but_format chn chn'
    /\ format chn'
       = {| format_length := format_length (format chn);
            format_bits := format_bits (format chn);
            format_shift := format_shift (format chn);
            is_signed := Ascii.eqb sign0 "s" || Ascii.eqb sign0 "S";
            is_fully_defined :=
              Ascii.eqb sign0 "S" || Ascii.eqb sign0 "U"
              || (format_bits (format chn) =? format_length (format chn));
            is_be := Ascii.eqb c "b";
            with_scale := with_scale (format chn);
            format_repeat := 1 |}.
Proof.
  intros Hf Hlen Htext HX Hne.
  destruct (local_read_dev_attr_text dev path w data n fs Hf Hlen)
    as (w' & E).
  unfold handle_protected_scan_element_attr.
  change (CStr.strcmp_eq "type" "index") with false.
  change (CStr.strcmp_eq "type" "type") with true. cbv iota.
  rewrite (bind_done _ _ _ _ _ E).
  rewrite to_int_id by lia.
  destruct (Z.gtb_spec (Z.of_nat (CStr.strlen data)) 0); [|lia].
  rewrite Htext, HX.
  change (Scanf.parse_format "%ce:%c%u/%u>>%u")
    with (Scanf.DChar :: Scanf.DLit "e" :: Scanf.DLit ":" :: Scanf.DChar
          :: Scanf.parse_format "%u/%u>>%u").
  rewrite (sscanf_first_only c rest _ Hne).
  eexists. exists w'. split; [reflexivity|].
  split; [apply same_but_format_set; reflexivity | reflexivity].
Qed.

Section UnvalidatedExamples.

#[local] Existing Instance plain_build.

Lemma scan_element_read_failure_is_passed_over_witness :
  exists w',
    handle_protected_scan_element_attr (bare_device "iio:device0" 1000)
      (bare_channel "voltage0" false None) "index"
      "scan_elements/in_voltage0_index" "?" "?"
      (sysfs_world [FopenFailed C.EACCES])
    = Done (0, bare_channel "voltage0" false None) w'.
Proof.
  apply (scan_element_read_failure_is_passed_over plain_build
           (bare_device "iio:device0" 1000)
           (bare_channel "voltage0" false None) "index"
           "scan_elements/in_voltage0_index" "?" "?"
           (sysfs_world [FopenFailed C.EACCES]) C.EACCES []).
  - left. reflexivity.
  - reflexivity.
  - unfold C.EACCES, C.INT_MAX. lia.
Defined.

Lemma scan_element_type_without_sign_letter_witness :
  exists chn' w',
    handle_protected_scan_element_attr (bare_device "iio:device0" 1000)
      (bare_channel "voltage0" false None) "type"
      "scan_elements/in_voltage0_type" "?" "s"
      (sysfs_world [Opened (line "l") 0 None])
    = Done (0, chn') w'
    /\ same_but_format (bare_channel "voltage0" false None) chn'
    /\ format chn'
       = {| format_length :=
              format_length (format (bare_channel "voltage0" false None));
            format_bits :=
              format_bits (format (bare_channel "voltage0" false None));
            format_shift :=
              format_shift (format (bare_channel "voltage0" false None));
            is_signed := Ascii.eqb "s" "s" || Ascii.eqb "s" "S";
            is_fully_defined :=
              Ascii.eqb "s" "S" || Ascii.eqb "s" "U"
              || (format_bits (format (bare_channel "voltage0" false None))
                  =? format_length
                       (format (bare_channel "voltage0" false None)));
            is_be := Ascii.eqb "l" "b";
            with_scale :=
              with_scale (format (bare_channel "voltage0" false None));
            format_repeat := 1 |}.
Proof.
  apply (scan_element_type_without_sign_letter plain_build
           (bare_device "iio:device0" 1000)
           (bare_channel "voltage0" false None)
           "scan_elements/in_voltage0_type" "?" "s"
           (sysfs_world [Opened (line "l") 0 None]) (line "l") 0 [] "l" "").
  - reflexivity.
  - simpl. lia.
  - reflexivity.
  - reflexivity.
  - discriminate.
Defined.

(** The type file holds "l" and a line feed: with "s" on the stack the
    channel comes out signed, with "u" unsigned. *)
Example type_file_of_one_letter :
  option_map (fun rc => is_signed (format (snd rc)))
    (value_of
       (handle_protected_scan_element_attr (bare_device "iio:device0" 1000)
          (bare_channel "voltage0" false None) "type"
          "scan_elements/in_voltage0_type" "?" "s"
          (sysfs_world [Opened (line "l") 0 None])))
  = Some true
  /\ option_map (fun rc => is_signed (format (snd rc)))
       (value_of
          (handle_protected_scan_element_attr (bare_device "iio:device0" 1000)
             (bare_channel "voltage0" false None) "type"
             "scan_elements/in_voltage0_type" "?" "u"
             (sysfs_world [Opened (line "l") 0 None])))
     = Some false.
Proof. split; reflexivity. Qed.

End UnvalidatedExamples.
